(** * chess-ai: board engine, move selection and learning update

    A shallow embedding of the Go packages [game] (board.go), [neural]
    (network.go), [agent] (agent.go), [selfplay] (selfplay.go) and
    [database] (the JSON store), and the properties of the specification
    and of the code proved against it.

    Conventions of the embedding.
    - Go [int] coordinates are [Z]; every arithmetic step on them happens
      after the range check of [IsValidMove], so no wrap-around can occur
      there.  [MovesCount++] is written with its 64-bit wrap-around.
    - The array [Cells [8][8]Piece] is a record of eight rows of eight
      cells.  Go panics on an index outside [0,8); here a read outside the
      array yields the empty cell and a write outside it is dropped.  All
      statements about [MakeMove] are for squares on the board.
    - [float64] is Rocq's primitive binary64 [float]; [math.Tanh] is a
      library function outside the repository and is a section variable.
    - [*Board] receivers that mutate become functions returning the new
      board; [Clone] is the copy it is in Go. *)

From Stdlib Require Import ZArith Bool List Lia Floats.
From Stdlib Require Ascii String.
From stdpp Require Import base list.
Import ListNotations.

#[local] Set Warnings "-inexact-float".
#[local] Open Scope Z_scope.

(** ** package game: data model *)

Inductive Color : Set := White | Black.

Inductive PieceType : Set :=
  Empty | Pawn | Knight | Bishop | Rook | Queen | King.

Record Position : Set := mkPosition { Row : Z; Col : Z }.

Record Piece : Set := mkPiece { Piece_Type : PieceType; Piece_Color : Color }.

Record Move : Set := mkMove { From : Position; To : Position }.

Definition Color_eqb (c d : Color) : bool :=
  match c, d with
  | White, White | Black, Black => true
  | _, _ => false
  end.

Definition PieceType_eqb (s t : PieceType) : bool :=
  match s, t with
  | Empty, Empty | Pawn, Pawn | Knight, Knight | Bishop, Bishop
  | Rook, Rook | Queen, Queen | King, King => true
  | _, _ => false
  end.

Definition Position_eqb (p q : Position) : bool :=
  (Row p =? Row q) && (Col p =? Col q).

Definition Move_eqb (m n : Move) : bool :=
  Position_eqb (From m) (From n) && Position_eqb (To m) (To n).

(** A Go array of length eight. *)
Record Arr8 (A : Type) : Type :=
  mkArr8 { a0 : A; a1 : A; a2 : A; a3 : A; a4 : A; a5 : A; a6 : A; a7 : A }.
Arguments mkArr8 {A}.
Arguments a0 {A}. Arguments a1 {A}. Arguments a2 {A}. Arguments a3 {A}.
Arguments a4 {A}. Arguments a5 {A}. Arguments a6 {A}. Arguments a7 {A}.

Definition get8 {A} (d : A) (a : Arr8 A) (i : Z) : A :=
  match i with
  | 0 => a0 a | 1 => a1 a | 2 => a2 a | 3 => a3 a
  | 4 => a4 a | 5 => a5 a | 6 => a6 a | 7 => a7 a
  | _ => d
  end.

Definition set8 {A} (a : Arr8 A) (i : Z) (v : A) : Arr8 A :=
  let '(mkArr8 x0 x1 x2 x3 x4 x5 x6 x7) := a in
  match i with
  | 0 => mkArr8 v x1 x2 x3 x4 x5 x6 x7
  | 1 => mkArr8 x0 v x2 x3 x4 x5 x6 x7
  | 2 => mkArr8 x0 x1 v x3 x4 x5 x6 x7
  | 3 => mkArr8 x0 x1 x2 v x4 x5 x6 x7
  | 4 => mkArr8 x0 x1 x2 x3 v x5 x6 x7
  | 5 => mkArr8 x0 x1 x2 x3 x4 v x6 x7
  | 6 => mkArr8 x0 x1 x2 x3 x4 x5 v x7
  | 7 => mkArr8 x0 x1 x2 x3 x4 x5 x6 v
  | _ => a
  end.

Definition Grid : Type := Arr8 (Arr8 Piece).

(** [Piece{Empty, White}], the value the code writes into vacated squares. *)
Definition emptyCell : Piece := mkPiece Empty White.

Definition emptyRow : Arr8 Piece :=
  mkArr8 emptyCell emptyCell emptyCell emptyCell
         emptyCell emptyCell emptyCell emptyCell.

(** [cells[row][col]] *)
Definition cellAt (cells : Grid) (row col : Z) : Piece :=
  get8 emptyCell (get8 emptyRow cells row) col.

(** [cells[row][col] = v] *)
Definition setCell (cells : Grid) (row col : Z) (v : Piece) : Grid :=
  set8 cells row (set8 (get8 emptyRow cells row) col v).

Definition onBoard (p : Position) : bool :=
  (0 <=? Row p) && (Row p <=? 7) && (0 <=? Col p) && (Col p <=? 7).

Record Board : Type := mkBoard {
  Cells : Grid;
  CurrentTurn : Color;
  GameOver : bool;
  Winner : Color;
  IsCheck : bool;
  EnPassantTarget : option Position;
  WhiteKingMoved : bool;
  BlackKingMoved : bool;
  WhiteRookAMoved : bool;
  WhiteRookHMoved : bool;
  BlackRookAMoved : bool;
  BlackRookHMoved : bool;
  MovesCount : Z
}.

Definition opponent (c : Color) : Color :=
  match c with White => Black | Black => White end.

(** Go's [int] is 64 bits wide on the supported platforms. *)
Definition wrapInt (z : Z) : Z := (z + 2 ^ 63) mod 2 ^ 64 - 2 ^ 63.

(** Squares in scan order: rows 0..7, and columns 0..7 inside each row. *)
Definition indices8 : list Z := [0; 1; 2; 3; 4; 5; 6; 7].

Definition allSquares : list Position :=
  flat_map (fun row => map (fun col => mkPosition row col) indices8) indices8.

(** ** package game: initial position *)

Definition backRank (c : Color) : Arr8 Piece :=
  mkArr8 (mkPiece Rook c) (mkPiece Knight c) (mkPiece Bishop c) (mkPiece Queen c)
         (mkPiece King c) (mkPiece Bishop c) (mkPiece Knight c) (mkPiece Rook c).

Definition pawnRank (c : Color) : Arr8 Piece :=
  let p := mkPiece Pawn c in mkArr8 p p p p p p p p.

Definition setupInitialPosition (b : Board) : Board :=
  mkBoard
    (mkArr8 (backRank Black) (pawnRank Black) emptyRow emptyRow
            emptyRow emptyRow (pawnRank White) (backRank White))
    (CurrentTurn b) (GameOver b) (Winner b) (IsCheck b) (EnPassantTarget b)
    (WhiteKingMoved b) (BlackKingMoved b) (WhiteRookAMoved b)
    (WhiteRookHMoved b) (BlackRookAMoved b) (BlackRookHMoved b) (MovesCount b).

(** The zero value of [Board] with [CurrentTurn: White]. *)
Definition zeroBoard : Board :=
  mkBoard (mkArr8 emptyRow emptyRow emptyRow emptyRow
                  emptyRow emptyRow emptyRow emptyRow)
          White false White false None false false false false false false 0.

Definition NewBoard : Board := setupInitialPosition zeroBoard.

(** ** package game: movement rules *)

Definition abs (x : Z) : Z := if x <? 0 then - x else x.
Definition min (a b : Z) : Z := if a <? b then a else b.
Definition max (a b : Z) : Z := if a >? b then a else b.

Definition isEmpty (p : Piece) : bool := PieceType_eqb (Piece_Type p) Empty.

Definition isValidPawnMove (b : Board) (move : Move) (piece : Piece) : bool :=
  let direction := if Color_eqb (Piece_Color piece) Black then 1 else -1 in
  let startRow := if Color_eqb (Piece_Color piece) Black then 1 else 6 in
  let rowDiff := Row (To move) - Row (From move) in
  let colDiff := Col (To move) - Col (From move) in
  if (colDiff =? 0) && (rowDiff =? direction) then
    isEmpty (cellAt (Cells b) (Row (To move)) (Col (To move)))
  else if (colDiff =? 0) && (rowDiff =? 2 * direction)
          && (Row (From move) =? startRow) then
    let middleRow := Row (From move) + direction in
    isEmpty (cellAt (Cells b) middleRow (Col (From move)))
    && isEmpty (cellAt (Cells b) (Row (To move)) (Col (To move)))
  else if (abs colDiff =? 1) && (rowDiff =? direction) then
    let target := cellAt (Cells b) (Row (To move)) (Col (To move)) in
    if negb (isEmpty target)
       && negb (Color_eqb (Piece_Color target) (Piece_Color piece)) then true
    else
      match EnPassantTarget b with
      | Some ep => (Row (To move) =? Row ep) && (Col (To move) =? Col ep)
      | None => false
      end
  else false.

Definition isValidKnightMove (move : Move) : bool :=
  let rowDiff := abs (Row (To move) - Row (From move)) in
  let colDiff := abs (Col (To move) - Col (From move)) in
  ((rowDiff =? 2) && (colDiff =? 1)) || ((rowDiff =? 1) && (colDiff =? 2)).

(** The loop of [isPathClear]: [for row != To.Row || col != To.Col].  On
    the board every aligned path ends within seven steps; [None] stands
    for a walk that leaves the board, where Go panics. *)
Fixpoint pathLoop (fuel : nat) (cells : Grid) (rowStep colStep : Z)
         (toRow toCol row col : Z) : option bool :=
  match fuel with
  | O => None
  | S fuel' =>
      if negb (row =? toRow) || negb (col =? toCol) then
        if negb (isEmpty (cellAt cells row col)) then Some false
        else pathLoop fuel' cells rowStep colStep toRow toCol
                      (row + rowStep) (col + colStep)
      else Some true
  end.

Definition isPathClear (b : Board) (move : Move) : bool :=
  let rowStep :=
    if Row (To move) >? Row (From move) then 1
    else if Row (To move) <? Row (From move) then -1 else 0 in
  let colStep :=
    if Col (To move) >? Col (From move) then 1
    else if Col (To move) <? Col (From move) then -1 else 0 in
  match pathLoop 8 (Cells b) rowStep colStep (Row (To move)) (Col (To move))
                 (Row (From move) + rowStep) (Col (From move) + colStep) with
  | Some r => r
  | None => false
  end.

Definition isValidBishopMove (b : Board) (move : Move) : bool :=
  let rowDiff := abs (Row (To move) - Row (From move)) in
  let colDiff := abs (Col (To move) - Col (From move)) in
  if negb (rowDiff =? colDiff) then false else isPathClear b move.

Definition isValidRookMove (b : Board) (move : Move) : bool :=
  if negb (Row (From move) =? Row (To move))
     && negb (Col (From move) =? Col (To move)) then false
  else isPathClear b move.

Definition isValidQueenMove (b : Board) (move : Move) : bool :=
  isValidBishopMove b move || isValidRookMove b move.

(** ** package game: attacks and check *)

(** The first square in scan order holding the king of [color], or the
    sentinel [Position{-1, -1}]. *)
Definition findKing (b : Board) (color : Color) : Position :=
  match List.find
          (fun p =>
             let piece := cellAt (Cells b) (Row p) (Col p) in
             PieceType_eqb (Piece_Type piece) King
             && Color_eqb (Piece_Color piece) color)
          allSquares with
  | Some p => p
  | None => mkPosition (-1) (-1)
  end.

(** The body of the scan of [isSquareUnderAttack] for the piece standing
    on [from]: does it attack [pos]? *)
Definition attacksFrom (b : Board) (pos : Position) (byColor : Color)
           (from : Position) : bool :=
  let piece := cellAt (Cells b) (Row from) (Col from) in
  if isEmpty piece || negb (Color_eqb (Piece_Color piece) byColor) then false
  else
    let move := mkMove from pos in
    match Piece_Type piece with
    | Pawn =>
        let direction := if Color_eqb (Piece_Color piece) Black then 1 else -1 in
        let rowDiff := Row pos - Row from in
        let colDiff := abs (Col pos - Col from) in
        (rowDiff =? direction) && (colDiff =? 1)
    | Knight => isValidKnightMove move
    | Bishop => isValidBishopMove b move
    | Rook => isValidRookMove b move
    | Queen => isValidQueenMove b move
    | King =>
        let rowDiff := abs (Row pos - Row from) in
        let colDiff := abs (Col pos - Col from) in
        (rowDiff <=? 1) && (colDiff <=? 1)
    | Empty => false
    end.

Definition isSquareUnderAttack (b : Board) (pos : Position) (byColor : Color)
  : bool :=
  existsb (attacksFrom b pos byColor) allSquares.

Definition isInCheck (b : Board) (color : Color) : bool :=
  let kingPos := findKing b color in
  if Row kingPos =? -1 then false
  else isSquareUnderAttack b kingPos (opponent color).

(** [for col := lo; col < hi; col++] *)
Definition colsFromTo (lo hi : Z) : list Z :=
  map (fun k => lo + Z.of_nat k) (seq 0 (Z.to_nat (hi - lo))).

(** [for col := from + step; col != to + step; col += step], where [step]
    points from [from] towards [to]: the columns after [from] up to and
    including [to]. *)
Definition transitCols (fromCol toCol step : Z) : list Z :=
  map (fun k => fromCol + step * (Z.of_nat k + 1))
      (seq 0 (Z.to_nat (abs (toCol - fromCol)))).

Definition kingMoved (b : Board) (c : Color) : bool :=
  match c with White => WhiteKingMoved b | Black => BlackKingMoved b end.

(** The column and the has-moved flag of the rook [canCastle] selects. *)
Definition castleRookCol (isKingSide : bool) : Z := if isKingSide then 7 else 0.

Definition castleRookMoved (b : Board) (c : Color) (isKingSide : bool) : bool :=
  match c, isKingSide with
  | White, true => WhiteRookHMoved b
  | White, false => WhiteRookAMoved b
  | Black, true => BlackRookHMoved b
  | Black, false => BlackRookAMoved b
  end.

Definition canCastle (b : Board) (move : Move) (piece : Piece) : bool :=
  if Color_eqb (Piece_Color piece) White && WhiteKingMoved b then false
  else if Color_eqb (Piece_Color piece) Black && BlackKingMoved b then false
  else
    let isKingSide := Col (To move) >? Col (From move) in
    let rookCol := castleRookCol isKingSide in
    let rookMoved := castleRookMoved b (Piece_Color piece) isKingSide in
    if rookMoved then false
    else
      let rook := cellAt (Cells b) (Row (From move)) rookCol in
      if negb (PieceType_eqb (Piece_Type rook) Rook)
         || negb (Color_eqb (Piece_Color rook) (Piece_Color piece)) then false
      else
        let minCol := min (Col (From move)) rookCol in
        let maxCol := max (Col (From move)) rookCol in
        if negb (forallb
                   (fun col => isEmpty (cellAt (Cells b) (Row (From move)) col))
                   (colsFromTo (minCol + 1) maxCol)) then false
        else
          let opponentColor :=
            if Color_eqb (Piece_Color piece) Black then White else Black in
          if isSquareUnderAttack b (From move) opponentColor then false
          else
            let step := if Col (To move) <? Col (From move) then -1 else 1 in
            forallb
              (fun col =>
                 negb (isSquareUnderAttack
                         b (mkPosition (Row (From move)) col) opponentColor))
              (transitCols (Col (From move)) (Col (To move)) step).

Definition isValidKingMove (b : Board) (move : Move) (piece : Piece) : bool :=
  let rowDiff := abs (Row (To move) - Row (From move)) in
  let colDiff := abs (Col (To move) - Col (From move)) in
  if (rowDiff <=? 1) && (colDiff <=? 1) then true
  else if (rowDiff =? 0) && (colDiff =? 2) then canCastle b move piece
  else false.

(** ** package game: legality *)

Definition Clone (b : Board) : Board :=
  mkBoard (Cells b) (CurrentTurn b) (GameOver b) (Winner b) (IsCheck b)
          (match EnPassantTarget b with
           | Some ep => Some (mkPosition (Row ep) (Col ep))
           | None => None
           end)
          (WhiteKingMoved b) (BlackKingMoved b) (WhiteRookAMoved b)
          (WhiteRookHMoved b) (BlackRookAMoved b) (BlackRookHMoved b)
          (MovesCount b).

Definition withCells (b : Board) (cells : Grid) : Board :=
  mkBoard cells (CurrentTurn b) (GameOver b) (Winner b) (IsCheck b)
          (EnPassantTarget b) (WhiteKingMoved b) (BlackKingMoved b)
          (WhiteRookAMoved b) (WhiteRookHMoved b) (BlackRookAMoved b)
          (BlackRookHMoved b) (MovesCount b).

(** The simulation of [wouldBeInCheck]: the piece is lifted from [From]
    and dropped on [To] of a copy; nothing else of the copy changes. *)
Definition wouldBeInCheck (b : Board) (move : Move) (color : Color) : bool :=
  let tempBoard := Clone b in
  let piece := cellAt (Cells tempBoard) (Row (From move)) (Col (From move)) in
  let cells1 :=
    setCell (Cells tempBoard) (Row (To move)) (Col (To move)) piece in
  let cells2 := setCell cells1 (Row (From move)) (Col (From move)) emptyCell in
  isInCheck (withCells tempBoard cells2) color.

(** The piece-specific rule [IsValidMove] dispatches to. *)
Definition pieceRule (b : Board) (move : Move) (piece : Piece) : bool :=
  match Piece_Type piece with
  | Pawn => isValidPawnMove b move piece
  | Knight => isValidKnightMove move
  | Bishop => isValidBishopMove b move
  | Rook => isValidRookMove b move
  | Queen => isValidQueenMove b move
  | King => isValidKingMove b move piece
  | Empty => false
  end.

Definition IsValidMove (b : Board) (move : Move) : bool :=
  if negb (onBoard (From move)) then false
  else if negb (onBoard (To move)) then false
  else
    let piece := cellAt (Cells b) (Row (From move)) (Col (From move)) in
    if isEmpty piece then false
    else if negb (Color_eqb (Piece_Color piece) (CurrentTurn b)) then false
    else
      let target := cellAt (Cells b) (Row (To move)) (Col (To move)) in
      if negb (isEmpty target)
         && Color_eqb (Piece_Color target) (Piece_Color piece) then false
      else if negb (pieceRule b move piece) then false
      else negb (wouldBeInCheck b move (Piece_Color piece)).

Definition GetLegalMoves (b : Board) : list Move :=
  flat_map
    (fun from =>
       let piece := cellAt (Cells b) (Row from) (Col from) in
       if isEmpty piece || negb (Color_eqb (Piece_Color piece) (CurrentTurn b))
       then []
       else List.filter (IsValidMove b) (map (mkMove from) allSquares))
    allSquares.

(** ** package game: applying a move *)

Definition withResult (b : Board) (over : bool) (winner : Color) : Board :=
  mkBoard (Cells b) (CurrentTurn b) over winner (IsCheck b)
          (EnPassantTarget b) (WhiteKingMoved b) (BlackKingMoved b)
          (WhiteRookAMoved b) (WhiteRookHMoved b) (BlackRookAMoved b)
          (BlackRookHMoved b) (MovesCount b).

Definition checkGameOver (b : Board) : Board :=
  let moves := GetLegalMoves b in
  let b1 :=
    if (length moves =? 0)%nat then
      if isInCheck b (CurrentTurn b) then
        withResult b true (if Color_eqb (CurrentTurn b) White then Black else White)
      else withResult b true White
    else b in
  if MovesCount b1 >? 200 then withResult b1 true White else b1.

(** The board after the cell updates of [MakeMove]: en-passant removal,
    rook relocation of a castling move, the move itself, promotion. *)
Definition movedCells (b : Board) (move : Move) : Grid :=
  let piece := cellAt (Cells b) (Row (From move)) (Col (From move)) in
  let fr := Row (From move) in
  let fc := Col (From move) in
  let tr := Row (To move) in
  let tc := Col (To move) in
  let cells1 :=
    if PieceType_eqb (Piece_Type piece) Pawn
       && match EnPassantTarget b with
          | Some ep => (tr =? Row ep) && (tc =? Col ep)
          | None => false
          end
    then
      if Color_eqb (Piece_Color piece) White
      then setCell (Cells b) (tr + 1) tc emptyCell
      else setCell (Cells b) (tr - 1) tc emptyCell
    else Cells b in
  let cells2 :=
    if PieceType_eqb (Piece_Type piece) King && (abs (tc - fc) =? 2) then
      if tc >? fc
      then setCell (setCell cells1 fr 5 (cellAt cells1 fr 7)) fr 7 emptyCell
      else setCell (setCell cells1 fr 3 (cellAt cells1 fr 0)) fr 0 emptyCell
    else cells1 in
  let cells3 := setCell (setCell cells2 tr tc piece) fr fc emptyCell in
  if PieceType_eqb (Piece_Type piece) Pawn
     && ((Color_eqb (Piece_Color piece) White && (tr =? 0))
         || (Color_eqb (Piece_Color piece) Black && (tr =? 7)))
  then setCell cells3 tr tc (mkPiece Queen (Piece_Color piece))
  else cells3.

(** The en-passant bookkeeping of [MakeMove]: the target is reset to nil
    and set again only for a pawn whose row changed by two. *)
Definition nextEnPassantTarget (b : Board) (move : Move) : option Position :=
  let piece := cellAt (Cells b) (Row (From move)) (Col (From move)) in
  if PieceType_eqb (Piece_Type piece) Pawn
     && (abs (Row (To move) - Row (From move)) =? 2)
  then Some (mkPosition (Z.quot (Row (From move) + Row (To move)) 2)
                        (Col (To move)))
  else None.

(** [MakeMove] up to and including [b.MovesCount++]. *)
Definition applyMove (b : Board) (move : Move) : Board :=
  let piece := cellAt (Cells b) (Row (From move)) (Col (From move)) in
  let isKing := PieceType_eqb (Piece_Type piece) King in
  let isRook := PieceType_eqb (Piece_Type piece) Rook in
  let white := Color_eqb (Piece_Color piece) White in
  let fromA := Col (From move) =? 0 in
  let fromH := negb fromA && (Col (From move) =? 7) in
  mkBoard (movedCells b move)
          (if Color_eqb (CurrentTurn b) White then Black else White)
          (GameOver b) (Winner b) (IsCheck b)
          (nextEnPassantTarget b move)
          (if isKing && white then true else WhiteKingMoved b)
          (if isKing && negb white then true else BlackKingMoved b)
          (if isRook && white && fromA then true else WhiteRookAMoved b)
          (if isRook && white && fromH then true else WhiteRookHMoved b)
          (if isRook && negb white && fromA then true else BlackRookAMoved b)
          (if isRook && negb white && fromH then true else BlackRookHMoved b)
          (wrapInt (MovesCount b + 1)).

Definition withIsCheck (b : Board) (chk : bool) : Board :=
  mkBoard (Cells b) (CurrentTurn b) (GameOver b) (Winner b) chk
          (EnPassantTarget b) (WhiteKingMoved b) (BlackKingMoved b)
          (WhiteRookAMoved b) (WhiteRookHMoved b) (BlackRookAMoved b)
          (BlackRookHMoved b) (MovesCount b).

Definition MakeMove (b : Board) (move : Move) : Board :=
  let b1 := applyMove b move in
  let b2 := withIsCheck b1 (isInCheck b1 (CurrentTurn b1)) in
  checkGameOver b2.

(** ** package neural: the network *)

#[local] Open Scope float_scope.

Record Network : Type := mkNetwork {
  Weights1 : list (list float);   (* 768 -> 256 *)
  Bias1 : list float;             (* 256 *)
  Weights2 : list (list float);   (* 256 -> 128 *)
  Bias2 : list float;             (* 128 *)
  Weights3 : list (list float);   (* 128 -> 1 *)
  Bias3 : list float;             (* 1 *)
  VWeights1 : list (list float);
  VBias1 : list float;
  VWeights2 : list (list float);
  VBias2 : list float;
  VWeights3 : list (list float);
  VBias3 : list float;
  LearningRate : float;
  Momentum : float
}.

(** [v[i]] and [m[i][j]] on slices; Go panics outside the slice, here the
    read yields 0. *)
Definition at1 (v : list float) (i : nat) : float := nth i v 0.
Definition at2 (m : list (list float)) (i j : nat) : float :=
  nth j (nth i m []) 0.

(** [m[i][j] = x] *)
Definition set2 (m : list (list float)) (i j : nat) (x : float)
  : list (list float) :=
  <[i := <[j := x]> (nth i m [])]> m.

Definition relu (x : float) : float := if 0 <? x then x else 0.

(** [sum := bias[i]; for j := 0; j < nIn; j++ { sum += input[j] * w[j][i] }] *)
Definition weightedSum (bias : list float) (w : list (list float))
           (input : list float) (nIn i : nat) : float :=
  fold_left (fun sum j => sum + at1 input j * at2 w j i) (seq 0 nIn) (at1 bias i).

(** One momentum step on a parameter [w] with velocity [v]:
    [v = momentum*v + learningRate*grad; w += v]. *)
Definition velocityStep (n : Network) (v grad : float) : float :=
  Momentum n * v + LearningRate n * grad.

(** The loop [for j { grad := ...; V[j] = M*V[j] + LR*grad; W[j] += V[j] }]
    over a bias vector and its velocities. *)
Definition updateBias (n : Network) (grad : nat -> float) (count : nat)
           (vb b : list float) : list float * list float :=
  fold_left
    (fun '(vb, b) j =>
       let vb' := <[j := velocityStep n (at1 vb j) (grad j)]> vb in
       (vb', <[j := at1 b j + at1 vb' j]> b))
    (seq 0 count) (vb, b).

(** The loop nest [for i { for j { grad := ...; V[i][j] = ...; W[i][j] += V[i][j] } }]
    over a weight matrix and its velocities. *)
Definition updateWeights (n : Network) (grad : nat -> nat -> float)
           (rows cols : nat) (vw w : list (list float))
  : list (list float) * list (list float) :=
  fold_left
    (fun st i =>
       fold_left
         (fun '(vw, w) j =>
            let vw' := set2 vw i j (velocityStep n (at2 vw i j) (grad i j)) in
            (vw', set2 w i j (at2 w i j + at2 vw' i j)))
         (seq 0 cols) st)
    (seq 0 rows) (vw, w).

Section Neural.

(** [math.Tanh] of the Go library. *)
Variable mathTanh : float -> float.

Definition tanh (x : float) : float := mathTanh x.

Definition tanhDerivative (x : float) : float :=
  let t := mathTanh x in 1 - t * t.

Definition forwardHidden1 (n : Network) (input : list float) : list float :=
  map (fun i => relu (weightedSum (Bias1 n) (Weights1 n) input 768 i))
      (seq 0 256).

Definition forwardHidden2 (n : Network) (hidden1 : list float) : list float :=
  map (fun i => relu (weightedSum (Bias2 n) (Weights2 n) hidden1 256 i))
      (seq 0 128).

Definition forwardSum (n : Network) (hidden2 : list float) : float :=
  weightedSum (Bias3 n) (Weights3 n) hidden2 128 0.

Definition Forward (n : Network) (input : list float) : float :=
  let hidden1 := forwardHidden1 n input in
  let hidden2 := forwardHidden2 n hidden1 in
  tanh (forwardSum n hidden2).

(** [hiddenError[i] = e; if hidden[i] <= 0 { hiddenError[i] = 0 }] *)
Definition reluGate (hidden e : float) : float :=
  if hidden <=? 0 then 0 else e.

(** [outputDelta := (target - output) * tanhDerivative(sum)] *)
Definition outputDeltaOf (sum target : float) : float :=
  (target - tanh sum) * tanhDerivative sum.

(** The error of the second hidden layer, read off the output weights
    [w3]: [hidden2Error[i] = outputDelta * w3[i][0]], gated by the ReLU. *)
Definition hidden2ErrorOf (w3 : list (list float)) (outputDelta : float)
           (hidden2 : list float) : list float :=
  map (fun i => reluGate (at1 hidden2 i) (outputDelta * at2 w3 i 0))
      (seq 0 128).

(** The error of the first hidden layer, read off the second-layer weights
    [w2]: [hidden1Error[i] += hidden2Error[j] * w2[i][j]], gated by the ReLU. *)
Definition hidden1ErrorOf (w2 : list (list float)) (hidden2Error : list float)
           (hidden1 : list float) : list float :=
  map (fun i =>
         reluGate (at1 hidden1 i)
                  (fold_left (fun e j => e + at1 hidden2Error j * at2 w2 i j)
                             (seq 0 128) 0))
      (seq 0 256).

(** The loop of the output layer:
    [for j { grad := outputDelta * hidden2[j]; V3[j][0] = ...; W3[j][0] += V3[j][0] }]. *)
Definition updateOutputWeights (n : Network) (outputDelta : float)
           (hidden2 : list float) (vw w : list (list float))
  : list (list float) * list (list float) :=
  fold_left
    (fun '(vw, w) j =>
       let grad := outputDelta * at1 hidden2 j in
       let vw' := set2 vw j 0 (velocityStep n (at2 vw j 0) grad) in
       (vw', set2 w j 0 (at2 w j 0 + at2 vw' j 0)))
    (seq 0 128) (vw, w).

Definition Train (n : Network) (input : list float) (target : float) : Network :=
  (* forward pass *)
  let hidden1 := forwardHidden1 n input in
  let hidden2 := forwardHidden2 n hidden1 in
  let sum := forwardSum n hidden2 in
  (* output layer *)
  let outputDelta := outputDeltaOf sum target in
  let layer3 :=
    updateOutputWeights n outputDelta hidden2 (VWeights3 n) (Weights3 n) in
  let vb3 := <[0%nat := velocityStep n (at1 (VBias3 n) 0) outputDelta]> (VBias3 n) in
  let b3 := <[0%nat := at1 (Bias3 n) 0 + at1 vb3 0]> (Bias3 n) in
  (* second hidden layer: the error is read off the weights just written *)
  let hidden2Error := hidden2ErrorOf (snd layer3) outputDelta hidden2 in
  let layer2 :=
    updateWeights n (fun i j => at1 hidden2Error j * at1 hidden1 i)
                  256 128 (VWeights2 n) (Weights2 n) in
  let bias2 :=
    updateBias n (fun j => at1 hidden2Error j) 128 (VBias2 n) (Bias2 n) in
  (* first hidden layer: likewise *)
  let hidden1Error := hidden1ErrorOf (snd layer2) hidden2Error hidden1 in
  let layer1 :=
    updateWeights n (fun i j => at1 hidden1Error j * at1 input i)
                  768 256 (VWeights1 n) (Weights1 n) in
  let bias1 :=
    updateBias n (fun j => at1 hidden1Error j) 256 (VBias1 n) (Bias1 n) in
  mkNetwork (snd layer1) (snd bias1) (snd layer2) (snd bias2) (snd layer3) b3
            (fst layer1) (fst bias1) (fst layer2) (fst bias2) (fst layer3) vb3
            (LearningRate n) (Momentum n).

End Neural.

(** ** package agent *)

(** The agent without its [Network *neural.Network] field: the network is
    a heap object that both self-play agents point to, so the functions
    below take it as an argument and return it. *)
Record Agent : Type := mkAgent {
  Agent_Color : Color;
  Epsilon : float;
  Gamma : float;
  StateHistory : list (list float);
  RewardHistory : list float
}.

Definition NewAgent (color : Color) : Agent := mkAgent color 0.1 0.99 [] [].

Definition withStateHistory (a : Agent) (h : list (list float)) : Agent :=
  mkAgent (Agent_Color a) (Epsilon a) (Gamma a) h (RewardHistory a).

Definition withEpsilon (a : Agent) (e : float) : Agent :=
  mkAgent (Agent_Color a) e (Gamma a) (StateHistory a) (RewardHistory a).

Definition pieceTypes : list PieceType :=
  [Pawn; Knight; Bishop; Rook; Queen; King].

(** Entry [planeIdx*64 + row*8 + col] is written in increasing index order. *)
Definition boardToVector (board : Board) : list float :=
  flat_map
    (fun planeIdx : nat =>
       let pieceType := nth (planeIdx mod 6) pieceTypes Empty in
       let color := if (6 <=? planeIdx)%nat then Black else White in
       flat_map
         (fun row =>
            map (fun col =>
                   let piece := cellAt (Cells board) row col in
                   if PieceType_eqb (Piece_Type piece) pieceType
                      && Color_eqb (Piece_Color piece) color
                   then 1 else 0)
                indices8)
         indices8)
    (seq 0 12).

Definition RecordState (a : Agent) (board : Board) : Agent :=
  withStateHistory a (StateHistory a ++ [boardToVector board]).

(** [math.MaxFloat64], [math.Max] and [math.Min] as the Go library
    documents them. *)
Definition MaxFloat64 : float := 0x1.fffffffffffffp+1023.

Definition mathMax (x y : float) : float :=
  if (x =? infinity) || (y =? infinity) then infinity
  else if is_nan x || is_nan y then nan
  else if (x =? 0) && (x =? y) then (if get_sign x then y else x)
  else if y <? x then x else y.

Definition mathMin (x y : float) : float :=
  if (x =? neg_infinity) || (y =? neg_infinity) then neg_infinity
  else if is_nan x || is_nan y then nan
  else if (x =? 0) && (x =? y) then (if get_sign x then x else y)
  else if x <? y then x else y.

(** [game.Move{From: game.Position{-1, -1}}] *)
Definition noResultMove : Move := mkMove (mkPosition (-1) (-1)) (mkPosition 0 0).

(** [game.Move{}] *)
Definition zeroMove : Move := mkMove (mkPosition 0 0) (mkPosition 0 0).

(** The value of [Epsilon] after [Epsilon *= 0.995] and the floor test
    [if Epsilon < 0.01 { Epsilon = 0.01 }]. *)
Definition decayed (epsilon : float) : float :=
  let e := epsilon * 0.995 in
  if e <? 0.01 then 0.01 else e.

(** [rand.Intn(n)] for [n > 0]: a value of [0, n), taken from a raw draw. *)
Definition randIntn (raw n : nat) : nat := (raw mod n)%nat.

Section AgentCode.

Variable mathTanh : float -> float.

Definition evaluatePosition (net : Network) (board : Board) : float :=
  Forward mathTanh net (boardToVector board).

(** The loop of the maximizing branch of [minimax] over the remaining
    [moves]; [evalChild boardCopy alpha beta] is the value of the recursive
    call on the copy. *)
Fixpoint maximizeOver (evalChild : Board -> float -> float -> float)
         (board : Board) (beta : float) (moves : list Move)
         (maxEval : float) (bestMove : Move) (alpha : float) : float * Move :=
  match moves with
  | [] => (maxEval, bestMove)
  | move :: rest =>
      let boardCopy := MakeMove (Clone board) move in
      let eval := evalChild boardCopy alpha beta in
      let best :=
        if maxEval <? eval then (eval, move) else (maxEval, bestMove) in
      let alpha' := mathMax alpha eval in
      if beta <=? alpha' then best
      else maximizeOver evalChild board beta rest (fst best) (snd best) alpha'
  end.

(** The loop of the minimizing branch. *)
Fixpoint minimizeOver (evalChild : Board -> float -> float -> float)
         (board : Board) (alpha : float) (moves : list Move)
         (minEval : float) (bestMove : Move) (beta : float) : float * Move :=
  match moves with
  | [] => (minEval, bestMove)
  | move :: rest =>
      let boardCopy := MakeMove (Clone board) move in
      let eval := evalChild boardCopy alpha beta in
      let best :=
        if eval <? minEval then (eval, move) else (minEval, bestMove) in
      let beta' := mathMin beta eval in
      if beta' <=? alpha then best
      else minimizeOver evalChild board alpha rest (fst best) (snd best) beta'
  end.

(** [depth] is only ever 2 at the root and is decremented down to 0. *)
Fixpoint minimax (net : Network) (depth : nat) (board : Board)
         (alpha beta : float) (maximizing : bool) : float * Move :=
  match depth with
  | O => (evaluatePosition net board, noResultMove)
  | S depth' =>
      if GameOver board then (evaluatePosition net board, noResultMove)
      else
        let moves := GetLegalMoves board in
        if (length moves =? 0)%nat
        then (evaluatePosition net board, noResultMove)
        else if maximizing then
          maximizeOver
            (fun boardCopy alpha beta =>
               fst (minimax net depth' boardCopy alpha beta false))
            board beta moves (- MaxFloat64) noResultMove alpha
        else
          minimizeOver
            (fun boardCopy alpha beta =>
               fst (minimax net depth' boardCopy alpha beta true))
            board alpha moves MaxFloat64 noResultMove beta
  end.

(** [randFloat] is the value of [rand.Float64()] and [randRaw] the draw
    behind [rand.Intn(len(moves))]; at most one [Intn] call is made. *)
Definition ChooseMove (net : Network) (a : Agent) (board : Board)
           (randFloat : float) (randRaw : nat) : Move :=
  let moves := GetLegalMoves board in
  if (length moves =? 0)%nat then zeroMove
  else if randFloat <? Epsilon a
  then nth (randIntn randRaw (length moves)) moves zeroMove
  else
    let bestMove :=
      snd (minimax net 2 board (- MaxFloat64) MaxFloat64 true) in
    if (Row (From bestMove) =? -1)%Z
    then nth (randIntn randRaw (length moves)) moves zeroMove
    else bestMove.

(** The loop of [Learn]: [for i := len-1; i >= 0; i--]; [count] is [i+1]. *)
Fixpoint learnLoop (a : Agent) (count : nat) (net : Network) (reward : float)
  : Network * float :=
  match count with
  | O => (net, reward)
  | S i =>
      let state := nth i (StateHistory a) [] in
      learnLoop a i (Train mathTanh net state reward) (reward * Gamma a)
  end.

(** [a.Epsilon *= 0.995; if a.Epsilon < 0.01 { a.Epsilon = 0.01 }] *)
Definition decayEpsilon (a : Agent) : Agent :=
  withEpsilon a (decayed (Epsilon a)).

(** The target the state at distance [k] from the end of the history is
    trained towards: [reward], multiplied [k] times by [gamma]
    ([reward *= a.Gamma] once per earlier state). *)
Fixpoint discounted (reward gamma : float) (k : nat) : float :=
  match k with
  | O => reward
  | S k' => discounted (reward * gamma) gamma k'
  end.

Definition Learn (a : Agent) (net : Network) (finalReward : float)
  : Agent * Network :=
  if (length (StateHistory a) =? 0)%nat then (a, net)
  else
    let net' := fst (learnLoop a (length (StateHistory a)) net finalReward) in
    (decayEpsilon a, net').

(** The loop of [TestEpsilonDecay], run [rounds] times:
    [agent.RecordState(board); agent.Learn(1.0); agent.StateHistory = nil]. *)
Fixpoint learnRounds (rounds : nat) (board : Board) (a : Agent) (net : Network)
  : Agent * Network :=
  match rounds with
  | O => (a, net)
  | S rounds' =>
      let '(a', net') := Learn (RecordState a board) net 1 in
      learnRounds rounds' board (withStateHistory a' []) net'
  end.

(** ** package selfplay *)

(** Both agents hold the same [*neural.Network]. *)
Record SelfPlayManager : Type := mkSelfPlayManager {
  whiteAgent : Agent;
  blackAgent : Agent;
  sharedNetwork : Network;
  gamesCount : Z
}.

(** The collecting loops of [trainSharedNetwork]:
    [for i := len-1; i >= 0; i-- { append(Experience{history[i], r}); r *= gamma }]. *)
Fixpoint collectExperiences (a : Agent) (count : nat) (reward : float)
         (allExperiences : list (list float * float))
  : list (list float * float) :=
  match count with
  | O => allExperiences
  | S i =>
      collectExperiences a i (reward * Gamma a)
        (allExperiences ++ [(nth i (StateHistory a) [], reward)])
  end.

Definition trainSharedNetwork (m : SelfPlayManager)
           (whiteReward blackReward : float) : SelfPlayManager :=
  let exps1 :=
    collectExperiences (whiteAgent m) (length (StateHistory (whiteAgent m)))
                       whiteReward [] in
  let exps2 :=
    collectExperiences (blackAgent m) (length (StateHistory (blackAgent m)))
                       blackReward exps1 in
  let net :=
    fold_left (fun net exp => Train mathTanh net (fst exp) (snd exp))
              exps2 (sharedNetwork m) in
  mkSelfPlayManager (decayEpsilon (whiteAgent m)) (decayEpsilon (blackAgent m))
                    net (gamesCount m).

(** The revision of [PlayGame] that ends with
    [m.whiteAgent.Learn(whiteReward); m.blackAgent.Learn(blackReward)]. *)
Definition learnBoth (m : SelfPlayManager) (whiteReward blackReward : float)
  : SelfPlayManager :=
  let '(w, net1) := Learn (whiteAgent m) (sharedNetwork m) whiteReward in
  let '(bl, net2) := Learn (blackAgent m) net1 blackReward in
  mkSelfPlayManager w bl net2 (gamesCount m).

End AgentCode.

(** The result block of [PlayGame]: the winner tag and both rewards. *)
Inductive WinnerTag : Set := TagWhite | TagBlack | TagDraw.

Definition selfPlayOutcome (board : Board) : WinnerTag * float * float :=
  if GameOver board then
    if Color_eqb (Winner board) White then (TagWhite, 1, 0)
    else if Color_eqb (Winner board) Black then (TagBlack, 0, 1)
    else (TagDraw, 0.5, 0.5)
  else (TagDraw, 0.5, 0.5).

(** The test [if move.From.Row == -1 { break }] of the game loops. *)
Definition isNoMoveSignal (move : Move) : bool := (Row (From move) =? -1)%Z.

(** [handleGameEnd] of the web front end: the reward of the agent. *)
Definition handleGameEndReward (board : Board) (agentColor : Color) : float :=
  let isDraw := GameOver board && negb (IsCheck board) in
  if isDraw then 0.5
  else if Color_eqb (Winner board) agentColor then 1 else 0.

(** ** The earlier, simplified revision of board.go

    The repository also holds an earlier revision of board.go whose
    [Board] has no [IsCheck] field, whose [canCastle] and [IsValidMove]
    make no attack test, and whose [checkGameOver] calls every position
    without moves a draw.  The movement rules it shares with the later
    revision are the definitions above. *)
Module Simplified.

Definition canCastle (b : Board) (move : Move) (piece : Piece) : bool :=
  if Color_eqb (Piece_Color piece) White && WhiteKingMoved b then false
  else if Color_eqb (Piece_Color piece) Black && BlackKingMoved b then false
  else
    let isKingSide := (Col (To move) >? Col (From move))%Z in
    let rookCol := castleRookCol isKingSide in
    let rookMoved := castleRookMoved b (Piece_Color piece) isKingSide in
    if rookMoved then false
    else
      let rook := cellAt (Cells b) (Row (From move)) rookCol in
      if negb (PieceType_eqb (Piece_Type rook) Rook)
         || negb (Color_eqb (Piece_Color rook) (Piece_Color piece)) then false
      else
        let minCol := min (Col (From move)) rookCol in
        let maxCol := max (Col (From move)) rookCol in
        forallb (fun col => isEmpty (cellAt (Cells b) (Row (From move)) col))
                (colsFromTo (minCol + 1) maxCol).

Definition isValidKingMove (b : Board) (move : Move) (piece : Piece) : bool :=
  let rowDiff := abs (Row (To move) - Row (From move)) in
  let colDiff := abs (Col (To move) - Col (From move)) in
  if ((rowDiff <=? 1) && (colDiff <=? 1))%Z then true
  else if ((rowDiff =? 0) && (colDiff =? 2))%Z then canCastle b move piece
  else false.

Definition IsValidMove (b : Board) (move : Move) : bool :=
  if negb (onBoard (From move)) then false
  else if negb (onBoard (To move)) then false
  else
    let piece := cellAt (Cells b) (Row (From move)) (Col (From move)) in
    if isEmpty piece then false
    else if negb (Color_eqb (Piece_Color piece) (CurrentTurn b)) then false
    else
      let target := cellAt (Cells b) (Row (To move)) (Col (To move)) in
      if negb (isEmpty target)
         && Color_eqb (Piece_Color target) (Piece_Color piece) then false
      else
        match Piece_Type piece with
        | Pawn => isValidPawnMove b move piece
        | Knight => isValidKnightMove move
        | Bishop => isValidBishopMove b move
        | Rook => isValidRookMove b move
        | Queen => isValidQueenMove b move
        | King => isValidKingMove b move piece
        | Empty => false
        end.

Definition GetLegalMoves (b : Board) : list Move :=
  flat_map
    (fun from =>
       let piece := cellAt (Cells b) (Row from) (Col from) in
       if isEmpty piece || negb (Color_eqb (Piece_Color piece) (CurrentTurn b))
       then []
       else List.filter (IsValidMove b) (map (mkMove from) allSquares))
    allSquares.

Definition checkGameOver (b : Board) : Board :=
  let moves := GetLegalMoves b in
  let b1 := if (length moves =? 0)%nat then withResult b true White else b in
  if (MovesCount b1 >? 200)%Z then withResult b1 true White else b1.

Definition MakeMove (b : Board) (move : Move) : Board :=
  checkGameOver (applyMove b move).

End Simplified.

(** ** Positions used in the examples *)

Definition place (pieces : list (Z * Z * Piece)) : Grid :=
  fold_left (fun cells '(row, col, piece) => setCell cells row col piece)
            pieces (Cells zeroBoard).

(** A board with the given pieces and side to move, nothing moved yet. *)
Definition position (pieces : list (Z * Z * Piece)) (turn : Color) : Board :=
  mkBoard (place pieces) turn false White false None
          false false false false false false 0%Z.

Definition move (fromRow fromCol toRow toCol : Z) : Move :=
  mkMove (mkPosition fromRow fromCol) (mkPosition toRow toCol).

(** Black to move: white king a5, white pawn e5, black pawn d7, black
    rook h5, black king h8. *)
Definition pinBoard : Board :=
  position [(3, 0, mkPiece King White); (3, 4, mkPiece Pawn White);
            (1, 3, mkPiece Pawn Black); (3, 7, mkPiece Rook Black);
            (0, 7, mkPiece King Black)]%Z Black.

(** White to move: white king f7, white queen g1, black king h8. *)
Definition stalemateBoard : Board :=
  position [(1, 5, mkPiece King White); (7, 6, mkPiece Queen White);
            (0, 7, mkPiece King Black)]%Z White.

(** White to move: white king g6, white rook a1, black king h8; Ra1-a8
    mates. *)
Definition mateBoard : Board :=
  position [(2, 6, mkPiece King White); (7, 0, mkPiece Rook White);
            (0, 7, mkPiece King Black)]%Z White.

(** White to move: white king e1, white rook h1, black king e8. *)
Definition castleBoard : Board :=
  position [(7, 4, mkPiece King White); (7, 7, mkPiece Rook White);
            (0, 4, mkPiece King Black)]%Z White.

(** As [castleBoard], with a black rook on f8 that attacks f1. *)
Definition castleThroughCheckBoard : Board :=
  position [(7, 4, mkPiece King White); (7, 7, mkPiece Rook White);
            (0, 4, mkPiece King Black); (0, 5, mkPiece Rook Black)]%Z White.

(** Black to move: white king e1, white pawn e5, black pawn d7, black
    king e8, black knight b8. *)
Definition enPassantBoard : Board :=
  position [(7, 4, mkPiece King White); (3, 4, mkPiece Pawn White);
            (1, 3, mkPiece Pawn Black); (0, 4, mkPiece King Black);
            (0, 1, mkPiece Knight Black)]%Z Black.

(** Black to move and checkmated by the rook on a8. *)
Definition matedBoard : Board := MakeMove mateBoard (move 7 0 0 0).

(** A stand-in for [math.Tanh] where a closed example needs one: odd,
    bounded by 1, and equal to [math.Tanh] at 0. *)
Definition sampleTanh (x : float) : float := x / (1 + PrimFloat.abs x).

Definition zeroMatrix (rows cols : nat) : list (list float) :=
  repeat (repeat 0 cols) rows.

(** A network of the shape [NewNetwork] allocates, all parameters 0,
    with the hyperparameters of [NewNetwork]. *)
Definition zeroNetwork : Network :=
  mkNetwork (zeroMatrix 768 256) (repeat 0 256)
            (zeroMatrix 256 128) (repeat 0 128)
            (zeroMatrix 128 1) (repeat 0 1)
            (zeroMatrix 768 256) (repeat 0 256)
            (zeroMatrix 256 128) (repeat 0 128)
            (zeroMatrix 128 1) (repeat 0 1)
            0.001 0.9.

(** The slice lengths [NewNetwork] allocates. *)
Definition hasShape (rows cols : nat) (m : list (list float)) : bool :=
  (length m =? rows)%nat && forallb (fun r => (length r =? cols)%nat) m.

Definition wellShaped (n : Network) : bool :=
  hasShape 768 256 (Weights1 n) && (length (Bias1 n) =? 256)%nat
  && hasShape 256 128 (Weights2 n) && (length (Bias2 n) =? 128)%nat
  && hasShape 128 1 (Weights3 n) && (length (Bias3 n) =? 1)%nat
  && hasShape 768 256 (VWeights1 n) && (length (VBias1 n) =? 256)%nat
  && hasShape 256 128 (VWeights2 n) && (length (VBias2 n) =? 128)%nat
  && hasShape 128 1 (VWeights3 n) && (length (VBias3 n) =? 1)%nat.

(** The momentum update of one parameter, from velocity [v] and weight
    [w] by gradient [grad] to velocity [v'] and weight [w']:
    [velocity = momentum*velocity + learningRate*grad; weight += velocity]. *)
Definition momentumUpdate (n : Network) (v w grad v' w' : float) : Prop :=
  v' = Momentum n * v + LearningRate n * grad /\ w' = w + v'.

(** A network with one active unit in the first hidden layer and two in
    the second, whose output weights cancel: its output sum is 0. *)
Definition cancellingNetwork : Network :=
  mkNetwork (zeroMatrix 768 256) (<[0%nat := 1]> (repeat 0 256))
            (zeroMatrix 256 128)
            (<[0%nat := 1]> (<[1%nat := 1]> (repeat 0 128)))
            (set2 (set2 (zeroMatrix 128 1) 0 0 1) 1 0 (-1)) (repeat 0 1)
            (zeroMatrix 768 256) (repeat 0 256)
            (zeroMatrix 256 128) (repeat 0 128)
            (zeroMatrix 128 1) (repeat 0 1)
            0.001 0.9.

Definition zeroInput : list float := repeat 0 768.

(** ** Vocabulary of the statements below *)

(** One pass of the inner loop over the columns of row [i]. *)
Definition rowPass (n : Network) (grad : nat -> nat -> float) (i cols : nat)
           (st : list (list float) * list (list float))
  : list (list float) * list (list float) :=
  fold_left
    (fun '(vw, w) j =>
       let vw' := set2 vw i j (velocityStep n (at2 vw i j) (grad i j)) in
       (vw', set2 w i j (at2 w i j + at2 vw' i j)%float))
    (seq 0%nat cols) st.

(** What a weight loop leaves: the entries [inside] were stepped once from
    their old values, every other entry and all lengths are as before. *)
Definition steppedWhere (n : Network) (inside : nat -> nat -> bool)
           (grad : nat -> nat -> float)
           (vw w vw' w' : list (list float)) : Prop :=
  (forall i j, at2 vw' i j
               = if inside i j then velocityStep n (at2 vw i j) (grad i j)
                 else at2 vw i j)
  /\ (forall i j, at2 w' i j
                  = if inside i j
                    then (at2 w i j + velocityStep n (at2 vw i j) (grad i j))%float
                    else at2 w i j)
  /\ length vw' = length vw /\ length w' = length w
  /\ (forall i, length (nth i vw' []) = length (nth i vw []))
  /\ (forall i, length (nth i w' []) = length (nth i w [])).

(** Epsilon along the calls of [Learn], from the initial value 0.1. *)
Definition epsilonAfter (calls : nat) : float :=
  Nat.iter calls decayed 0.1%float.


(** * Further code of the repository *)

#[local] Open Scope Z_scope.

(** Two boards agree on everything the rules read: cells, side to move,
    en-passant target and the six has-moved flags. *)
Definition sameRules (b1 b2 : Board) : Prop :=
  Cells b1 = Cells b2 /\ CurrentTurn b1 = CurrentTurn b2
  /\ EnPassantTarget b1 = EnPassantTarget b2
  /\ WhiteKingMoved b1 = WhiteKingMoved b2
  /\ BlackKingMoved b1 = BlackKingMoved b2
  /\ WhiteRookAMoved b1 = WhiteRookAMoved b2
  /\ WhiteRookHMoved b1 = WhiteRookHMoved b2
  /\ BlackRookAMoved b1 = BlackRookAMoved b2
  /\ BlackRookHMoved b1 = BlackRookHMoved b2.

(** Every pair (from, to) of squares in the order [GetLegalMoves] scans. *)
Definition allMoves : list Move :=
  flat_map (fun from => map (mkMove from) allSquares) allSquares.

(** Two layouts that differ at most in which piece of [c] other than its
    king stands on a square occupied by [c] in both. *)
Definition sameButOwnPieces (c : Color) (g1 g2 : Grid) : Prop :=
  forall row col,
    cellAt g1 row col = cellAt g2 row col
    \/ (isEmpty (cellAt g1 row col) = false
        /\ isEmpty (cellAt g2 row col) = false
        /\ Piece_Color (cellAt g1 row col) = c
        /\ Piece_Color (cellAt g2 row col) = c
        /\ Piece_Type (cellAt g1 row col) <> King
        /\ Piece_Type (cellAt g2 row col) <> King).

(** ** package database: the JSON store

    The store is the value of the fields [games], [moves], [nextGameID]
    and [nextMoveID]; the files written by [saveData] and the time stamps,
    which no function of the package reads back, are left out. *)

Module database.

Import Ascii String.
#[local] Open Scope string_scope.
#[local] Open Scope Z_scope.

Record GameRecord : Type := mkGameRecord {
  Game_ID : Z;
  Game_Winner : string;
  Game_MovesCount : Z;
  WhiteEpsilon : float;
  BlackEpsilon : float
}.

Record MoveRecord : Type := mkMoveRecord {
  Move_ID : Z;
  GameID : Z;
  MoveNumber : Z;
  FromRow : Z;
  FromCol : Z;
  ToRow : Z;
  ToCol : Z;
  Evaluation : float;
  Result : string;
  BoardHash : string
}.

Record Database : Type := mkDatabase {
  games : list GameRecord;
  moves : list MoveRecord;
  nextGameID : Z;
  nextMoveID : Z
}.

(** The store [NewDatabase] builds before it calls [loadData]. *)
Definition emptyDatabase : Database := mkDatabase [] [] 1 1.

(** [loadData]: each file, when it can be read, replaces the slice, and
    the next ID is raised above every ID found in it. *)
Definition loadData (d : Database) (gamesFile : option (list GameRecord))
           (movesFile : option (list MoveRecord)) : Database :=
  let d1 :=
    match gamesFile with
    | Some loaded =>
        mkDatabase loaded (moves d)
                   (fold_left (fun next game =>
                                 if Game_ID game >=? next
                                 then wrapInt (Game_ID game + 1) else next)
                              loaded (nextGameID d))
                   (nextMoveID d)
    | None => d
    end in
  match movesFile with
  | Some loaded =>
      mkDatabase (games d1) loaded (nextGameID d1)
                 (fold_left (fun next move =>
                               if Move_ID move >=? next
                               then wrapInt (Move_ID move + 1) else next)
                            loaded (nextMoveID d1))
  | None => d1
  end.

Definition NewDatabase (gamesFile : option (list GameRecord))
           (movesFile : option (list MoveRecord)) : Database :=
  loadData emptyDatabase gamesFile movesFile.

Definition StartGame (d : Database) (whiteEpsilon blackEpsilon : float)
  : Z * Database :=
  let gameID := nextGameID d in
  let game := mkGameRecord gameID EmptyString 0 whiteEpsilon blackEpsilon in
  (gameID,
   mkDatabase (List.app (games d) [game]) (moves d)
              (wrapInt (nextGameID d + 1)) (nextMoveID d)).

(** The loop of [FinishGame] over [d.games]: the first record with the ID
    is updated; [None] when the loop ends without finding one. *)
Fixpoint finishFirst (records : list GameRecord) (gameID : Z) (winner : string)
         (movesCount : Z) : option (list GameRecord) :=
  match records with
  | [] => None
  | game :: rest =>
      if Game_ID game =? gameID
      then Some (mkGameRecord (Game_ID game) winner movesCount
                              (WhiteEpsilon game) (BlackEpsilon game) :: rest)
      else option_map (cons game) (finishFirst rest gameID winner movesCount)
  end.

(** [None] is the error "game with this ID not found". *)
Definition FinishGame (d : Database) (gameID : Z) (winner : string)
           (movesCount : Z) : option Database :=
  match finishFirst (games d) gameID winner movesCount with
  | Some records => Some (mkDatabase records (moves d) (nextGameID d) (nextMoveID d))
  | None => None
  end.

Definition RecordMove (d : Database) (record : MoveRecord) : Database :=
  let record' :=
    mkMoveRecord (nextMoveID d) (GameID record) (MoveNumber record)
                 (FromRow record) (FromCol record) (ToRow record) (ToCol record)
                 (Evaluation record) (Result record) (BoardHash record) in
  mkDatabase (games d) (List.app (moves d) [record'])
             (nextGameID d) (wrapInt (nextMoveID d + 1)).

Definition zeroMoveRecord : MoveRecord :=
  mkMoveRecord 0 0 0 0 0 0 0 0%float EmptyString EmptyString.

(** [if records[j].Evaluation < records[j+1].Evaluation { swap }] *)
Definition swapIfLess (records : list MoveRecord) (j : nat) : list MoveRecord :=
  let a := nth j records zeroMoveRecord in
  let b := nth (j + 1) records zeroMoveRecord in
  if (Evaluation a <? Evaluation b)%float
  then <[(j + 1)%nat := a]> (<[j := b]> records)
  else records.

(** [for j := 0; j < len(records)-i-1; j++] *)
Definition bubblePass (records : list MoveRecord) (i : nat) : list MoveRecord :=
  fold_left swapIfLess (seq 0 (List.length records - i - 1)) records.

(** [for i := 0; i < len(records)-1; i++] *)
Definition bubbleSort (records : list MoveRecord) : list MoveRecord :=
  fold_left bubblePass (seq 0 (List.length records - 1)) records.

(** [None] is the error "limit must be between 1 and 1000". *)
Definition GetSimilarMoves (d : Database) (boardHash : string) (limit : Z)
  : option (list MoveRecord) :=
  if (limit <=? 0) || (limit >? 1000) then None
  else
    let records :=
      List.filter (fun move => String.eqb (BoardHash move) boardHash) (moves d) in
    let records := bubbleSort records in
    Some (if Z.of_nat (List.length records) >? limit
          then firstn (Z.to_nat limit) records
          else records).

Definition UpdateMoveResults (d : Database) (gameID : Z) (result : string)
  : Database :=
  mkDatabase (games d)
             (map (fun move =>
                     if GameID move =? gameID
                     then mkMoveRecord (Move_ID move) (GameID move)
                                       (MoveNumber move) (FromRow move)
                                       (FromCol move) (ToRow move) (ToCol move)
                                       (Evaluation move) result (BoardHash move)
                     else move)
                  (moves d))
             (nextGameID d) (nextMoveID d).

Definition GetTotalGames (d : Database) : Z := Z.of_nat (List.length (games d)).

(** [json.MarshalIndent] of a slice: it fails on a [float64] that is NaN
    or infinite, the only values of these records JSON cannot hold. *)
Definition marshalGames (d : Database) : bool :=
  forallb (fun game => is_finite (WhiteEpsilon game)
                       && is_finite (BlackEpsilon game))
          (games d).

Definition marshalMoves (d : Database) : bool :=
  forallb (fun move => is_finite (Evaluation move)) (moves d).

(** [saveData]: [true] stands for the nil error.  Both slices are encoded
    and written, games first; [written] says whether the calls of
    [os.WriteFile] of this call succeed.  [StartGame], [RecordMove] and
    [FinishGame] return the error of [saveData] on the store they leave. *)
Definition saveData (d : Database) (written : bool) : bool :=
  marshalGames d && written && marshalMoves d && written.

(** A rune is an [int32]; the runes below are ASCII letters and the dot. *)
Definition rune (c : ascii) : Z := Z.of_N (N_of_ascii c).

Definition pieceToChar (piece : Piece) : Z :=
  let char :=
    match Piece_Type piece with
    | Pawn => rune "p"
    | Knight => rune "n"
    | Bishop => rune "b"
    | Rook => rune "r"
    | Queen => rune "q"
    | King => rune "k"
    | Empty => rune "."
    end in
  if Color_eqb (Piece_Color piece) White then char - 32 else char.

(** [string(symbol)] for a rune below 128: the string of one byte. *)
Definition runeString (symbol : Z) : string :=
  String (ascii_of_N (Z.to_N symbol)) EmptyString.

Definition GenerateBoardHash (board : Board) : string :=
  fold_left
    (fun hash row =>
       fold_left
         (fun hash col =>
            let piece := cellAt (Cells board) row col in
            if PieceType_eqb (Piece_Type piece) Empty
            then append hash "."
            else append hash (runeString (pieceToChar piece)))
         indices8 hash)
    indices8 EmptyString.

(** The character the body of the loops of [GenerateBoardHash] appends
    for one square. *)
Definition squareChar (piece : Piece) : ascii :=
  if PieceType_eqb (Piece_Type piece) Empty then "."%char
  else ascii_of_N (Z.to_N (pieceToChar piece)).

End database.

(** ** package selfplay: [PlayGame] *)

Module selfplay.

Import Ascii String.
#[local] Open Scope string_scope.
#[local] Open Scope Z_scope.

(** An element of the slice [moves] of [PlayGame]. *)
Record MoveInfo : Type := mkMoveInfo {
  info_move : Move;
  info_evaluation : float;
  info_boardHash : string
}.

(** The variables of the game loop.  Both agents point to one network,
    which the loop only reads. *)
Record GameLoop : Type := mkGameLoop {
  loop_board : Board;
  loop_white : Agent;
  loop_black : Agent;
  loop_moves : list MoveInfo;
  moveNumber : Z
}.

Section Game.

Variable mathTanh : float -> float.

(** The values [rand.Float64()] and [rand.Intn] give to the [ChooseMove]
    call of the move with the given number. *)
Variable draws : Z -> float * nat.

(** [for !board.GameOver && moveNumber < 200 { ... }]; [None] when [fuel]
    iterations did not reach the end of the loop. *)
Fixpoint gameLoop (fuel : nat) (net : Network) (st : GameLoop)
  : option GameLoop :=
  match fuel with
  | O => None
  | S fuel' =>
      let board := loop_board st in
      if negb (negb (GameOver board) && (moveNumber st <? 200)) then Some st
      else
        let whiteToMove := Color_eqb (CurrentTurn board) White in
        let currentAgent :=
          RecordState (if whiteToMove then loop_white st else loop_black st)
                      board in
        let white := if whiteToMove then currentAgent else loop_white st in
        let black := if whiteToMove then loop_black st else currentAgent in
        let boardHash := database.GenerateBoardHash board in
        let move :=
          ChooseMove mathTanh net currentAgent board
                     (fst (draws (moveNumber st))) (snd (draws (moveNumber st))) in
        if Row (From move) =? -1
        then Some (mkGameLoop board white black (loop_moves st) (moveNumber st))
        else
          let evaluation :=
            Forward mathTanh net
                    (nth (List.length (StateHistory currentAgent) - 1)
                         (StateHistory currentAgent) []) in
          gameLoop fuel' net
                   (mkGameLoop (MakeMove board move) white black
                               (List.app (loop_moves st)
                                         [mkMoveInfo move evaluation boardHash])
                               (moveNumber st + 1))
  end.

Definition winnerName (tag : WinnerTag) : string :=
  match tag with
  | TagWhite => "white"
  | TagBlack => "black"
  | TagDraw => "draw"
  end.

(** The result written for the move with index [i] of the slice. *)
Definition moveResult (i : nat) (winner : string) : string :=
  if (i mod 2 =? 0)%nat then
    if String.eqb winner "white" then "win"
    else if String.eqb winner "black" then "loss"
    else "draw"
  else
    if String.eqb winner "black" then "win"
    else if String.eqb winner "white" then "loss"
    else "draw".

(** Whether the file writes of the [k]-th call of [saveData] made by
    [PlayGame] succeed: call 0 is that of [StartGame], call [i+1] that of
    [RecordMove] for the move with index [i], the last that of
    [FinishGame]. *)
Variable writes : nat -> bool.

(** [for i, moveInfo := range moves { err := m.db.RecordMove(...); if err != nil { return } }]
    from index [i] on: the store left, and whether every call returned
    nil. *)
Fixpoint recordMovesFrom (i : nat) (db : database.Database) (gameID : Z)
         (winner : string) (moves : list MoveInfo) : database.Database * bool :=
  match moves with
  | [] => (db, true)
  | moveInfo :: rest =>
      let db' :=
        database.RecordMove
          db
          (database.mkMoveRecord
             0 gameID (Z.of_nat i + 1)
             (Row (From (info_move moveInfo))) (Col (From (info_move moveInfo)))
             (Row (To (info_move moveInfo))) (Col (To (info_move moveInfo)))
             (info_evaluation moveInfo) (moveResult i winner)
             (info_boardHash moveInfo)) in
      if database.saveData db' (writes (S i))
      then recordMovesFrom (S i) db' gameID winner rest
      else (db', false)
  end.

Definition recordMoves (db : database.Database) (gameID : Z) (winner : string)
           (moves : list MoveInfo) : database.Database * bool :=
  recordMovesFrom 0 db gameID winner moves.

(** The call whose error [PlayGame] returns. *)
Inductive PlayError : Set := StartGameFailed | RecordMoveFailed | FinishGameFailed.

(** The result of [PlayGame] with the manager and the store it leaves:
    nil, an error, or a game loop that ran out of fuel. *)
Inductive PlayResult : Type :=
| Played (m : SelfPlayManager) (db : database.Database)
| Failed (e : PlayError) (m : SelfPlayManager) (db : database.Database)
| LoopUnfinished.

(** [PlayGame] of the revision that trains by [trainSharedNetwork]. *)
Definition PlayGame (m : SelfPlayManager) (db : database.Database)
  : PlayResult :=
  let board := NewBoard in
  let count := wrapInt (gamesCount m + 1) in
  let started :=
    database.StartGame db (Epsilon (whiteAgent m)) (Epsilon (blackAgent m)) in
  let gameID := fst started in
  if negb (database.saveData (snd started) (writes 0))
  then Failed StartGameFailed
              (mkSelfPlayManager (whiteAgent m) (blackAgent m)
                                 (sharedNetwork m) count)
              (snd started)
  else
    match gameLoop 201 (sharedNetwork m)
                   (mkGameLoop board (whiteAgent m) (blackAgent m) [] 0) with
    | None => LoopUnfinished
    | Some st =>
        let played :=
          mkSelfPlayManager (loop_white st) (loop_black st)
                            (sharedNetwork m) count in
        let outcome := selfPlayOutcome (loop_board st) in
        let winner := winnerName (fst (fst outcome)) in
        let whiteReward := snd (fst outcome) in
        let blackReward := snd outcome in
        let recorded :=
          recordMoves (snd started) gameID winner (loop_moves st) in
        if negb (snd recorded)
        then Failed RecordMoveFailed played (fst recorded)
        else
          match database.FinishGame (fst recorded) gameID winner
                                    (moveNumber st) with
          | None => Failed FinishGameFailed played (fst recorded)
          | Some db3 =>
              if negb (database.saveData
                         db3 (writes (S (List.length (loop_moves st)))))
              then Failed FinishGameFailed played db3
              else
                let trained :=
                  trainSharedNetwork mathTanh played whiteReward blackReward in
                Played (mkSelfPlayManager
                          (withStateHistory (whiteAgent trained) [])
                          (withStateHistory (blackAgent trained) [])
                          (sharedNetwork trained) (gamesCount trained))
                       db3
          end
    end.

End Game.

End selfplay.

(** The moves of a list, played one after the other from [b]: are they
    all legal where they are played, and where do they lead? *)
Fixpoint allLegal (b : Board) (moves : list Move) : bool :=
  match moves with
  | [] => true
  | m :: rest => IsValidMove b m && allLegal (MakeMove b m) rest
  end.

Definition playedFrom (b : Board) (moves : list Move) : Board :=
  fold_left MakeMove moves b.

(** What holds of the variables of the game loop of [PlayGame] whenever
    its condition is tested, for a game started on [start]. *)
Definition loopInvariant (start : Board) (st : selfplay.GameLoop) : Prop :=
  let played := map selfplay.info_move (selfplay.loop_moves st) in
  (GameOver (selfplay.loop_board st) = false ->
   GetLegalMoves (selfplay.loop_board st) <> [])
  /\ allLegal start played = true
  /\ selfplay.loop_board st = playedFrom start played
  /\ selfplay.moveNumber st = Z.of_nat (length played)
  /\ selfplay.moveNumber st <= 200.

(** Every game of the store has an ID below the next one to hand out. *)
Definition gameIDsBelowNext (d : database.Database) : Prop :=
  1 <= database.nextGameID d
  /\ Forall (fun g => database.Game_ID g < database.nextGameID d)
            (database.games d).

(** Two layouts with, on every square of the board, the same piece or no
    piece at all. *)
Definition samePieces (b1 b2 : Board) : Prop :=
  forall p, In p allSquares ->
    cellAt (Cells b1) (Row p) (Col p) = cellAt (Cells b2) (Row p) (Col p)
    \/ (isEmpty (cellAt (Cells b1) (Row p) (Col p)) = true
        /\ isEmpty (cellAt (Cells b2) (Row p) (Col p)) = true).

(** The positions in which the moves of a list are played from [start],
    and the input vectors of those with [c] to move. *)
Definition positionsBefore (start : Board) (moves : list Move) : list Board :=
  map (fun i => playedFrom start (firstn i moves)) (seq 0 (length moves)).

Definition statesOf (c : Color) (boards : list Board) : list (list float) :=
  map boardToVector
      (List.filter (fun b => Color_eqb (CurrentTurn b) c) boards).

(** What the game loop has recorded: each agent's history has grown by the
    vectors of the positions in which its colour was to move, in order,
    and every element of [moves] holds the evaluation and the hash of the
    position its move was played in. *)
Definition recordInvariant (mathTanh : float -> float) (net : Network)
           (start : Board) (white0 black0 : Agent) (st : selfplay.GameLoop)
  : Prop :=
  let played := map selfplay.info_move (selfplay.loop_moves st) in
  StateHistory (selfplay.loop_white st)
  = StateHistory white0 ++ statesOf White (positionsBefore start played)
  /\ StateHistory (selfplay.loop_black st)
     = StateHistory black0 ++ statesOf Black (positionsBefore start played)
  /\ Forall2 (fun b info =>
                selfplay.info_evaluation info = evaluatePosition mathTanh net b
                /\ selfplay.info_boardHash info = database.GenerateBoardHash b)
             (positionsBefore start played) (selfplay.loop_moves st).

(** ** Further positions and games used in the examples *)

(** A game from the initial position in which Black's bishop takes the
    rook on h1 and White's rook from a1 takes its place, by a3, g3 and g1:
    1. g4 b6 2. Bg2 Bb7 3. Nh3 Bxg2 4. a4 Bxh1 5. Ra3 Nc6 6. Rg3 Nb8
    7. Rg1 Nc6 8. Rxh1 Nb8. *)
Definition rookSwapGame : list Move :=
  [move 6 6 4 6; move 1 1 2 1; move 7 5 6 6; move 0 2 1 1;
   move 7 6 5 7; move 1 1 6 6; move 6 0 4 0; move 6 6 7 7;
   move 7 0 5 0; move 0 1 2 2; move 5 0 5 6; move 2 2 0 1;
   move 5 6 7 6; move 0 1 2 2; move 7 6 7 7; move 2 2 0 1]%Z.

(** Black to move: white king e4, white pawn e5, black pawn d7, black
    king h8; d7-d5 gives check. *)
Definition pawnCheckBoard : Board :=
  position [(4, 4, mkPiece King White); (3, 4, mkPiece Pawn White);
            (1, 3, mkPiece Pawn Black); (0, 7, mkPiece King Black)]%Z Black.

(** The store and the evaluations of a game for which every call of
    [saveData] made by [PlayGame] can encode its data. *)
Definition encodable (m : SelfPlayManager) (db : database.Database)
           (final : selfplay.GameLoop) : Prop :=
  database.marshalGames db = true /\ database.marshalMoves db = true
  /\ is_finite (Epsilon (whiteAgent m)) = true
  /\ is_finite (Epsilon (blackAgent m)) = true
  /\ Forall (fun info => is_finite (selfplay.info_evaluation info) = true)
            (selfplay.loop_moves final).

(** * Properties *)

#[local] Open Scope Z_scope.

(** ** Arrays and cells *)

Lemma get8_set8_same {A} (d : A) (a : Arr8 A) (i : Z) (v : A) :
  0 <= i <= 7 -> get8 d (set8 a i v) i = v.
Proof.
  intros Hi. destruct a.
  assert (i = 0 \/ i = 1 \/ i = 2 \/ i = 3 \/ i = 4 \/ i = 5 \/ i = 6 \/ i = 7)
    as Hc by lia.
  repeat (destruct Hc as [-> | Hc]; [reflexivity |]). subst. reflexivity.
Qed.

Lemma get8_set8_other {A} (d : A) (a : Arr8 A) (i j : Z) (v : A) :
  i <> j -> get8 d (set8 a i v) j = get8 d a j.
Proof.
  intros Hne. destruct a.
  destruct (Z_lt_ge_dec i 0); [destruct i; try lia; reflexivity |].
  destruct (Z_lt_ge_dec 7 i).
  { destruct i as [| p | p]; try lia.
    do 4 (destruct p as [p | p |]; try lia; try reflexivity). }
  assert (i = 0 \/ i = 1 \/ i = 2 \/ i = 3 \/ i = 4 \/ i = 5 \/ i = 6 \/ i = 7)
    as Hc by lia.
  assert (Hj : j < 0 \/ j > 7 \/
               j = 0 \/ j = 1 \/ j = 2 \/ j = 3 \/ j = 4 \/ j = 5 \/ j = 6 \/ j = 7)
    by lia.
  destruct Hj as [Hj | [Hj | Hj]].
  - destruct j; try lia.
    repeat (destruct Hc as [-> | Hc]; [reflexivity |]). subst. reflexivity.
  - destruct j as [| p | p]; try lia.
    do 4 (destruct p as [p | p |]; try lia;
          try (repeat (destruct Hc as [-> | Hc]; [reflexivity |]);
               subst; reflexivity)).
  - repeat (destruct Hc as [-> | Hc];
            [repeat (destruct Hj as [-> | Hj]; [first [lia | reflexivity] |]);
             subst; first [lia | reflexivity] |]).
    subst.
    repeat (destruct Hj as [-> | Hj]; [first [lia | reflexivity] |]).
    subst; first [lia | reflexivity].
Qed.

Lemma get8_outside {A} (d : A) (a : Arr8 A) (i : Z) :
  ~ 0 <= i <= 7 -> get8 d a i = d.
Proof.
  intros Hi. destruct i as [| p | p]; try lia; try reflexivity.
  do 4 (destruct p as [p | p |]; try lia; try reflexivity).
Qed.

Lemma set8_outside {A} (a : Arr8 A) (i : Z) (v : A) :
  ~ 0 <= i <= 7 -> set8 a i v = a.
Proof.
  intros Hi. destruct a. destruct i as [| p | p]; try lia; try reflexivity.
  do 4 (destruct p as [p | p |]; try lia; try reflexivity).
Qed.

Lemma onBoard_spec (p : Position) :
  onBoard p = true <-> 0 <= Row p <= 7 /\ 0 <= Col p <= 7.
Proof. unfold onBoard. rewrite !andb_true_iff, !Z.leb_le. lia. Qed.

Lemma cellAt_setCell_same (cells : Grid) (r c : Z) (v : Piece) :
  0 <= r <= 7 -> 0 <= c <= 7 -> cellAt (setCell cells r c v) r c = v.
Proof.
  intros Hr Hc. unfold cellAt, setCell.
  rewrite get8_set8_same by assumption. apply get8_set8_same; assumption.
Qed.

Lemma cellAt_setCell_other (cells : Grid) (r c r' c' : Z) (v : Piece) :
  r <> r' \/ c <> c' ->
  cellAt (setCell cells r c v) r' c' = cellAt cells r' c'.
Proof.
  intros Hne. unfold cellAt, setCell.
  destruct (Z.eq_dec r r') as [<- | Hr].
  - destruct (Z_le_dec 0 r); [destruct (Z_le_dec r 7) |].
    + rewrite get8_set8_same by lia. apply get8_set8_other. lia.
    + rewrite set8_outside by lia. reflexivity.
    + rewrite set8_outside by lia. reflexivity.
  - rewrite get8_set8_other by assumption. reflexivity.
Qed.

Lemma cellAt_outside (cells : Grid) (r c : Z) :
  ~ (0 <= r <= 7 /\ 0 <= c <= 7) -> cellAt cells r c = emptyCell.
Proof.
  intros H. unfold cellAt.
  destruct (Z_le_dec 0 r); [destruct (Z_le_dec r 7) |].
  - apply get8_outside. lia.
  - rewrite (get8_outside emptyRow) by lia.
    destruct c as [| p | p]; try reflexivity;
      do 4 (destruct p as [p | p |]; try reflexivity).
  - rewrite (get8_outside emptyRow) by lia.
    destruct c as [| p | p]; try reflexivity;
      do 4 (destruct p as [p | p |]; try reflexivity).
Qed.

Lemma occupied_onBoard (cells : Grid) (r c : Z) :
  isEmpty (cellAt cells r c) = false -> 0 <= r <= 7 /\ 0 <= c <= 7.
Proof.
  intros H.
  destruct (Z_le_dec 0 r); [destruct (Z_le_dec r 7);
    [destruct (Z_le_dec 0 c); [destruct (Z_le_dec c 7) |] |] |];
    try lia; rewrite cellAt_outside in H by lia; discriminate.
Qed.

Lemma allSquares_spec (p : Position) :
  In p allSquares <-> onBoard p = true.
Proof.
  rewrite onBoard_spec. destruct p as [r c]. simpl. split.
  - intros H. repeat (destruct H as [H | H]; [inversion H; lia |]). destruct H.
  - intros [Hr Hc].
    assert (r = 0 \/ r = 1 \/ r = 2 \/ r = 3 \/ r = 4 \/ r = 5 \/ r = 6 \/ r = 7)
      as Hr' by lia.
    assert (c = 0 \/ c = 1 \/ c = 2 \/ c = 3 \/ c = 4 \/ c = 5 \/ c = 6 \/ c = 7)
      as Hc' by lia.
    repeat (destruct Hr' as [-> | Hr']); subst;
      repeat (destruct Hc' as [-> | Hc']); subst;
      repeat (first [left; reflexivity | right]).
Qed.

(** ** Loop ranges *)

Lemma abs_spec (x : Z) : abs x = Z.abs x.
Proof. unfold abs. destruct (Z.ltb_spec x 0); lia. Qed.

Lemma min_spec (a b : Z) : min a b = Z.min a b.
Proof. unfold min. destruct (Z.ltb_spec a b); lia. Qed.

Lemma max_spec (a b : Z) : max a b = Z.max a b.
Proof. unfold max. rewrite Z.gtb_ltb. destruct (Z.ltb_spec b a); lia. Qed.

Lemma In_colsFromTo (lo hi col : Z) :
  In col (colsFromTo lo hi) <-> lo <= col < hi.
Proof.
  unfold colsFromTo. rewrite in_map_iff. split.
  - intros [k [<- Hk]]. apply in_seq in Hk. lia.
  - intros H. exists (Z.to_nat (col - lo)). split; [lia |].
    apply in_seq. lia.
Qed.

Lemma In_transitCols (fromCol toCol col : Z) :
  fromCol <> col ->
  Z.min fromCol toCol <= col <= Z.max fromCol toCol ->
  In col (transitCols fromCol toCol (if toCol <? fromCol then -1 else 1)).
Proof.
  intros Hne H. unfold transitCols. rewrite abs_spec. apply in_map_iff.
  destruct (Z.ltb_spec toCol fromCol).
  - exists (Z.to_nat (fromCol - col - 1)). split; [lia |]. apply in_seq. lia.
  - exists (Z.to_nat (col - fromCol - 1)). split; [lia |]. apply in_seq. lia.
Qed.

(** The walk of [isPathClear] between two squares of the board that share
    a row, a column or a diagonal ends within the eight iterations the
    model allows: the loop leaves through its condition or through the
    [return false] of an occupied square, never by running on. *)
Lemma pathLoop_ends (cells : Grid) (rowStep colStep toRow toCol : Z)
      (fuel : nat) :
  forall (k row col : Z),
    0 <= k < Z.of_nat fuel ->
    toRow = row + k * rowStep -> toCol = col + k * colStep ->
    rowStep <> 0 \/ colStep <> 0 \/ k = 0 ->
    pathLoop fuel cells rowStep colStep toRow toCol row col <> None.
Proof.
  induction fuel as [| fuel IH]; intros k row col Hk Hr Hc Hstep; [lia |].
  cbn [pathLoop].
  destruct (Z.eqb_spec row toRow) as [Er | Er];
    destruct (Z.eqb_spec col toCol) as [Ec | Ec]; cbn [negb orb];
    try discriminate;
    (destruct (negb (isEmpty (cellAt cells row col))); [discriminate |];
     assert (Hk0 : k <> 0) by (intros ->; lia);
     apply (IH (k - 1));
     [ lia | rewrite Hr; ring | rewrite Hc; ring
     | destruct Hstep as [H | [H | H]]; [left | right; left | ]; tauto ]).
Qed.

Lemma isPathClear_ends (b : Board) (m : Move) :
  onBoard (From m) = true -> onBoard (To m) = true ->
  Row (From m) = Row (To m) \/ Col (From m) = Col (To m)
  \/ Z.abs (Row (To m) - Row (From m)) = Z.abs (Col (To m) - Col (From m)) ->
  let rowStep :=
    if Row (To m) >? Row (From m) then 1
    else if Row (To m) <? Row (From m) then -1 else 0 in
  let colStep :=
    if Col (To m) >? Col (From m) then 1
    else if Col (To m) <? Col (From m) then -1 else 0 in
  pathLoop 8 (Cells b) rowStep colStep (Row (To m)) (Col (To m))
           (Row (From m) + rowStep) (Col (From m) + colStep) <> None.
Proof.
  intros Hf Ht Hline rowStep colStep.
  apply onBoard_spec in Hf, Ht.
  apply (pathLoop_ends _ _ _ _ _ 8
           (Z.max (Z.abs (Row (To m) - Row (From m)))
                  (Z.abs (Col (To m) - Col (From m))) - 1
            + (if (Row (To m) =? Row (From m)) && (Col (To m) =? Col (From m))
               then 1 else 0)));
    subst rowStep colStep; rewrite ?Z.gtb_ltb;
    destruct (Z.eqb_spec (Row (To m)) (Row (From m)));
    destruct (Z.eqb_spec (Col (To m)) (Col (From m))); cbn [andb];
    destruct (Z.ltb_spec (Row (From m)) (Row (To m)));
    destruct (Z.ltb_spec (Row (To m)) (Row (From m)));
    destruct (Z.ltb_spec (Col (From m)) (Col (To m)));
    destruct (Z.ltb_spec (Col (To m)) (Col (From m))); lia.
Qed.

(** ** Castling *)

Lemma canCastle_requirements (b : Board) (m : Move) (piece : Piece) :
  canCastle b m piece = true ->
  kingMoved b (Piece_Color piece) = false
  /\ castleRookMoved b (Piece_Color piece) (Col (To m) >? Col (From m)) = false
  /\ (forall col,
         Z.min (Col (From m)) (castleRookCol (Col (To m) >? Col (From m))) < col
         < Z.max (Col (From m)) (castleRookCol (Col (To m) >? Col (From m))) ->
         isEmpty (cellAt (Cells b) (Row (From m)) col) = true)
  /\ isSquareUnderAttack b (From m) (opponent (Piece_Color piece)) = false
  /\ (forall col,
         Z.min (Col (From m)) (Col (To m)) <= col
         <= Z.max (Col (From m)) (Col (To m)) ->
         isSquareUnderAttack b (mkPosition (Row (From m)) col)
                             (opponent (Piece_Color piece)) = false).
Proof.
  unfold canCastle. intros H.
  assert (Hopp : (if Color_eqb (Piece_Color piece) Black then White else Black)
                 = opponent (Piece_Color piece))
    by (destruct (Piece_Color piece); reflexivity).
  rewrite Hopp in H. clear Hopp.
  destruct (Color_eqb (Piece_Color piece) White && WhiteKingMoved b) eqn:Hwk;
    [discriminate |].
  destruct (Color_eqb (Piece_Color piece) Black && BlackKingMoved b) eqn:Hbk;
    [discriminate |].
  destruct (castleRookMoved b (Piece_Color piece) (Col (To m) >? Col (From m)))
    eqn:Hrm; [discriminate |].
  destruct (negb _ || negb _) eqn:Hrook in H; [discriminate |].
  destruct (negb (forallb _ _)) eqn:Hpath in H; [discriminate |].
  destruct (isSquareUnderAttack b (From m) (opponent (Piece_Color piece)))
    eqn:Hstart; [discriminate |].
  apply negb_false_iff in Hpath.
  rewrite forallb_forall in Hpath, H.
  repeat split.
  - unfold kingMoved. destruct (Piece_Color piece); simpl in Hwk, Hbk; assumption.
  - intros col Hcol. apply Hpath. apply In_colsFromTo.
    rewrite min_spec, max_spec. lia.
  - intros col Hcol.
    destruct (Z.eq_dec (Col (From m)) col) as [<- | Hne].
    + destruct (From m); exact Hstart.
    + apply negb_true_iff. apply H. apply In_transitCols; assumption.
Qed.

Lemma IsValidMove_inv (b : Board) (m : Move) :
  IsValidMove b m = true ->
  onBoard (From m) = true /\ onBoard (To m) = true
  /\ isEmpty (cellAt (Cells b) (Row (From m)) (Col (From m))) = false
  /\ Piece_Color (cellAt (Cells b) (Row (From m)) (Col (From m))) = CurrentTurn b
  /\ (isEmpty (cellAt (Cells b) (Row (To m)) (Col (To m))) = true
      \/ Piece_Color (cellAt (Cells b) (Row (To m)) (Col (To m)))
         <> Piece_Color (cellAt (Cells b) (Row (From m)) (Col (From m))))
  /\ pieceRule b m (cellAt (Cells b) (Row (From m)) (Col (From m))) = true
  /\ wouldBeInCheck b m
       (Piece_Color (cellAt (Cells b) (Row (From m)) (Col (From m)))) = false.
Proof.
  unfold IsValidMove. intros H.
  destruct (onBoard (From m)); [| discriminate].
  destruct (onBoard (To m)); [| discriminate]. simpl in H.
  destruct (isEmpty (cellAt (Cells b) (Row (From m)) (Col (From m))));
    [discriminate |].
  destruct (Color_eqb _ (CurrentTurn b)) eqn:Hturn; [| discriminate].
  simpl in H.
  destruct (negb _ && Color_eqb _ _) eqn:Htarget in H; [discriminate |].
  destruct (pieceRule b m _) eqn:Hrule; [| discriminate]. simpl in H.
  apply negb_true_iff in H.
  repeat split; try reflexivity; try assumption.
  - destruct (Piece_Color _), (CurrentTurn b); try reflexivity; discriminate.
  - apply andb_false_iff in Htarget. destruct Htarget as [Ht | Ht].
    + left. apply negb_false_iff. exact Ht.
    + right. intros Heq. rewrite Heq in Ht.
      destruct (Piece_Color _); discriminate.
Qed.

(** What [IsValidMove] does test of a two-square horizontal king move:
    the king's has-moved flag and the has-moved flag of the corner on the
    side the king moves to are both unset, every square strictly between
    the king and that corner is empty, the king's start square is not
    attacked by the opponent, and neither are the square the king crosses
    and its destination. *)
Theorem castling_only_when_permitted (b : Board) (m : Move) :
  IsValidMove b m = true ->
  Piece_Type (cellAt (Cells b) (Row (From m)) (Col (From m))) = King ->
  Row (To m) = Row (From m) ->
  Z.abs (Col (To m) - Col (From m)) = 2 ->
  let king := cellAt (Cells b) (Row (From m)) (Col (From m)) in
  let kingSide := Col (To m) >? Col (From m) in
  kingMoved b (Piece_Color king) = false
  /\ castleRookMoved b (Piece_Color king) kingSide = false
  /\ (forall col,
         Z.min (Col (From m)) (castleRookCol kingSide) < col
         < Z.max (Col (From m)) (castleRookCol kingSide) ->
         isEmpty (cellAt (Cells b) (Row (From m)) col) = true)
  /\ isSquareUnderAttack b (From m) (opponent (Piece_Color king)) = false
  /\ (forall col,
         Z.min (Col (From m)) (Col (To m)) <= col
         <= Z.max (Col (From m)) (Col (To m)) ->
         isSquareUnderAttack b (mkPosition (Row (From m)) col)
                             (opponent (Piece_Color king)) = false).
Proof.
  intros Hvalid Hking Hrow Hcol king kingSide.
  apply IsValidMove_inv in Hvalid.
  destruct Hvalid as (_ & _ & _ & _ & _ & Hrule & _).
  unfold pieceRule in Hrule. rewrite Hking in Hrule.
  unfold isValidKingMove in Hrule. rewrite !abs_spec, Hcol, Hrow in Hrule.
  replace (Row (From m) - Row (From m)) with 0 in Hrule by lia.
  simpl in Hrule. apply canCastle_requirements. exact Hrule.
Qed.

Lemma castling_only_when_permitted_witness :
  IsValidMove castleBoard (move 7 4 7 6) = true
  /\ kingMoved castleBoard White = false
  /\ isSquareUnderAttack castleBoard (mkPosition 7 5) Black = false.
Proof.
  assert (Hv : IsValidMove castleBoard (move 7 4 7 6) = true)
    by (vm_compute; reflexivity).
  destruct (castling_only_when_permitted castleBoard (move 7 4 7 6) Hv
              eq_refl eq_refl eq_refl) as (Hk & _ & _ & _ & Ht).
  split; [exact Hv |]. split; [exact Hk |].
  apply (Ht 5). vm_compute. split; discriminate.
Defined.

(** C3 at its failing input.  In the game [rookSwapGame] from the initial
    position every move is legal; Black's bishop takes the rook on h1,
    which leaves White's only rook on a1, and that rook takes its place,
    going by a3, g3 and g1, so it has moved four times.  [MakeMove] sets a rook's flag by the column the
    rook leaves, and this rook never leaves column h: [WhiteRookHMoved] is
    still unset and [IsValidMove] accepts castling king-side with the rook
    that has moved, which [MakeMove] then puts on f1. *)
Theorem castling_accepted_with_moved_rook :
  let afterCapture := playedFrom NewBoard (firstn 8 rookSwapGame) in
  let b := playedFrom NewBoard rookSwapGame in
  allLegal NewBoard rookSwapGame = true
  /\ cellAt (Cells NewBoard) 7 0 = mkPiece Rook White
  /\ cellAt (Cells NewBoard) 7 7 = mkPiece Rook White
  /\ cellAt (Cells afterCapture) 7 0 = mkPiece Rook White
  /\ cellAt (Cells afterCapture) 7 7 = mkPiece Bishop Black
  /\ List.filter
       (fun p => PieceType_eqb
                   (Piece_Type (cellAt (Cells afterCapture) (Row p) (Col p)))
                   Rook
                 && Color_eqb
                      (Piece_Color (cellAt (Cells afterCapture) (Row p) (Col p)))
                      White)
       allSquares
     = [mkPosition 7 0]
  /\ cellAt (Cells b) 7 0 = emptyCell
  /\ cellAt (Cells b) 7 7 = mkPiece Rook White
  /\ WhiteRookAMoved b = true
  /\ WhiteRookHMoved b = false
  /\ kingMoved b White = false
  /\ CurrentTurn b = White
  /\ IsValidMove b (move 7 4 7 6) = true
  /\ cellAt (Cells (MakeMove b (move 7 4 7 6))) 7 6 = mkPiece King White
  /\ cellAt (Cells (MakeMove b (move 7 4 7 6))) 7 5 = mkPiece Rook White.
Proof. vm_compute. repeat split. Qed.

(** The earlier revision accepts castling across an attacked square, which
    the later revision rejects. *)
Lemma simplified_castles_through_check :
  Simplified.IsValidMove castleThroughCheckBoard (move 7 4 7 6) = true
  /\ isSquareUnderAttack castleThroughCheckBoard (mkPosition 7 5) Black = true
  /\ IsValidMove castleThroughCheckBoard (move 7 4 7 6) = false.
Proof. vm_compute. repeat split. Qed.

(** ** What [MakeMove] leaves of [applyMove] *)

Lemma checkGameOver_frame (b : Board) :
  Cells (checkGameOver b) = Cells b
  /\ CurrentTurn (checkGameOver b) = CurrentTurn b
  /\ EnPassantTarget (checkGameOver b) = EnPassantTarget b
  /\ MovesCount (checkGameOver b) = MovesCount b
  /\ IsCheck (checkGameOver b) = IsCheck b.
Proof.
  unfold checkGameOver.
  destruct (length (GetLegalMoves b) =? 0)%nat;
    [destruct (isInCheck b (CurrentTurn b)) |];
    match goal with |- context [if ?c then _ else _] => destruct c end;
    repeat split.
Qed.

Lemma MakeMove_Cells (b : Board) (m : Move) :
  Cells (MakeMove b m) = movedCells b m.
Proof. unfold MakeMove. rewrite (proj1 (checkGameOver_frame _)). reflexivity. Qed.

Lemma MakeMove_CurrentTurn (b : Board) (m : Move) :
  CurrentTurn (MakeMove b m) = opponent (CurrentTurn b).
Proof.
  unfold MakeMove.
  rewrite (proj1 (proj2 (checkGameOver_frame _))). simpl.
  destruct (CurrentTurn b); reflexivity.
Qed.

Lemma MakeMove_EnPassantTarget (b : Board) (m : Move) :
  EnPassantTarget (MakeMove b m) = nextEnPassantTarget b m.
Proof.
  unfold MakeMove.
  rewrite (proj1 (proj2 (proj2 (checkGameOver_frame _)))). reflexivity.
Qed.

Lemma MakeMove_MovesCount (b : Board) (m : Move) :
  MovesCount (MakeMove b m) = wrapInt (MovesCount b + 1).
Proof.
  unfold MakeMove.
  rewrite (proj1 (proj2 (proj2 (proj2 (checkGameOver_frame _))))). reflexivity.
Qed.

(** ** En passant *)

Lemma PieceType_eqb_eq (s t : PieceType) : PieceType_eqb s t = true <-> s = t.
Proof. destruct s, t; simpl; split; intros H; congruence. Qed.

Lemma Color_eqb_eq (c d : Color) : Color_eqb c d = true <-> c = d.
Proof. destruct c, d; simpl; split; intros H; congruence. Qed.

Lemma nextEnPassantTarget_spec (b : Board) (m : Move) :
  (Piece_Type (cellAt (Cells b) (Row (From m)) (Col (From m))) = Pawn
   /\ Z.abs (Row (To m) - Row (From m)) = 2
   /\ nextEnPassantTarget b m
      = Some (mkPosition (Z.quot (Row (From m) + Row (To m)) 2) (Col (To m))))
  \/ ((Piece_Type (cellAt (Cells b) (Row (From m)) (Col (From m))) <> Pawn
       \/ Z.abs (Row (To m) - Row (From m)) <> 2)
      /\ nextEnPassantTarget b m = None).
Proof.
  unfold nextEnPassantTarget. rewrite abs_spec.
  destruct (PieceType_eqb _ Pawn) eqn:Hp; simpl.
  - apply PieceType_eqb_eq in Hp.
    destruct (Z.eqb_spec (Z.abs (Row (To m) - Row (From m))) 2).
    + left. repeat split; assumption.
    + right. split; [right; assumption | reflexivity].
  - right. split; [| reflexivity]. left. intros H.
    rewrite H in Hp. discriminate.
Qed.

(** A legal pawn move of two rows starts on the pawn's start row, stays
    in its column and crosses an empty square onto an empty square. *)
Lemma valid_double_advance (b : Board) (m : Move) :
  IsValidMove b m = true ->
  Piece_Type (cellAt (Cells b) (Row (From m)) (Col (From m))) = Pawn ->
  Z.abs (Row (To m) - Row (From m)) = 2 ->
  let mover := Piece_Color (cellAt (Cells b) (Row (From m)) (Col (From m))) in
  let direction := match mover with Black => 1 | White => -1 end in
  mover = CurrentTurn b
  /\ Col (To m) = Col (From m)
  /\ Row (From m) = match mover with Black => 1 | White => 6 end
  /\ Row (To m) = Row (From m) + 2 * direction
  /\ 0 <= Col (From m) <= 7
  /\ isEmpty (cellAt (Cells b) (Row (From m) + direction) (Col (From m))) = true
  /\ isEmpty (cellAt (Cells b) (Row (To m)) (Col (To m))) = true.
Proof.
  intros Hvalid Hpawn Habs mover direction.
  apply IsValidMove_inv in Hvalid.
  destruct Hvalid as (Hfrom & _ & _ & Hturn & _ & Hrule & _).
  apply onBoard_spec in Hfrom.
  unfold pieceRule in Hrule. rewrite Hpawn in Hrule.
  unfold isValidPawnMove in Hrule. fold mover in Hrule.
  subst direction. destruct mover eqn:Hm; simpl in Hrule |- *;
    repeat match type of Hrule with
           | (if ?c then _ else _) = true =>
               let Hc := fresh "Hc" in destruct c eqn:Hc
           end;
    try discriminate;
    repeat match goal with
           | H : _ && _ = true |- _ => apply andb_true_iff in H; destruct H
           | H : (_ =? _) = true |- _ => apply Z.eqb_eq in H
           end;
    try lia; repeat split; try assumption; try reflexivity; try lia;
    unfold mover in *; congruence.
Qed.

Lemma double_advance_rows (b : Board) (m : Move) :
  IsValidMove b m = true ->
  Piece_Type (cellAt (Cells b) (Row (From m)) (Col (From m))) = Pawn ->
  Z.abs (Row (To m) - Row (From m)) = 2 ->
  let mover := Piece_Color (cellAt (Cells b) (Row (From m)) (Col (From m))) in
  (mover = White /\ Row (From m) = 6 /\ Row (To m) = 4
   /\ Z.quot (Row (From m) + Row (To m)) 2 = 5)
  \/ (mover = Black /\ Row (From m) = 1 /\ Row (To m) = 3
      /\ Z.quot (Row (From m) + Row (To m)) 2 = 2).
Proof.
  intros Hvalid Hpawn Habs mover.
  destruct (valid_double_advance b m Hvalid Hpawn Habs)
    as (_ & _ & Hstart & Hto & _).
  fold mover in Hstart, Hto.
  destruct mover; [left | right]; rewrite Hto, Hstart; repeat split.
Qed.

(** The cells around a legal two-row pawn move after [MakeMove]: the
    neighbours of the arrival square are untouched and the square passed
    over is empty. *)
Lemma movedCells_double_advance (b : Board) (m : Move) (side : Z) :
  IsValidMove b m = true ->
  Piece_Type (cellAt (Cells b) (Row (From m)) (Col (From m))) = Pawn ->
  Z.abs (Row (To m) - Row (From m)) = 2 ->
  side = 1 \/ side = -1 ->
  cellAt (movedCells b m) (Row (To m)) (Col (To m) + side)
  = cellAt (Cells b) (Row (To m)) (Col (To m) + side)
  /\ isEmpty (cellAt (movedCells b m)
                     (Z.quot (Row (From m) + Row (To m)) 2) (Col (To m))) = true.
Proof.
  intros Hvalid Hpawn Habs Hside.
  destruct (valid_double_advance b m Hvalid Hpawn Habs)
    as (_ & Hcol & Hstart & Hto & Hrange & Hmid & Hdest).
  unfold movedCells. rewrite Hpawn. simpl PieceType_eqb. simpl andb.
  set (piece := cellAt (Cells b) (Row (From m)) (Col (From m))) in *.
  assert (Hrows : (Piece_Color piece = White /\ Row (From m) = 6
                   /\ Row (To m) = 4)
                  \/ (Piece_Color piece = Black /\ Row (From m) = 1
                      /\ Row (To m) = 3)).
  { destruct (Piece_Color piece); [left | right]; repeat split; lia. }
  destruct Hrows as [(Hc & Hfr & Htr) | (Hc & Hfr & Htr)];
    rewrite Hc in *; rewrite Hfr in *; rewrite Htr in *; simpl in *;
    change (Z.quot (6 + 4) 2) with 5; change (Z.quot (1 + 3) 2) with 2;
    change (4 + 1) with 5; change (3 - 1) with 2;
    change (6 + -1) with 5 in Hmid; change (1 + 1) with 2 in Hmid;
    (destruct (EnPassantTarget b) as [ep |];
     [match goal with |- context [if ?c then _ else _] => destruct c end |];
     split;
     repeat first
       [ rewrite cellAt_setCell_other by lia
       | rewrite cellAt_setCell_same by lia ];
     first [reflexivity | rewrite Hcol; exact Hmid]).
Qed.

Lemma en_passant_capture_offered (b : Board) (m : Move) (side : Z) :
  IsValidMove b m = true ->
  Piece_Type (cellAt (Cells b) (Row (From m)) (Col (From m))) = Pawn ->
  Z.abs (Row (To m) - Row (From m)) = 2 ->
  side = 1 \/ side = -1 ->
  let pawn := cellAt (Cells b) (Row (From m)) (Col (From m)) in
  let passed :=
    mkPosition (Z.quot (Row (From m) + Row (To m)) 2) (Col (To m)) in
  let capture := mkMove (mkPosition (Row (To m)) (Col (To m) + side)) passed in
  cellAt (Cells b) (Row (To m)) (Col (To m) + side)
  = mkPiece Pawn (opponent (Piece_Color pawn)) ->
  IsValidMove (MakeMove b m) capture
  = negb (wouldBeInCheck (MakeMove b m) capture (opponent (Piece_Color pawn))).
Proof.
  intros Hvalid Hpawn Habs Hside pawn passed capture Hcapturer.
  subst capture passed. unfold pawn in *. clear pawn.
  destruct (movedCells_double_advance b m side Hvalid Hpawn Habs Hside)
    as [Hnear Hmid].
  destruct (valid_double_advance b m Hvalid Hpawn Habs)
    as (Hturn & Hcol & _ & _ & Hrange & _).
  assert (Hon : 0 <= Row (To m) <= 7 /\ 0 <= Col (To m) + side <= 7).
  { apply (occupied_onBoard (Cells b)). rewrite Hcapturer. reflexivity. }
  assert (Hrefl : forall c, Color_eqb c c = true) by (intros []; reflexivity).
  unfold IsValidMove.
  rewrite MakeMove_Cells, MakeMove_CurrentTurn.
  cbn [From To Row Col].
  rewrite Hnear, Hcapturer. cbn [isEmpty Piece_Type Piece_Color PieceType_eqb].
  rewrite Hmid. cbn [negb andb].
  replace (onBoard (mkPosition (Row (To m)) (Col (To m) + side))) with true
    by (symmetry; apply onBoard_spec; exact Hon).
  replace (onBoard (mkPosition (Z.quot (Row (From m) + Row (To m)) 2) (Col (To m))))
    with true.
  2:{ symmetry. apply onBoard_spec. cbn [Row Col].
      destruct (double_advance_rows b m Hvalid Hpawn Habs)
        as [(_ & _ & _ & ->) | (_ & _ & _ & ->)]; lia. }
  rewrite <- Hturn, Hrefl. cbn [negb].
  replace (pieceRule (MakeMove b m) _ _) with true; [reflexivity |].
  symmetry. unfold pieceRule, isValidPawnMove.
  rewrite MakeMove_Cells, MakeMove_EnPassantTarget.
  cbn [From To Row Col Piece_Type Piece_Color]. rewrite Hmid.
  unfold nextEnPassantTarget.
  rewrite Hpawn, !abs_spec, Habs.
  cbn [PieceType_eqb andb Z.eqb Pos.eqb Row Col].
  rewrite !Z.eqb_refl.
  replace (Col (To m) - (Col (To m) + side) =? 0) with false
    by (symmetry; apply Z.eqb_neq; lia).
  replace (Z.abs (Col (To m) - (Col (To m) + side)) =? 1) with true
    by (symmetry; apply Z.eqb_eq; lia).
  destruct (double_advance_rows b m Hvalid Hpawn Habs)
    as [(Hc & Hfr & Htr & Hq) | (Hc & Hfr & Htr & Hq)];
    rewrite Hc, Hq, Htr; reflexivity.
Qed.

Lemma en_passant_capture_needs_target (b : Board) (c : Move) :
  IsValidMove b c = true ->
  Piece_Type (cellAt (Cells b) (Row (From c)) (Col (From c))) = Pawn ->
  Col (To c) <> Col (From c) ->
  isEmpty (cellAt (Cells b) (Row (To c)) (Col (To c))) = true ->
  EnPassantTarget b = Some (To c).
Proof.
  intros Hvalid Hpawn Hdiag Hempty.
  apply IsValidMove_inv in Hvalid.
  destruct Hvalid as (_ & _ & _ & _ & _ & Hrule & _).
  unfold pieceRule in Hrule. rewrite Hpawn in Hrule.
  unfold isValidPawnMove in Hrule. rewrite Hempty in Hrule.
  replace (Col (To c) - Col (From c) =? 0) with false in Hrule
    by (symmetry; apply Z.eqb_neq; lia).
  cbn [andb negb] in Hrule.
  destruct (_ && _) in Hrule; [| discriminate].
  destruct (EnPassantTarget b) as [ep |]; [| discriminate].
  apply andb_true_iff in Hrule. destruct Hrule as [Hr Hc].
  apply Z.eqb_eq in Hr, Hc. destruct (To c), ep. simpl in *. congruence.
Qed.

(** The bookkeeping of the en-passant target.  [MakeMove] resets the
    target and sets it again only when the moved piece is a pawn whose row
    changed by two, to the square between its start and arrival squares.
    After a legal two-square pawn advance, the capture by an opposing pawn
    standing beside the arrival square passes every test of [IsValidMove]
    but the last, that of [wouldBeInCheck]; and in every position a pawn's
    diagonal move onto an empty square is accepted only if the move that
    produced the position was such an advance over that very square. *)
Theorem en_passant_window (b : Board) (m : Move) :
  let pawn := cellAt (Cells b) (Row (From m)) (Col (From m)) in
  let passed :=
    mkPosition (Z.quot (Row (From m) + Row (To m)) 2) (Col (To m)) in
  EnPassantTarget (MakeMove b m)
  = (if PieceType_eqb (Piece_Type pawn) Pawn
        && (Z.abs (Row (To m) - Row (From m)) =? 2)
     then Some passed else None)
  /\ (IsValidMove b m = true ->
      Piece_Type pawn = Pawn ->
      Z.abs (Row (To m) - Row (From m)) = 2 ->
      (Col passed = Col (From m)
       /\ Row passed
          = Row (From m) + match Piece_Color pawn with Black => 1 | White => -1 end)
      /\ forall side,
          side = 1 \/ side = -1 ->
          cellAt (Cells b) (Row (To m)) (Col (To m) + side)
          = mkPiece Pawn (opponent (Piece_Color pawn)) ->
          let capture :=
            mkMove (mkPosition (Row (To m)) (Col (To m) + side)) passed in
          IsValidMove (MakeMove b m) capture
          = negb (wouldBeInCheck (MakeMove b m) capture
                                 (opponent (Piece_Color pawn))))
  /\ (forall c,
         IsValidMove (MakeMove b m) c = true ->
         Piece_Type (cellAt (Cells (MakeMove b m)) (Row (From c)) (Col (From c)))
         = Pawn ->
         Col (To c) <> Col (From c) ->
         isEmpty (cellAt (Cells (MakeMove b m)) (Row (To c)) (Col (To c))) = true ->
         Piece_Type pawn = Pawn
         /\ Z.abs (Row (To m) - Row (From m)) = 2
         /\ To c = passed).
Proof.
  intros pawn passed. split; [| split].
  - rewrite MakeMove_EnPassantTarget. unfold nextEnPassantTarget.
    rewrite abs_spec. reflexivity.
  - intros Hvalid Hpawn Habs. split.
    + destruct (valid_double_advance b m Hvalid Hpawn Habs)
        as (_ & Hcol & Hstart & Hto & _).
      fold pawn in Hstart, Hto. subst passed. cbn [Row Col].
      split; [exact Hcol |].
      destruct (double_advance_rows b m Hvalid Hpawn Habs)
        as [(Hc & Hfr & Htr & Hq) | (Hc & Hfr & Htr & Hq)];
        unfold pawn; rewrite Hc, Hq, Hfr; reflexivity.
    + intros side Hside Hcapturer.
      apply en_passant_capture_offered; assumption.
  - intros c Hvalid Hpawn Hdiag Hempty.
    pose proof (en_passant_capture_needs_target _ c Hvalid Hpawn Hdiag Hempty)
      as Hep.
    rewrite MakeMove_EnPassantTarget in Hep.
    destruct (nextEnPassantTarget_spec b m) as [(Hp & Ha & He) | (_ & He)];
      rewrite He in Hep; [| discriminate].
    injection Hep as Hep. repeat split; try assumption. symmetry. exact Hep.
Qed.

Lemma en_passant_window_witness :
  let b1 := MakeMove enPassantBoard (move 1 3 3 3) in
  let b3 := MakeMove (MakeMove b1 (move 7 4 7 3)) (move 0 1 2 0) in
  IsValidMove enPassantBoard (move 1 3 3 3) = true
  /\ EnPassantTarget b1 = Some (mkPosition 2 3)
  /\ IsValidMove b1 (move 3 4 2 3) = true
  /\ IsValidMove b3 (move 3 4 2 3) = false.
Proof.
  intros b1 b3.
  assert (Hv : IsValidMove enPassantBoard (move 1 3 3 3) = true)
    by (vm_compute; reflexivity).
  destruct (en_passant_window enPassantBoard (move 1 3 3 3))
    as (Htarget & Hoffer & _).
  destruct (Hoffer Hv eq_refl eq_refl) as [_ Hcapture].
  split; [exact Hv |]. split; [exact Htarget |]. split.
  - refine (eq_trans (Hcapture 1 (or_introl eq_refl) eq_refl) _).
    vm_compute. reflexivity.
  - vm_compute. reflexivity.
Defined.

(** C9 at its failing input.  On [pawnCheckBoard] Black's d7-d5 is legal,
    sets the en-passant target to d6 and gives check to the king on e4.
    The capture e5xd6 removes the checking pawn: on the board [MakeMove]
    produces the white king is not in check, so the capture is legal on
    the one ply the target is set for.  [IsValidMove] rejects it, because
    the simulation of [wouldBeInCheck] leaves the captured pawn on d5,
    where it still attacks e4. *)
Theorem en_passant_capture_out_of_check_rejected :
  let advance := move 1 3 3 3 in
  let capture := move 3 4 2 3 in
  let b1 := MakeMove pawnCheckBoard advance in
  IsValidMove pawnCheckBoard advance = true
  /\ EnPassantTarget b1 = Some (mkPosition 2 3)
  /\ cellAt (Cells b1) 3 3 = mkPiece Pawn Black
  /\ cellAt (Cells b1) 3 4 = mkPiece Pawn White
  /\ CurrentTurn b1 = White
  /\ isInCheck b1 White = true
  /\ pieceRule b1 capture (cellAt (Cells b1) 3 4) = true
  /\ wouldBeInCheck b1 capture White = true
  /\ IsValidMove b1 capture = false
  /\ cellAt (Cells (MakeMove b1 capture)) 2 3 = mkPiece Pawn White
  /\ cellAt (Cells (MakeMove b1 capture)) 3 3 = emptyCell
  /\ isInCheck (MakeMove b1 capture) White = false.
Proof. vm_compute. repeat split. Qed.

(** ** Legal moves *)

Lemma GetLegalMoves_valid (b : Board) (m : Move) :
  In m (GetLegalMoves b) -> IsValidMove b m = true.
Proof.
  unfold GetLegalMoves. rewrite in_flat_map. intros [from [_ Hm]].
  destruct (isEmpty _ || negb _); [destruct Hm |].
  apply filter_In in Hm. tauto.
Qed.

Lemma GetLegalMoves_complete (b : Board) (m : Move) :
  IsValidMove b m = true -> In m (GetLegalMoves b).
Proof.
  intros Hvalid. pose proof (IsValidMove_inv b m Hvalid)
    as (Hfrom & Hto & Hocc & Hturn & _).
  unfold GetLegalMoves. apply in_flat_map. exists (From m). split.
  - apply allSquares_spec. exact Hfrom.
  - rewrite Hocc, Hturn.
    replace (Color_eqb (CurrentTurn b) (CurrentTurn b)) with true
      by (destruct (CurrentTurn b); reflexivity).
    cbn [orb negb]. apply filter_In. split; [| exact Hvalid].
    apply in_map_iff. exists (To m). split.
    + destruct m; reflexivity.
    + apply allSquares_spec. exact Hto.
Qed.

Lemma same_square_move_invalid (b : Board) (m : Move) :
  From m = To m -> IsValidMove b m = false.
Proof.
  intros Heq. unfold IsValidMove. rewrite <- Heq.
  destruct (onBoard (From m)); [simpl | reflexivity].
  destruct (isEmpty (cellAt (Cells b) (Row (From m)) (Col (From m))));
    [reflexivity |].
  destruct (Color_eqb _ (CurrentTurn b)); [simpl | reflexivity].
  replace (Color_eqb _ _) with true
    by (destruct (Piece_Color _); reflexivity).
  reflexivity.
Qed.

(** ** Move selection *)

Section MoveSelection.

Variable mathTanh : float -> float.

Lemma maximizeOver_result evalChild board beta moves maxEval bestMove alpha :
  let r := snd (maximizeOver evalChild board beta moves maxEval bestMove alpha) in
  r = bestMove \/ In r moves.
Proof.
  revert maxEval bestMove alpha.
  induction moves as [| mv rest IH]; intros maxEval bestMove alpha; simpl.
  - left. reflexivity.
  - destruct (beta <=? _)%float.
    + destruct (maxEval <? _)%float; simpl; auto.
    + destruct (IH (fst (if (maxEval <? evalChild (MakeMove (Clone board) mv) alpha beta)%float
                         then (evalChild (MakeMove (Clone board) mv) alpha beta, mv)
                         else (maxEval, bestMove)))
                   (snd (if (maxEval <? evalChild (MakeMove (Clone board) mv) alpha beta)%float
                         then (evalChild (MakeMove (Clone board) mv) alpha beta, mv)
                         else (maxEval, bestMove)))
                   (mathMax alpha (evalChild (MakeMove (Clone board) mv) alpha beta)))
        as [H | H].
      * rewrite H. destruct (maxEval <? _)%float; simpl; auto.
      * right. right. exact H.
Qed.

Lemma minimizeOver_result evalChild board alpha moves minEval bestMove beta :
  let r := snd (minimizeOver evalChild board alpha moves minEval bestMove beta) in
  r = bestMove \/ In r moves.
Proof.
  revert minEval bestMove beta.
  induction moves as [| mv rest IH]; intros minEval bestMove beta; simpl.
  - left. reflexivity.
  - destruct (_ <=? alpha)%float.
    + destruct (_ <? minEval)%float; simpl; auto.
    + destruct (IH (fst (if (evalChild (MakeMove (Clone board) mv) alpha beta <? minEval)%float
                         then (evalChild (MakeMove (Clone board) mv) alpha beta, mv)
                         else (minEval, bestMove)))
                   (snd (if (evalChild (MakeMove (Clone board) mv) alpha beta <? minEval)%float
                         then (evalChild (MakeMove (Clone board) mv) alpha beta, mv)
                         else (minEval, bestMove)))
                   (mathMin beta (evalChild (MakeMove (Clone board) mv) alpha beta)))
        as [H | H].
      * rewrite H. destruct (_ <? minEval)%float; simpl; auto.
      * right. right. exact H.
Qed.

(** [minimax] yields its no-result move or one of the legal moves of the
    board it was called on. *)
Lemma minimax_result net depth board alpha beta maximizing :
  let r := snd (minimax mathTanh net depth board alpha beta maximizing) in
  r = noResultMove \/ In r (GetLegalMoves board).
Proof.
  destruct depth as [| depth']; simpl; [left; reflexivity |].
  destruct (GameOver board); [left; reflexivity |].
  destruct (length (GetLegalMoves board) =? 0)%nat; [left; reflexivity |].
  destruct maximizing.
  - apply maximizeOver_result.
  - apply minimizeOver_result.
Qed.

Lemma randIntn_pick (raw : nat) (moves : list Move) (d : Move) :
  moves <> [] -> In (nth (randIntn raw (length moves)) moves d) moves.
Proof.
  intros Hne. apply nth_In. unfold randIntn.
  apply Nat.mod_upper_bound. destruct moves; [congruence | discriminate].
Qed.

Lemma ChooseMove_nonempty net a board randFloat randRaw :
  GetLegalMoves board <> [] ->
  In (ChooseMove mathTanh net a board randFloat randRaw) (GetLegalMoves board).
Proof.
  intros Hne. unfold ChooseMove.
  destruct (GetLegalMoves board) as [| m0 rest] eqn:Hmoves; [congruence |].
  rewrite <- Hmoves in *. 
  replace (length (GetLegalMoves board) =? 0)%nat with false
    by (rewrite Hmoves; reflexivity).
  destruct (randFloat <? Epsilon a)%float; [apply randIntn_pick; exact Hne |].
  destruct (minimax_result net 2 board (- MaxFloat64)%float MaxFloat64 true)
    as [H | H].
  - rewrite H. simpl. apply randIntn_pick. exact Hne.
  - destruct (Row (From _) =? -1); [apply randIntn_pick; exact Hne | exact H].
Qed.

Lemma ChooseMove_empty net a board randFloat randRaw :
  GetLegalMoves board = [] ->
  ChooseMove mathTanh net a board randFloat randRaw = zeroMove.
Proof. intros H. unfold ChooseMove. rewrite H. reflexivity. Qed.

(** C4.  On a board with legal moves, [ChooseMove] returns one of them,
    whatever the random draws and the network; on a board without legal
    moves it returns, before any draw is made, the zero move
    [a8-a8], which [IsValidMove] accepts on no board. *)
Theorem ChooseMove_returns_legal_move
        (net : Network) (a : Agent) (board : Board)
        (randFloat : float) (randRaw : nat) :
  (GetLegalMoves board <> [] ->
   In (ChooseMove mathTanh net a board randFloat randRaw) (GetLegalMoves board))
  /\ (GetLegalMoves board = [] ->
      ChooseMove mathTanh net a board randFloat randRaw = zeroMove
      /\ forall b, IsValidMove b zeroMove = false).
Proof.
  split.
  - apply ChooseMove_nonempty.
  - intros H. split; [apply ChooseMove_empty; exact H |].
    intros b. apply same_square_move_invalid. reflexivity.
Qed.

(** C10.  On a board without legal moves [ChooseMove] returns the zero
    move, whose squares are both (0, 0); a no-result move of [minimax]
    (the only value with [From.Row = -1]) is replaced by a randomly picked
    legal move; and so the test [move.From.Row == -1] of the game loops
    is false of every value [ChooseMove] returns. *)
Theorem ChooseMove_never_signals_no_move
        (net : Network) (a : Agent) (board : Board)
        (randFloat : float) (randRaw : nat) :
  (GetLegalMoves board = [] ->
   ChooseMove mathTanh net a board randFloat randRaw
   = mkMove (mkPosition 0 0) (mkPosition 0 0))
  /\ (forall depth alpha beta maximizing,
         let best := snd (minimax mathTanh net depth board alpha beta maximizing) in
         Row (From best) = -1 -> best = noResultMove)
  /\ (GetLegalMoves board <> [] ->
      (randFloat <? Epsilon a)%float = false ->
      snd (minimax mathTanh net 2 board (- MaxFloat64)%float MaxFloat64 true)
      = noResultMove ->
      ChooseMove mathTanh net a board randFloat randRaw
      = nth (randIntn randRaw (length (GetLegalMoves board)))
            (GetLegalMoves board) zeroMove)
  /\ isNoMoveSignal (ChooseMove mathTanh net a board randFloat randRaw) = false.
Proof.
  repeat split.
  - apply ChooseMove_empty.
  - intros depth alpha beta maximizing best Hrow.
    destruct (minimax_result net depth board alpha beta maximizing) as [H | H];
      [exact H |].
    apply GetLegalMoves_valid, IsValidMove_inv in H.
    destruct H as (Hon & _). apply onBoard_spec in Hon. fold best in Hon. lia.
  - intros Hne Heps Hbest. unfold ChooseMove.
    destruct (GetLegalMoves board) eqn:Hmoves; [congruence |].
    rewrite <- Hmoves in *. rewrite Heps, Hbest.
    replace (length (GetLegalMoves board) =? 0)%nat with false
      by (rewrite Hmoves; reflexivity).
    reflexivity.
  - unfold isNoMoveSignal.
    destruct (GetLegalMoves board) eqn:Hmoves.
    + rewrite ChooseMove_empty by exact Hmoves. reflexivity.
    + assert (Hin : In (ChooseMove mathTanh net a board randFloat randRaw)
                       (GetLegalMoves board))
        by (apply ChooseMove_nonempty; congruence).
      apply GetLegalMoves_valid, IsValidMove_inv in Hin.
      destruct Hin as (Hon & _). apply onBoard_spec in Hon.
      apply Z.eqb_neq. lia.
Qed.

End MoveSelection.

Lemma ChooseMove_returns_legal_move_witness :
  In (ChooseMove sampleTanh zeroNetwork (NewAgent White) castleBoard 0.5 7)
     (GetLegalMoves castleBoard)
  /\ ChooseMove sampleTanh zeroNetwork (NewAgent Black) matedBoard 0.5 7
     = zeroMove.
Proof.
  split.
  - apply (ChooseMove_returns_legal_move sampleTanh).
    vm_compute. discriminate.
  - apply (ChooseMove_returns_legal_move sampleTanh).
    vm_compute. reflexivity.
Defined.

Lemma ChooseMove_never_signals_no_move_witness :
  ChooseMove sampleTanh zeroNetwork (NewAgent Black) matedBoard 0.5 7
  = mkMove (mkPosition 0 0) (mkPosition 0 0)
  /\ isNoMoveSignal
       (ChooseMove sampleTanh zeroNetwork (NewAgent Black) matedBoard 0.5 7)
     = false.
Proof.
  destruct (ChooseMove_never_signals_no_move
              sampleTanh zeroNetwork (NewAgent Black) matedBoard 0.5%float 7%nat)
    as (Hzero & _ & _ & Hsignal).
  split; [apply Hzero; vm_compute; reflexivity | exact Hsignal].
Defined.

(** ** The learning update *)

Section Learning.

Variable mathTanh : float -> float.

Lemma learnLoop_steps (a : Agent) (count : nat) :
  forall net reward,
    fst (learnLoop mathTanh a count net reward)
    = fold_left
        (fun net example => Train mathTanh net (fst example) (snd example))
        (map (fun k => (nth (count - 1 - k) (StateHistory a) [],
                        discounted reward (Gamma a) k))
             (seq 0 count))
        net.
Proof.
  induction count as [| i IH]; intros net reward; [reflexivity |].
  cbn [learnLoop]. rewrite IH.
  cbn [seq map fold_left fst snd discounted].
  rewrite <- seq_shift, map_map.
  replace (S i - 1 - 0)%nat with i by lia.
  rewrite (map_ext
             (fun k => (nth (S i - 1 - S k) (StateHistory a) [],
                        discounted reward (Gamma a) (S k)))
             (fun k => (nth (i - 1 - k) (StateHistory a) [],
                        discounted (reward * Gamma a) (Gamma a) k))).
  - reflexivity.
  - intros k. replace (S i - 1 - S k)%nat with (i - 1 - k)%nat by lia.
    reflexivity.
Qed.

(** C5.  [Learn] with final reward [r] on a history of length [n] performs
    exactly the training steps (state at distance [k] from the end, target
    [r] multiplied [k] times by gamma), for [k = 0, 1, ..., n-1] in this
    order, and no other. *)
Theorem Learn_trains_each_state_once (a : Agent) (net : Network) (r : float) :
  snd (Learn mathTanh a net r)
  = fold_left
      (fun net example => Train mathTanh net (fst example) (snd example))
      (map (fun k =>
              (nth (length (StateHistory a) - 1 - k) (StateHistory a) [],
               discounted r (Gamma a) k))
           (seq 0 (length (StateHistory a))))
      net.
Proof.
  unfold Learn. destruct (StateHistory a) as [| s rest] eqn:Hh.
  - reflexivity.
  - rewrite <- Hh. replace (length (StateHistory a) =? 0)%nat with false
      by (rewrite Hh; reflexivity).
    cbn [snd]. apply learnLoop_steps.
Qed.

(** The experiences [trainSharedNetwork] trains on: White's states from
    the last to the first, then Black's, each with its discounted reward. *)
Lemma collectExperiences_steps (a : Agent) (count : nat) :
  forall reward acc,
    collectExperiences a count reward acc
    = acc ++ map (fun k => (nth (count - 1 - k) (StateHistory a) [],
                            discounted reward (Gamma a) k))
                 (seq 0 count).
Proof.
  induction count as [| i IH]; intros reward acc.
  - simpl. rewrite app_nil_r. reflexivity.
  - cbn [collectExperiences]. rewrite IH, <- app_assoc.
    cbn [seq map app]. rewrite <- seq_shift, map_map.
    replace (S i - 1 - 0)%nat with i by lia.
    rewrite (map_ext
               (fun k => (nth (S i - 1 - S k) (StateHistory a) [],
                          discounted reward (Gamma a) (S k)))
               (fun k => (nth (i - 1 - k) (StateHistory a) [],
                          discounted (reward * Gamma a) (Gamma a) k))).
    + reflexivity.
    + intros k. replace (S i - 1 - S k)%nat with (i - 1 - k)%nat by lia.
      reflexivity.
Qed.

Lemma Learn_empty (a : Agent) (net : Network) (r : float) :
  StateHistory a = [] -> Learn mathTanh a net r = (a, net).
Proof. intros H. unfold Learn. rewrite H. reflexivity. Qed.

Lemma Learn_Epsilon (a : Agent) (net : Network) (r : float) :
  StateHistory a <> [] ->
  Epsilon (fst (Learn mathTanh a net r)) = decayed (Epsilon a).
Proof.
  intros H. unfold Learn. destruct (StateHistory a); [congruence |]. reflexivity.
Qed.

Lemma learnRounds_Epsilon (rounds : nat) (board : Board) :
  forall a net,
    Epsilon (fst (learnRounds mathTanh rounds board a net))
    = Nat.iter rounds decayed (Epsilon a).
Proof.
  induction rounds as [| n IH]; intros a net; [reflexivity |].
  cbn [learnRounds].
  destruct (Learn mathTanh (RecordState a board) net 1) as [a' net'] eqn:HL.
  rewrite IH. cbn [withStateHistory Epsilon].
  assert (He : Epsilon a' = decayed (Epsilon a)).
  { change a' with (fst (a', net')). rewrite <- HL.
    rewrite Learn_Epsilon; [reflexivity |].
    unfold RecordState. cbn [withStateHistory StateHistory].
    destruct (StateHistory a); discriminate. }
  rewrite He. symmetry. apply Nat.iter_succ_r.
Qed.

End Learning.

Lemma epsilon_above_floor_until_460 :
  forallb (fun k => (epsilonAfter (S k) <? epsilonAfter k)%float
                    && (0.01 <? epsilonAfter k)%float)
          (seq 0 460) = true.
Proof. vm_compute. reflexivity. Qed.

Lemma epsilon_at_floor_from_460 (n : nat) :
  (460 <= n)%nat -> epsilonAfter n = 0.01%float.
Proof.
  intros H. replace n with ((n - 460) + 460)%nat by lia.
  induction (n - 460)%nat as [| k IH].
  - vm_compute. reflexivity.
  - unfold epsilonAfter in *. change (S k + 460)%nat with (S (k + 460)).
    rewrite Nat.iter_succ, IH. vm_compute. reflexivity.
Qed.

(** C7, as the code has it.  From the initial epsilon 0.1, every
    [Learn(1.0)] on a non-empty history strictly lowers epsilon while it is
    above the floor 0.01; the 460th call brings it to exactly 0.01, where
    it stays. *)
Theorem epsilon_decays_to_floor_after_460
        (mathTanh : float -> float) (net : Network) (board : Board)
        (a : Agent) (n : nat) :
  Epsilon a = 0.1%float ->
  let epsilon k := Epsilon (fst (learnRounds mathTanh k board a net)) in
  ((n < 460)%nat ->
   (epsilon (S n) <? epsilon n)%float = true
   /\ (0.01 <? epsilon n)%float = true)
  /\ ((460 <= n)%nat -> epsilon n = 0.01%float /\ epsilon (S n) = 0.01%float).
Proof.
  intros Ha epsilon. unfold epsilon. rewrite !learnRounds_Epsilon, Ha.
  fold (epsilonAfter n). fold (epsilonAfter (S n)). split.
  - intros Hn. apply andb_true_iff.
    pose proof epsilon_above_floor_until_460 as Hall.
    rewrite forallb_forall in Hall. apply (Hall n). apply in_seq. lia.
  - intros Hn. split; apply epsilon_at_floor_from_460; lia.
Qed.

Lemma epsilon_decays_to_floor_after_460_witness :
  (Epsilon (fst (learnRounds sampleTanh 101 NewBoard (NewAgent Black) zeroNetwork))
   <? Epsilon (fst (learnRounds sampleTanh 100 NewBoard (NewAgent Black) zeroNetwork)))%float
  = true
  /\ Epsilon (fst (learnRounds sampleTanh 460 NewBoard (NewAgent Black) zeroNetwork))
     = 0.01%float.
Proof.
  split.
  - exact (proj1 (proj1 (epsilon_decays_to_floor_after_460
                           sampleTanh zeroNetwork NewBoard (NewAgent Black)
                           100 eq_refl)
                        ltac:(lia))).
  - exact (proj1 (proj2 (epsilon_decays_to_floor_after_460
                           sampleTanh zeroNetwork NewBoard (NewAgent Black)
                           460 eq_refl)
                        ltac:(lia))).
Defined.

(** After 100 calls of [Learn(1.0)] from the initial epsilon, epsilon is
    still above 0.06, not at the floor. *)
Lemma epsilon_after_100_calls_above_floor :
  (0.06 <? Epsilon (fst (learnRounds sampleTanh 100 NewBoard (NewAgent Black)
                                     zeroNetwork)))%float = true
  /\ (Epsilon (fst (learnRounds sampleTanh 100 NewBoard (NewAgent Black)
                                zeroNetwork)) =? 0.01)%float = false.
Proof.
  rewrite learnRounds_Epsilon. vm_compute. split; reflexivity.
Qed.


(** ** Slices updated in place *)

#[local] Open Scope nat_scope.

Lemma nth_insert {A} (d x : A) (l : list A) (i j : nat) :
  nth j (<[i := x]> l) d
  = if (i =? j) && (i <? length l) then x else nth j l d.
Proof.
  revert i j. induction l as [| y l IH]; intros i j.
  - destruct (i =? j); destruct i, j; reflexivity.
  - destruct i as [| i], j as [| j]; try reflexivity.
    cbn [list_insert insert nth length]. rewrite IH. reflexivity.
Qed.

Lemma length_list_insert {A} (x : A) (l : list A) (i : nat) :
  length (<[i := x]> l) = length l.
Proof.
  revert i. induction l as [| y l IH]; intros [| i]; try reflexivity.
  cbn [list_insert insert length]. rewrite IH. reflexivity.
Qed.

Lemma at1_insert (v : list float) (i j : nat) (x : float) :
  at1 (<[i := x]> v) j = if (i =? j) && (i <? length v) then x else at1 v j.
Proof. apply nth_insert. Qed.

Lemma at2_set2 (m : list (list float)) (i j i' j' : nat) (x : float) :
  at2 (set2 m i j x) i' j'
  = if (i =? i') && (j =? j') && (i <? length m) && (j <? length (nth i m []))
    then x else at2 m i' j'.
Proof.
  unfold at2, set2. rewrite nth_insert.
  destruct (Nat.eqb_spec i i') as [<- | Hi]; cbn [andb]; [| reflexivity].
  destruct (i <? length m); cbn [andb].
  - rewrite nth_insert. rewrite andb_true_r. reflexivity.
  - rewrite andb_false_r. reflexivity.
Qed.

Lemma length_set2 (m : list (list float)) (i j : nat) (x : float) :
  length (set2 m i j x) = length m.
Proof. apply length_list_insert. Qed.

Lemma row_length_set2 (m : list (list float)) (i j i' : nat) (x : float) :
  length (nth i' (set2 m i j x) []) = length (nth i' m []).
Proof.
  unfold set2. rewrite nth_insert.
  destruct (Nat.eqb_spec i i') as [<- | Hi]; cbn [andb]; [| reflexivity].
  destruct (i <? length m); [apply length_list_insert | reflexivity].
Qed.

Lemma fold_left_ext {A B} (f g : A -> B -> A) (l : list B) (a : A) :
  (forall a b, f a b = g a b) -> fold_left f l a = fold_left g l a.
Proof.
  intros H. revert a. induction l as [| b l IH]; intros a; [reflexivity |].
  cbn [fold_left]. rewrite H. apply IH.
Qed.

(** ** The momentum loops of [Train] in closed form *)

Ltac split_index_tests :=
  repeat match goal with
         | |- context [(?a =? ?b)%nat] => destruct (Nat.eqb_spec a b); try subst
         | |- context [(?a <? ?b)%nat] => destruct (Nat.ltb_spec a b)
         end;
  cbn [andb]; try lia; try reflexivity.

Section MomentumLoops.

Variable n : Network.

Lemma rowPass_spec (grad : nat -> nat -> float) (i cols : nat)
      (vw w : list (list float)) :
  i < length vw -> i < length w ->
  cols <= length (nth i vw []) -> cols <= length (nth i w []) ->
  steppedWhere n (fun i' j' => (i' =? i) && (j' <? cols)) grad vw w
               (fst (rowPass n grad i cols (vw, w)))
               (snd (rowPass n grad i cols (vw, w))).
Proof.
  intros Hvw Hw. induction cols as [| c IH]; intros Hcv Hcw.
  - unfold rowPass. cbn [seq fold_left fst snd].
    repeat split; intros; rewrite ?andb_false_r; reflexivity.
  - unfold rowPass in *. rewrite seq_S, fold_left_app. cbn [Nat.add fold_left].
    destruct (fold_left _ (seq 0 c) (vw, w)) as [vw1 w1].
    cbn [fst snd] in *.
    destruct IH as (Hv & Hwt & Hlv & Hlw & Hrv & Hrw); [lia | lia |].
    repeat split.
    + intros i' j'. rewrite at2_set2, !Hv, Hlv, Hrv. split_index_tests.
    + intros i' j'. rewrite !at2_set2, !Hwt, !Hv, Hlw, Hrw, Hlv, Hrv.
      split_index_tests.
    + rewrite length_set2. exact Hlv.
    + rewrite length_set2. exact Hlw.
    + intros i'. rewrite row_length_set2. apply Hrv.
    + intros i'. rewrite row_length_set2. apply Hrw.
Qed.

Lemma updateWeights_spec (grad : nat -> nat -> float) (rows cols : nat)
      (vw w : list (list float)) :
  rows <= length vw -> rows <= length w ->
  (forall i, i < rows -> cols <= length (nth i vw [])) ->
  (forall i, i < rows -> cols <= length (nth i w [])) ->
  steppedWhere n (fun i j => (i <? rows) && (j <? cols)) grad vw w
               (fst (updateWeights n grad rows cols vw w))
               (snd (updateWeights n grad rows cols vw w)).
Proof.
  induction rows as [| r IH]; intros Hvw Hw Hcv Hcw.
  - unfold updateWeights. cbn [seq fold_left fst snd].
    repeat split; intros; reflexivity.
  - unfold updateWeights in *. rewrite seq_S, fold_left_app.
    cbn [Nat.add fold_left].
    destruct (fold_left _ (seq 0 r) (vw, w)) as [vw1 w1].
    cbn [fst snd] in IH.
    destruct IH as (Hv & Hwt & Hlv & Hlw & Hrv & Hrw);
      [lia | lia | intros; apply Hcv; lia | intros; apply Hcw; lia |].
    pose proof (rowPass_spec grad r cols vw1 w1) as Hrow.
    unfold rowPass in Hrow.
    destruct Hrow as (Hv' & Hwt' & Hlv' & Hlw' & Hrv' & Hrw');
      [rewrite Hlv; lia | rewrite Hlw; lia
       | rewrite Hrv; apply Hcv; lia | rewrite Hrw; apply Hcw; lia |].
    repeat split.
    + intros i j. rewrite Hv', !Hv. split_index_tests.
    + intros i j. rewrite Hwt', !Hwt, !Hv. split_index_tests.
    + rewrite Hlv'. exact Hlv.
    + rewrite Hlw'. exact Hlw.
    + intros i. rewrite Hrv'. apply Hrv.
    + intros i. rewrite Hrw'. apply Hrw.
Qed.

Lemma updateOutputWeights_as_updateWeights (outputDelta : float)
      (hidden2 : list float) (vw w : list (list float)) :
  updateOutputWeights n outputDelta hidden2 vw w
  = updateWeights n (fun j _ => outputDelta * at1 hidden2 j)%float 128 1 vw w.
Proof.
  unfold updateOutputWeights, updateWeights. apply fold_left_ext.
  intros [vw1 w1] j. reflexivity.
Qed.

Lemma updateBias_spec (grad : nat -> float) (count : nat) (vb b : list float) :
  count <= length vb -> count <= length b ->
  let vb' := fst (updateBias n grad count vb b) in
  let b' := snd (updateBias n grad count vb b) in
  (forall j, at1 vb' j
             = if j <? count then velocityStep n (at1 vb j) (grad j)
               else at1 vb j)
  /\ (forall j, at1 b' j
                = if j <? count
                  then (at1 b j + velocityStep n (at1 vb j) (grad j))%float
                  else at1 b j)
  /\ length vb' = length vb /\ length b' = length b.
Proof.
  induction count as [| c IH]; intros Hvb Hb.
  - unfold updateBias. cbn [seq fold_left fst snd].
    repeat split; intros; reflexivity.
  - cbv zeta in *. unfold updateBias in *. rewrite seq_S, fold_left_app.
    cbn [Nat.add fold_left].
    destruct (fold_left _ (seq 0 c) (vb, b)) as [vb1 b1].
    cbn [fst snd] in *.
    destruct IH as (Hv & Hw & Hlv & Hlw); [lia | lia |].
    repeat split.
    + intros j. rewrite at1_insert, !Hv, Hlv. split_index_tests.
    + intros j. rewrite !at1_insert, !Hw, !Hv, Hlw, Hlv. split_index_tests.
    + rewrite length_list_insert. exact Hlv.
    + rewrite length_list_insert. exact Hlw.
Qed.

Lemma steppedWhere_momentum inside grad vw w vw' w' (i j : nat) :
  steppedWhere n inside grad vw w vw' w' ->
  inside i j = true ->
  momentumUpdate n (at2 vw i j) (at2 w i j) (grad i j)
                 (at2 vw' i j) (at2 w' i j).
Proof.
  intros (Hv & Hw & _) Hin. unfold momentumUpdate.
  rewrite Hw, Hv, Hin. split; reflexivity.
Qed.

Lemma updateBias_momentum (grad : nat -> float) (count : nat)
      (vb b : list float) (j : nat) :
  count <= length vb -> count <= length b -> j < count ->
  momentumUpdate n (at1 vb j) (at1 b j) (grad j)
                 (at1 (fst (updateBias n grad count vb b)) j)
                 (at1 (snd (updateBias n grad count vb b)) j).
Proof.
  intros Hvb Hb Hj.
  destruct (updateBias_spec grad count vb b Hvb Hb) as (Hv & Hw & _).
  unfold momentumUpdate. rewrite Hw, Hv.
  replace (j <? count) with true by (symmetry; apply Nat.ltb_lt; lia).
  split; reflexivity.
Qed.

End MomentumLoops.

#[local] Close Scope nat_scope.

(** ** The gradient step *)

Lemma hasShape_true (rows cols : nat) (m : list (list float)) :
  hasShape rows cols m = true ->
  length m = rows /\ forall i, (i < rows)%nat -> length (nth i m []) = cols.
Proof.
  unfold hasShape. intros H. apply andb_true_iff in H. destruct H as [Hl Hr].
  apply Nat.eqb_eq in Hl. split; [exact Hl |].
  intros i Hi. rewrite forallb_forall in Hr.
  apply Nat.eqb_eq. apply Hr. apply nth_In. lia.
Qed.

Section GradientStep.

Variable mathTanh : float -> float.
Variables (n : Network) (input : list float) (target : float).

Let hidden1 := forwardHidden1 n input.
Let hidden2 := forwardHidden2 n hidden1.
Let delta := outputDeltaOf mathTanh (forwardSum n hidden2) target.
Let layer3 := updateOutputWeights n delta hidden2 (VWeights3 n) (Weights3 n).
Let vb3 := <[0%nat := velocityStep n (at1 (VBias3 n) 0) delta]> (VBias3 n).
Let b3 := <[0%nat := (at1 (Bias3 n) 0 + at1 vb3 0)%float]> (Bias3 n).
Let error2 := hidden2ErrorOf (snd layer3) delta hidden2.
Let layer2 :=
  updateWeights n (fun i j => at1 error2 j * at1 hidden1 i)%float
                256 128 (VWeights2 n) (Weights2 n).
Let bias2 := updateBias n (fun j => at1 error2 j) 128 (VBias2 n) (Bias2 n).
Let error1 := hidden1ErrorOf (snd layer2) error2 hidden1.
Let layer1 :=
  updateWeights n (fun i j => at1 error1 j * at1 input i)%float
                768 256 (VWeights1 n) (Weights1 n).
Let bias1 := updateBias n (fun j => at1 error1 j) 256 (VBias1 n) (Bias1 n).

Lemma Train_unfold :
  Train mathTanh n input target
  = mkNetwork (snd layer1) (snd bias1) (snd layer2) (snd bias2) (snd layer3) b3
              (fst layer1) (fst bias1) (fst layer2) (fst bias2) (fst layer3) vb3
              (LearningRate n) (Momentum n).
Proof. reflexivity. Qed.

Lemma Train_steps :
  wellShaped n = true ->
  (forall j, (j < 128)%nat ->
     momentumUpdate n (at2 (VWeights3 n) j 0) (at2 (Weights3 n) j 0)
                    (delta * at1 hidden2 j)
                    (at2 (fst layer3) j 0) (at2 (snd layer3) j 0))
  /\ momentumUpdate n (at1 (VBias3 n) 0) (at1 (Bias3 n) 0) delta
                    (at1 vb3 0) (at1 b3 0)
  /\ (forall i j, (i < 256)%nat -> (j < 128)%nat ->
        momentumUpdate n (at2 (VWeights2 n) i j) (at2 (Weights2 n) i j)
                       (at1 error2 j * at1 hidden1 i)
                       (at2 (fst layer2) i j) (at2 (snd layer2) i j))
  /\ (forall j, (j < 128)%nat ->
        momentumUpdate n (at1 (VBias2 n) j) (at1 (Bias2 n) j) (at1 error2 j)
                       (at1 (fst bias2) j) (at1 (snd bias2) j))
  /\ (forall i j, (i < 768)%nat -> (j < 256)%nat ->
        momentumUpdate n (at2 (VWeights1 n) i j) (at2 (Weights1 n) i j)
                       (at1 error1 j * at1 input i)
                       (at2 (fst layer1) i j) (at2 (snd layer1) i j))
  /\ (forall j, (j < 256)%nat ->
        momentumUpdate n (at1 (VBias1 n) j) (at1 (Bias1 n) j) (at1 error1 j)
                       (at1 (fst bias1) j) (at1 (snd bias1) j)).
Proof.
  unfold wellShaped. rewrite !andb_true_iff.
  intros (((((((((((Hw1 & Hb1) & Hw2) & Hb2) & Hw3) & Hb3)
               & Hvw1) & Hvb1) & Hvw2) & Hvb2) & Hvw3) & Hvb3).
  apply hasShape_true in Hw1, Hw2, Hw3, Hvw1, Hvw2, Hvw3.
  apply Nat.eqb_eq in Hb1, Hb2, Hb3, Hvb1, Hvb2, Hvb3.
  destruct Hw1 as [Hw1 Hw1r], Hw2 as [Hw2 Hw2r], Hw3 as [Hw3 Hw3r].
  destruct Hvw1 as [Hvw1 Hvw1r], Hvw2 as [Hvw2 Hvw2r], Hvw3 as [Hvw3 Hvw3r].
  split; [| split; [| split; [| split; [| split]]]].
  - intros j Hj. unfold layer3.
    rewrite updateOutputWeights_as_updateWeights.
    apply (steppedWhere_momentum n (fun i j => (i <? 128)%nat && (j <? 1)%nat)
             (fun j _ => delta * at1 hidden2 j)%float).
    + apply updateWeights_spec; try lia;
        intros i Hi; rewrite ?Hw3r, ?Hvw3r by lia; lia.
    + replace (j <? 128)%nat with true by (symmetry; apply Nat.ltb_lt; lia).
      reflexivity.
  - unfold momentumUpdate, b3, vb3. rewrite !at1_insert, Hvb3, Hb3.
    change ((0 =? 0)%nat && (0 <? 1)%nat) with true.
    split; reflexivity.
  - intros i j Hi Hj. unfold layer2.
    apply (steppedWhere_momentum n (fun i j => (i <? 256)%nat && (j <? 128)%nat)
             (fun i j => at1 error2 j * at1 hidden1 i)%float).
    + apply updateWeights_spec; try lia;
        intros i' Hi'; rewrite ?Hw2r, ?Hvw2r by lia; lia.
    + replace (i <? 256)%nat with true by (symmetry; apply Nat.ltb_lt; lia).
      replace (j <? 128)%nat with true by (symmetry; apply Nat.ltb_lt; lia).
      reflexivity.
  - intros j Hj. unfold bias2. apply updateBias_momentum; lia.
  - intros i j Hi Hj. unfold layer1.
    apply (steppedWhere_momentum n (fun i j => (i <? 768)%nat && (j <? 256)%nat)
             (fun i j => at1 error1 j * at1 input i)%float).
    + apply updateWeights_spec; try lia;
        intros i' Hi'; rewrite ?Hw1r, ?Hvw1r by lia; lia.
    + replace (i <? 768)%nat with true by (symmetry; apply Nat.ltb_lt; lia).
      replace (j <? 256)%nat with true by (symmetry; apply Nat.ltb_lt; lia).
      reflexivity.
  - intros j Hj. unfold bias1. apply updateBias_momentum; lia.
Qed.

End GradientStep.

Lemma Network_fields w1 b1 w2 b2 w3 b3 vw1 vb1 vw2 vb2 vw3 vb3 lr mo :
  let n := mkNetwork w1 b1 w2 b2 w3 b3 vw1 vb1 vw2 vb2 vw3 vb3 lr mo in
  Weights1 n = w1 /\ Bias1 n = b1 /\ Weights2 n = w2 /\ Bias2 n = b2
  /\ Weights3 n = w3 /\ Bias3 n = b3
  /\ VWeights1 n = vw1 /\ VBias1 n = vb1 /\ VWeights2 n = vw2 /\ VBias2 n = vb2
  /\ VWeights3 n = vw3 /\ VBias3 n = vb3
  /\ LearningRate n = lr /\ Momentum n = mo.
Proof. cbv zeta. repeat split. Qed.

(** C6, as the code has it.  One call of [Train] on a network of the
    allocated shape steps every parameter once with momentum
    ([velocity = momentum*velocity + learningRate*gradient; weight += velocity]),
    the gradient being the layer's error times its input activation.  The
    output error is [(target - output) * tanh'(sum)] at the weights the
    call started with; the error of a hidden layer is read off the weights
    of the layer above as that layer's step of this same call left them. *)
Theorem Train_backpropagates_through_updated_weights
        (mathTanh : float -> float) (n : Network) (input : list float)
        (target : float) :
  wellShaped n = true ->
  let n' := Train mathTanh n input target in
  let hidden1 := forwardHidden1 n input in
  let hidden2 := forwardHidden2 n hidden1 in
  let delta := outputDeltaOf mathTanh (forwardSum n hidden2) target in
  let error2 := hidden2ErrorOf (Weights3 n') delta hidden2 in
  let error1 := hidden1ErrorOf (Weights2 n') error2 hidden1 in
  (forall j, (j < 128)%nat ->
     momentumUpdate n (at2 (VWeights3 n) j 0) (at2 (Weights3 n) j 0)
                    (delta * at1 hidden2 j)
                    (at2 (VWeights3 n') j 0) (at2 (Weights3 n') j 0))
  /\ momentumUpdate n (at1 (VBias3 n) 0) (at1 (Bias3 n) 0) delta
                    (at1 (VBias3 n') 0) (at1 (Bias3 n') 0)
  /\ (forall i j, (i < 256)%nat -> (j < 128)%nat ->
        momentumUpdate n (at2 (VWeights2 n) i j) (at2 (Weights2 n) i j)
                       (at1 error2 j * at1 hidden1 i)
                       (at2 (VWeights2 n') i j) (at2 (Weights2 n') i j))
  /\ (forall j, (j < 128)%nat ->
        momentumUpdate n (at1 (VBias2 n) j) (at1 (Bias2 n) j) (at1 error2 j)
                       (at1 (VBias2 n') j) (at1 (Bias2 n') j))
  /\ (forall i j, (i < 768)%nat -> (j < 256)%nat ->
        momentumUpdate n (at2 (VWeights1 n) i j) (at2 (Weights1 n) i j)
                       (at1 error1 j * at1 input i)
                       (at2 (VWeights1 n') i j) (at2 (Weights1 n') i j))
  /\ (forall j, (j < 256)%nat ->
        momentumUpdate n (at1 (VBias1 n) j) (at1 (Bias1 n) j) (at1 error1 j)
                       (at1 (VBias1 n') j) (at1 (Bias1 n') j)).
Proof.
  intros Hshape.
  pose proof (Train_steps mathTanh n input target Hshape) as Hs.
  pose proof (Train_unfold mathTanh n input target) as Hu.
  cbv zeta in Hs, Hu |- *. rewrite Hu.
  match goal with
  | |- context [mkNetwork ?w1 ?b1 ?w2 ?b2 ?w3 ?b3 ?vw1 ?vb1 ?vw2 ?vb2 ?vw3 ?vb3
                          ?lr ?mo] =>
      destruct (Network_fields w1 b1 w2 b2 w3 b3 vw1 vb1 vw2 vb2 vw3 vb3 lr mo)
        as (E1 & E2 & E3 & E4 & E5 & E6 & E7 & E8 & E9 & E10 & E11 & E12 & _)
  end.
  rewrite E1, E2, E3, E4, E5, E6, E7, E8, E9, E10, E11, E12.
  exact Hs.
Qed.

Lemma Train_backpropagates_through_updated_weights_witness :
  momentumUpdate zeroNetwork
    (at1 (VBias3 zeroNetwork) 0) (at1 (Bias3 zeroNetwork) 0)
    (outputDeltaOf sampleTanh
       (forwardSum zeroNetwork
          (forwardHidden2 zeroNetwork (forwardHidden1 zeroNetwork zeroInput)))
       1)
    (at1 (VBias3 (Train sampleTanh zeroNetwork zeroInput 1)) 0)
    (at1 (Bias3 (Train sampleTanh zeroNetwork zeroInput 1)) 0).
Proof.
  assert (Hshape : wellShaped zeroNetwork = true) by (vm_compute; reflexivity).
  exact (proj1 (proj2 (Train_backpropagates_through_updated_weights
                         sampleTanh zeroNetwork zeroInput 1%float Hshape))).
Defined.

(** On [cancellingNetwork], the velocity [Train] leaves for the weight
    from the first unit of layer 1 to the first unit of layer 2 is not the
    momentum step along the error propagated through the output weights
    the call started with. *)
Lemma Train_does_not_use_start_weights :
  let n := cancellingNetwork in
  let hidden1 := forwardHidden1 n zeroInput in
  let hidden2 := forwardHidden2 n hidden1 in
  let delta := outputDeltaOf sampleTanh (forwardSum n hidden2) 1 in
  let startError2 := hidden2ErrorOf (Weights3 n) delta hidden2 in
  wellShaped n = true
  /\ (at2 (VWeights2 (Train sampleTanh n zeroInput 1)) 0 0
      =? Momentum n * at2 (VWeights2 n) 0 0
         + LearningRate n * (at1 startError2 0 * at1 hidden1 0))%float
     = false.
Proof.
  cbv zeta. split.
  - vm_cast_no_check (eq_refl true).
  - vm_cast_no_check (eq_refl false).
Qed.

(** ** Legality against the applied move *)

(** C1 at its failing input.  After Black's d7-d5 on [pinBoard], White's
    en-passant capture e5xd6 is accepted by [IsValidMove], because the
    simulation of [wouldBeInCheck] leaves the captured pawn on d5; once
    [MakeMove] has applied the capture and removed that pawn, the white
    king on a5 is attacked by the rook on h5. *)
Theorem IsValidMove_accepts_en_passant_into_check :
  let b1 := MakeMove pinBoard (move 1 3 3 3) in
  let capture := move 3 4 2 3 in
  IsValidMove pinBoard (move 1 3 3 3) = true
  /\ isInCheck b1 White = false
  /\ IsValidMove b1 capture = true
  /\ wouldBeInCheck b1 capture White = false
  /\ cellAt (Cells (MakeMove b1 capture)) 3 3 = emptyCell
  /\ isInCheck (MakeMove b1 capture) White = true.
Proof. vm_compute. repeat split. Qed.

(** The earlier revision makes no check test at all: it lets the king
    step onto an attacked square. *)
Lemma simplified_accepts_king_move_into_check :
  Simplified.IsValidMove castleThroughCheckBoard (move 7 4 7 5) = true
  /\ IsValidMove castleThroughCheckBoard (move 7 4 7 5) = false.
Proof. vm_compute. split; reflexivity. Qed.

(** ** Game-over detection *)

(** C2 at its failing input.  White's Qg1-g6 on [stalemateBoard] leaves
    Black without a legal move and not in check; [MakeMove] ends the game
    with [Winner = White], the very result of White's mating move on
    [mateBoard], and the result block of [PlayGame] scores both games as a
    win for White, while [handleGameEnd] scores the first as a draw. *)
Theorem stalemate_is_recorded_as_white_win :
  let stalemated := MakeMove stalemateBoard (move 7 6 2 6) in
  IsValidMove stalemateBoard (move 7 6 2 6) = true
  /\ GetLegalMoves stalemated = []
  /\ isInCheck stalemated (CurrentTurn stalemated) = false
  /\ GameOver stalemated = true
  /\ Winner stalemated = White
  /\ GetLegalMoves matedBoard = []
  /\ isInCheck matedBoard (CurrentTurn matedBoard) = true
  /\ (GameOver matedBoard, Winner matedBoard)
     = (GameOver stalemated, Winner stalemated)
  /\ selfPlayOutcome stalemated = (TagWhite, 1%float, 0%float)
  /\ selfPlayOutcome matedBoard = selfPlayOutcome stalemated
  /\ handleGameEndReward stalemated White = 0.5%float.
Proof. vm_compute. repeat split. Qed.

(** * Further properties *)

#[local] Open Scope Z_scope.

(** ** The rules read only part of the board *)

Lemma existsb_ext' {A} (f g : A -> bool) (l : list A) :
  (forall x, f x = g x) -> existsb f l = existsb g l.
Proof.
  intros H. induction l as [| x l IH]; [reflexivity |].
  cbn [existsb]. rewrite H, IH. reflexivity.
Qed.

Lemma forallb_ext' {A} (f g : A -> bool) (l : list A) :
  (forall x, f x = g x) -> forallb f l = forallb g l.
Proof.
  intros H. induction l as [| x l IH]; [reflexivity |].
  cbn [forallb]. rewrite H, IH. reflexivity.
Qed.

Lemma isSquareUnderAttack_ext (b1 b2 : Board) (pos : Position) (c : Color) :
  Cells b1 = Cells b2 ->
  isSquareUnderAttack b1 pos c = isSquareUnderAttack b2 pos c.
Proof.
  intros H. unfold isSquareUnderAttack. apply existsb_ext'. intros from.
  unfold attacksFrom, isValidQueenMove, isValidBishopMove, isValidRookMove,
    isPathClear.
  rewrite H. reflexivity.
Qed.

Lemma isInCheck_ext (b1 b2 : Board) (c : Color) :
  Cells b1 = Cells b2 -> isInCheck b1 c = isInCheck b2 c.
Proof.
  intros H. unfold isInCheck, findKing. rewrite H.
  rewrite (isSquareUnderAttack_ext b1 b2) by exact H. reflexivity.
Qed.

Lemma wouldBeInCheck_ext (b1 b2 : Board) (m : Move) (c : Color) :
  Cells b1 = Cells b2 -> wouldBeInCheck b1 m c = wouldBeInCheck b2 m c.
Proof.
  intros H. unfold wouldBeInCheck. apply isInCheck_ext.
  unfold withCells, Clone. cbn [Cells]. rewrite H. reflexivity.
Qed.

Lemma pieceRule_ext (b1 b2 : Board) (m : Move) (piece : Piece) :
  sameRules b1 b2 -> pieceRule b1 m piece = pieceRule b2 m piece.
Proof.
  intros (Hc & _ & Hep & Hwk & Hbk & Hwa & Hwh & Hba & Hbh).
  unfold pieceRule, isValidPawnMove, isValidQueenMove, isValidBishopMove,
    isValidRookMove, isPathClear, isValidKingMove, canCastle, castleRookMoved.
  rewrite Hc, Hep, Hwk, Hbk, Hwa, Hwh, Hba, Hbh.
  destruct (Piece_Type piece); try reflexivity.
  repeat match goal with
         | |- context [isSquareUnderAttack b1 ?p ?c] =>
             rewrite (isSquareUnderAttack_ext b1 b2 p c Hc)
         end.
  assert (Hall : forall cols row c,
             forallb (fun col => negb (isSquareUnderAttack
                                         b1 (mkPosition row col) c)) cols
             = forallb (fun col => negb (isSquareUnderAttack
                                           b2 (mkPosition row col) c)) cols).
  { intros cols row c. apply forallb_ext'. intros col.
    rewrite (isSquareUnderAttack_ext b1 b2 _ c Hc). reflexivity. }
  rewrite Hall. reflexivity.
Qed.

Lemma IsValidMove_ext (b1 b2 : Board) (m : Move) :
  sameRules b1 b2 -> IsValidMove b1 m = IsValidMove b2 m.
Proof.
  intros H. pose proof H as (Hc & Ht & _).
  unfold IsValidMove.
  rewrite (pieceRule_ext b1 b2) by exact H.
  rewrite (wouldBeInCheck_ext b1 b2) by exact Hc.
  rewrite Hc, Ht. reflexivity.
Qed.

Lemma GetLegalMoves_ext (b1 b2 : Board) :
  sameRules b1 b2 -> GetLegalMoves b1 = GetLegalMoves b2.
Proof.
  intros H. pose proof H as (Hc & Ht & _). unfold GetLegalMoves.
  rewrite Hc, Ht. apply flat_map_ext. intros from.
  destruct (isEmpty _ || negb _); [reflexivity |].
  apply filter_ext. intros m. apply IsValidMove_ext. exact H.
Qed.

Lemma sameRules_withResult (b : Board) (over : bool) (w : Color) :
  sameRules (withResult b over w) b.
Proof. repeat split. Qed.

Lemma sameRules_withIsCheck (b : Board) (chk : bool) :
  sameRules (withIsCheck b chk) b.
Proof. repeat split. Qed.

Lemma sameRules_checkGameOver (b : Board) : sameRules (checkGameOver b) b.
Proof.
  unfold checkGameOver.
  destruct (length (GetLegalMoves b) =? 0)%nat;
    [destruct (isInCheck b (CurrentTurn b)) |];
    match goal with |- context [if ?c then _ else _] => destruct c end;
    repeat split.
Qed.

(** ** Legality *)

Lemma filter_flat_map {A B} (f : B -> bool) (g : A -> list B) (l : list A) :
  List.filter f (flat_map g l) = flat_map (fun x => List.filter f (g x)) l.
Proof.
  induction l as [| x l IH]; [reflexivity |].
  cbn [flat_map]. rewrite List.filter_app, IH. reflexivity.
Qed.

Lemma filter_map_none {A B} (f : B -> bool) (g : A -> B) (l : list A) :
  (forall x, f (g x) = false) -> List.filter f (map g l) = [].
Proof.
  intros H. induction l as [| x l IH]; [reflexivity |].
  cbn [map List.filter]. rewrite H. exact IH.
Qed.

Lemma NoDup_map_injective {A B} (f : A -> B) (l : list A) :
  (forall x y, f x = f y -> x = y) -> List.NoDup l -> List.NoDup (map f l).
Proof.
  intros Hinj Hl. induction Hl as [| x l Hx Hl IH]; cbn [map]; constructor.
  - rewrite in_map_iff. intros [y [Hy Hin]]. apply Hinj in Hy. congruence.
  - exact IH.
Qed.

Lemma NoDup_flat_map_disjoint {A B} (g : A -> list B) (l : list A) :
  List.NoDup l ->
  (forall x, List.NoDup (g x)) ->
  (forall x y a, In a (g x) -> In a (g y) -> x = y) ->
  List.NoDup (flat_map g l).
Proof.
  intros Hl Hg Hdis. induction Hl as [| x l Hx Hl IH]; cbn [flat_map].
  - constructor.
  - apply List.NoDup_app; [apply Hg | exact IH |].
    intros a Ha Hb. apply in_flat_map in Hb. destruct Hb as [y [Hy Hay]].
    rewrite (Hdis x y a Ha Hay) in Hx. contradiction.
Qed.

Lemma NoDup_indices8 : List.NoDup indices8.
Proof.
  unfold indices8.
  repeat (constructor; [cbn [In]; intuition discriminate |]). constructor.
Qed.

Lemma NoDup_allSquares : List.NoDup allSquares.
Proof.
  unfold allSquares. apply NoDup_flat_map_disjoint.
  - apply NoDup_indices8.
  - intros row. apply NoDup_map_injective; [| apply NoDup_indices8].
    intros x y H. congruence.
  - intros x y a Hx Hy. apply in_map_iff in Hx, Hy.
    destruct Hx as [c1 [<- _]], Hy as [c2 [H _]]. congruence.
Qed.

Lemma NoDup_allMoves : List.NoDup allMoves.
Proof.
  unfold allMoves. apply NoDup_flat_map_disjoint.
  - apply NoDup_allSquares.
  - intros from. apply NoDup_map_injective; [| apply NoDup_allSquares].
    intros x y H. congruence.
  - intros x y a Hx Hy. apply in_map_iff in Hx, Hy.
    destruct Hx as [c1 [<- _]], Hy as [c2 [H _]]. congruence.
Qed.

(** X2.  [GetLegalMoves] lists exactly the moves [IsValidMove] accepts,
    each once, in scan order: source squares by row then column, and for
    each source the destinations by row then column. *)
Theorem GetLegalMoves_scan_order (b : Board) :
  GetLegalMoves b = List.filter (IsValidMove b) allMoves
  /\ (forall m, In m (GetLegalMoves b) <-> IsValidMove b m = true)
  /\ List.NoDup (GetLegalMoves b).
Proof.
  assert (Heq : GetLegalMoves b = List.filter (IsValidMove b) allMoves).
  { unfold GetLegalMoves, allMoves. rewrite filter_flat_map.
    apply flat_map_ext. intros from.
    destruct (isEmpty (cellAt (Cells b) (Row from) (Col from))
              || negb (Color_eqb (Piece_Color (cellAt (Cells b) (Row from) (Col from)))
                                 (CurrentTurn b))) eqn:Hskip; [| reflexivity].
    symmetry. apply filter_map_none.
    intros to. unfold IsValidMove. cbn [From To].
    destruct (onBoard from); [| reflexivity].
    destruct (onBoard to); [| reflexivity]. cbn [negb].
    apply orb_true_iff in Hskip. destruct Hskip as [-> | ->]; [reflexivity |].
    destruct (isEmpty _); reflexivity. }
  split; [exact Heq |]. split.
  - intros m. split; [apply GetLegalMoves_valid | apply GetLegalMoves_complete].
  - rewrite Heq. apply List.NoDup_filter. apply NoDup_allMoves.
Qed.

(** ** What [MakeMove] records *)

Lemma MakeMove_sameRules (b : Board) (m : Move) :
  sameRules (MakeMove b m) (applyMove b m).
Proof.
  unfold MakeMove.
  pose proof (sameRules_checkGameOver
                (withIsCheck (applyMove b m)
                   (isInCheck (applyMove b m) (CurrentTurn (applyMove b m)))))
    as H.
  unfold sameRules in *. cbn [withIsCheck Cells CurrentTurn EnPassantTarget
    WhiteKingMoved BlackKingMoved WhiteRookAMoved WhiteRookHMoved
    BlackRookAMoved BlackRookHMoved] in H. exact H.
Qed.

Lemma MakeMove_IsCheck (b : Board) (m : Move) :
  IsCheck (MakeMove b m)
  = isInCheck (MakeMove b m) (CurrentTurn (MakeMove b m)).
Proof.
  pose proof (MakeMove_sameRules b m) as (Hc & Ht & _).
  rewrite (isInCheck_ext _ _ _ Hc), Ht.
  unfold MakeMove.
  rewrite (proj2 (proj2 (proj2 (proj2 (checkGameOver_frame _))))).
  reflexivity.
Qed.

(** X3.  After every [MakeMove] the side to move has changed, the move
    counter has grown by one (below the largest [int]), and the [IsCheck]
    flag says whether the side now to move is in check on the new
    board. *)
Theorem MakeMove_bookkeeping (b : Board) (m : Move) :
  CurrentTurn (MakeMove b m) = opponent (CurrentTurn b)
  /\ (- 2 ^ 63 <= MovesCount b < 2 ^ 63 - 1 ->
      MovesCount (MakeMove b m) = MovesCount b + 1)
  /\ IsCheck (MakeMove b m)
     = isInCheck (MakeMove b m) (CurrentTurn (MakeMove b m)).
Proof.
  split; [apply MakeMove_CurrentTurn |]. split; [| apply MakeMove_IsCheck].
  intros H. rewrite MakeMove_MovesCount. unfold wrapInt.
  rewrite Z.mod_small by lia. lia.
Qed.

Lemma MakeMove_bookkeeping_witness :
  MovesCount (MakeMove NewBoard (move 6 4 4 4)) = MovesCount NewBoard + 1.
Proof.
  apply (MakeMove_bookkeeping NewBoard (move 6 4 4 4)).
  vm_compute. split; [discriminate | reflexivity].
Defined.

Lemma MakeMove_outcome (b : Board) (m : Move) :
  (GameOver (MakeMove b m) = true <->
   GameOver b = true \/ GetLegalMoves (MakeMove b m) = []
   \/ MovesCount (MakeMove b m) > 200)
  /\ (MovesCount (MakeMove b m) <= 200 -> GetLegalMoves (MakeMove b m) = [] ->
      Winner (MakeMove b m)
      = if isInCheck (MakeMove b m) (CurrentTurn (MakeMove b m))
        then opponent (CurrentTurn (MakeMove b m)) else White)
  /\ (MovesCount (MakeMove b m) > 200 -> Winner (MakeMove b m) = White)
  /\ (MovesCount (MakeMove b m) <= 200 -> GetLegalMoves (MakeMove b m) <> [] ->
      Winner (MakeMove b m) = Winner b).
Proof.
  pose proof (MakeMove_sameRules b m) as Hsame.
  pose proof Hsame as (Hc & Ht & _).
  set (b2 := withIsCheck (applyMove b m)
               (isInCheck (applyMove b m) (CurrentTurn (applyMove b m)))).
  assert (Hmoves : GetLegalMoves (MakeMove b m) = GetLegalMoves b2).
  { rewrite (GetLegalMoves_ext _ _ Hsame). symmetry.
    apply GetLegalMoves_ext. apply sameRules_withIsCheck. }
  assert (Hchk : isInCheck (MakeMove b m) (CurrentTurn (MakeMove b m))
                 = isInCheck b2 (CurrentTurn b2)).
  { rewrite (isInCheck_ext _ _ _ Hc), Ht. apply isInCheck_ext. reflexivity. }
  assert (Hcount : MovesCount (MakeMove b m) = MovesCount b2).
  { unfold MakeMove.
    rewrite (proj1 (proj2 (proj2 (proj2 (checkGameOver_frame _))))).
    reflexivity. }
  assert (Hturn : CurrentTurn (MakeMove b m) = CurrentTurn b2) by exact Ht.
  rewrite Hmoves, Hchk, Hcount, Hturn.
  assert (Hover2 : GameOver b2 = GameOver b) by reflexivity.
  assert (Hwin2 : Winner b2 = Winner b) by reflexivity.
  rewrite <- Hover2, <- Hwin2.
  change (MakeMove b m) with (checkGameOver b2). clearbody b2.
  unfold checkGameOver.
  destruct (GetLegalMoves b2) as [| m0 rest] eqn:Hl; cbn [length Nat.eqb].
  - destruct (isInCheck b2 (CurrentTurn b2)); cbn [withResult MovesCount];
      destruct (Z.gtb_spec (MovesCount b2) 200);
      cbn [withResult GameOver Winner];
      (repeat split; intros; try lia; try congruence; auto;
       try (destruct (CurrentTurn b2); reflexivity)).
  - destruct (Z.gtb_spec (MovesCount b2) 200);
      cbn [withResult GameOver Winner];
      (repeat split; intros; try lia; try congruence; auto).
    match goal with
    | H : _ \/ _ |- _ => destruct H as [H | [H | H]]; [exact H | discriminate | lia]
    end.
Qed.

(** X4.  Game-over detection of [MakeMove], on the board it returns: the
    game is over exactly if it was over before, or the side to move has
    no legal move, or the move counter exceeds 200.  Within the limit, a
    side without moves that is in check loses to its opponent, and a side
    without moves that is not in check leaves [Winner = White]; beyond
    the limit [Winner] is [White] whatever the position; otherwise
    [Winner] is unchanged.  A finished game is never reopened. *)
Theorem MakeMove_game_over (b : Board) (m : Move) :
  let b' := MakeMove b m in
  (GameOver b' = true <->
   GameOver b = true \/ GetLegalMoves b' = [] \/ MovesCount b' > 200)
  /\ (MovesCount b' <= 200 -> GetLegalMoves b' = [] ->
      Winner b' = if isInCheck b' (CurrentTurn b')
                  then opponent (CurrentTurn b') else White)
  /\ (MovesCount b' > 200 -> Winner b' = White)
  /\ (MovesCount b' <= 200 -> GetLegalMoves b' <> [] -> Winner b' = Winner b).
Proof. exact (MakeMove_outcome b m). Qed.

(** X5.  A board returned by [MakeMove] on which the game is not over has
    a legal move for the side to move: the game loops, which test
    [GameOver] before asking the agent, never ask for a move where none
    exists. *)
Theorem MakeMove_live_board_has_moves (b : Board) (m : Move) :
  GameOver (MakeMove b m) = false -> GetLegalMoves (MakeMove b m) <> [].
Proof.
  intros Hlive Hnone.
  assert (H : GameOver (MakeMove b m) = true)
    by (apply (MakeMove_outcome b m); right; left; exact Hnone).
  congruence.
Qed.

Lemma MakeMove_live_board_has_moves_witness :
  GetLegalMoves (MakeMove NewBoard (move 6 4 4 4)) <> [].
Proof.
  apply MakeMove_live_board_has_moves. vm_compute. reflexivity.
Defined.

(** ** The path walk *)

(** X6.  Between two squares of the board on one row, column or diagonal
    the loop of [isPathClear] ends within the board: it leaves through its
    condition or through the [return false] of an occupied square. *)
Theorem isPathClear_walk_ends (b : Board) (m : Move) :
  onBoard (From m) = true -> onBoard (To m) = true ->
  Row (From m) = Row (To m) \/ Col (From m) = Col (To m)
  \/ Z.abs (Row (To m) - Row (From m)) = Z.abs (Col (To m) - Col (From m)) ->
  let rowStep :=
    if Row (To m) >? Row (From m) then 1
    else if Row (To m) <? Row (From m) then -1 else 0 in
  let colStep :=
    if Col (To m) >? Col (From m) then 1
    else if Col (To m) <? Col (From m) then -1 else 0 in
  exists clear,
    pathLoop 8 (Cells b) rowStep colStep (Row (To m)) (Col (To m))
             (Row (From m) + rowStep) (Col (From m) + colStep) = Some clear
    /\ isPathClear b m = clear.
Proof.
  intros Hf Ht Hline rowStep colStep.
  pose proof (isPathClear_ends b m Hf Ht Hline) as Hends. cbv zeta in Hends.
  unfold isPathClear. fold rowStep colStep in Hends |- *.
  destruct (pathLoop 8 _ _ _ _ _ _ _) as [r |]; [| congruence].
  exists r. split; reflexivity.
Qed.

Lemma isPathClear_walk_ends_witness :
  exists clear,
    pathLoop 8 (Cells NewBoard) (-1) 1 0 7 (7 + -1) (0 + 1) = Some clear
    /\ isPathClear NewBoard (move 7 0 0 7) = clear.
Proof.
  apply (isPathClear_walk_ends NewBoard (move 7 0 0 7));
    vm_compute; auto.
Defined.

(** ** Where the pieces stand after a move *)

Lemma valid_move_squares_differ (b : Board) (m : Move) :
  IsValidMove b m = true ->
  Row (From m) <> Row (To m) \/ Col (From m) <> Col (To m).
Proof.
  intros Hv.
  destruct (Z.eq_dec (Row (From m)) (Row (To m))) as [Hr | Hr]; [| left; exact Hr].
  destruct (Z.eq_dec (Col (From m)) (Col (To m))) as [Hc | Hc]; [| right; exact Hc].
  rewrite same_square_move_invalid in Hv; [discriminate |].
  destruct (From m), (To m). simpl in *. congruence.
Qed.

(** X7.  After a legal move the source square is empty and the
    destination holds the moved piece, except that a pawn arriving on the
    far row (row 0 for White, row 7 for Black) is replaced by a queen of
    its colour. *)
Theorem MakeMove_places_piece (b : Board) (m : Move) :
  IsValidMove b m = true ->
  let piece := cellAt (Cells b) (Row (From m)) (Col (From m)) in
  let farRow := match Piece_Color piece with White => 0 | Black => 7 end in
  cellAt (Cells (MakeMove b m)) (Row (From m)) (Col (From m)) = emptyCell
  /\ cellAt (Cells (MakeMove b m)) (Row (To m)) (Col (To m))
     = if PieceType_eqb (Piece_Type piece) Pawn && (Row (To m) =? farRow)
       then mkPiece Queen (Piece_Color piece) else piece.
Proof.
  intros Hv piece farRow.
  pose proof (valid_move_squares_differ b m Hv) as Hne.
  apply IsValidMove_inv in Hv. destruct Hv as (Hf & Ht & _).
  apply onBoard_spec in Hf, Ht.
  rewrite MakeMove_Cells. unfold movedCells. fold piece.
  set (cells2 := if PieceType_eqb (Piece_Type piece) King && _ then _ else _).
  assert (Hpromo :
            PieceType_eqb (Piece_Type piece) Pawn
            && (Color_eqb (Piece_Color piece) White && (Row (To m) =? 0)
                || Color_eqb (Piece_Color piece) Black && (Row (To m) =? 7))
            = PieceType_eqb (Piece_Type piece) Pawn && (Row (To m) =? farRow)).
  { subst farRow. destruct (Piece_Color piece); cbn [Color_eqb andb orb];
      rewrite ?orb_false_r; reflexivity. }
  rewrite Hpromo.
  destruct (PieceType_eqb (Piece_Type piece) Pawn && (Row (To m) =? farRow)).
  - split.
    + rewrite cellAt_setCell_other by lia.
      apply cellAt_setCell_same; lia.
    + apply cellAt_setCell_same; lia.
  - split.
    + apply cellAt_setCell_same; lia.
    + rewrite cellAt_setCell_other by lia. apply cellAt_setCell_same; lia.
Qed.

Lemma MakeMove_places_piece_witness :
  cellAt (Cells (MakeMove NewBoard (move 6 4 4 4))) 6 4 = emptyCell
  /\ cellAt (Cells (MakeMove NewBoard (move 6 4 4 4))) 4 4 = mkPiece Pawn White.
Proof.
  apply (MakeMove_places_piece NewBoard (move 6 4 4 4)).
  vm_compute. reflexivity.
Defined.

(** X8.  A legal en-passant capture (a pawn's diagonal move onto an empty
    square) empties the square beside the capturing pawn, in the column of
    its destination: the captured pawn is removed. *)
Theorem en_passant_capture_removes_pawn (b : Board) (c : Move) :
  IsValidMove b c = true ->
  Piece_Type (cellAt (Cells b) (Row (From c)) (Col (From c))) = Pawn ->
  Col (To c) <> Col (From c) ->
  isEmpty (cellAt (Cells b) (Row (To c)) (Col (To c))) = true ->
  cellAt (Cells (MakeMove b c)) (Row (From c)) (Col (To c)) = emptyCell.
Proof.
  intros Hv Hpawn Hdiag Hempty.
  pose proof (en_passant_capture_needs_target b c Hv Hpawn Hdiag Hempty) as Hep.
  apply IsValidMove_inv in Hv.
  destruct Hv as (Hf & Ht & _ & _ & _ & Hrule & _).
  apply onBoard_spec in Hf, Ht.
  unfold pieceRule in Hrule. rewrite Hpawn in Hrule.
  unfold isValidPawnMove in Hrule.
  replace (Col (To c) - Col (From c) =? 0) with false in Hrule
    by (symmetry; apply Z.eqb_neq; lia).
  cbn [andb] in Hrule.
  destruct ((abs (Col (To c) - Col (From c)) =? 1)
            && (Row (To c) - Row (From c)
                =? (if Color_eqb (Piece_Color
                                    (cellAt (Cells b) (Row (From c)) (Col (From c))))
                                 Black then 1 else -1))) eqn:Hstep;
    [| discriminate].
  apply andb_true_iff in Hstep. destruct Hstep as [_ Hstep].
  apply Z.eqb_eq in Hstep.
  rewrite MakeMove_Cells. unfold movedCells. rewrite Hpawn, Hep.
  cbn [PieceType_eqb andb]. rewrite !Z.eqb_refl. cbn [andb].
  set (piece := cellAt (Cells b) (Row (From c)) (Col (From c))) in *.
  assert (Hremoved :
            cellAt (if Color_eqb (Piece_Color piece) White
                    then setCell (Cells b) (Row (To c) + 1) (Col (To c)) emptyCell
                    else setCell (Cells b) (Row (To c) - 1) (Col (To c)) emptyCell)
                   (Row (From c)) (Col (To c)) = emptyCell).
  { destruct (Piece_Color piece); cbn [Color_eqb] in *.
    - replace (Row (To c) + 1) with (Row (From c)) by lia.
      apply cellAt_setCell_same; lia.
    - replace (Row (To c) - 1) with (Row (From c)) by lia.
      apply cellAt_setCell_same; lia. }
  assert (Hrows : Row (From c) <> Row (To c))
    by (destruct (Color_eqb (Piece_Color piece) Black); lia).
  destruct (_ || _);
    repeat rewrite cellAt_setCell_other by lia; exact Hremoved.
Qed.

Lemma en_passant_capture_removes_pawn_witness :
  cellAt (Cells (MakeMove (MakeMove enPassantBoard (move 1 3 3 3))
                          (move 3 4 2 3))) 3 3 = emptyCell.
Proof.
  apply (en_passant_capture_removes_pawn
           (MakeMove enPassantBoard (move 1 3 3 3)) (move 3 4 2 3));
    vm_compute; first [reflexivity | discriminate].
Defined.

(** ** Castling *)

Lemma canCastle_rook (b : Board) (m : Move) (piece : Piece) :
  canCastle b m piece = true ->
  cellAt (Cells b) (Row (From m)) (castleRookCol (Col (To m) >? Col (From m)))
  = mkPiece Rook (Piece_Color piece).
Proof.
  unfold canCastle. intros H.
  destruct (Color_eqb (Piece_Color piece) White && WhiteKingMoved b);
    [discriminate |].
  destruct (Color_eqb (Piece_Color piece) Black && BlackKingMoved b);
    [discriminate |].
  destruct (castleRookMoved b (Piece_Color piece) (Col (To m) >? Col (From m)));
    [discriminate |].
  destruct (negb _ || negb _) eqn:Hrook in H; [discriminate |].
  apply orb_false_iff in Hrook. destruct Hrook as [Ht Hc].
  apply negb_false_iff in Ht, Hc.
  apply PieceType_eqb_eq in Ht. apply Color_eqb_eq in Hc.
  destruct (cellAt (Cells b) (Row (From m)) _) as [ty co].
  cbn [Piece_Type Piece_Color] in Ht, Hc. congruence.
Qed.

Lemma valid_king_double_step (b : Board) (m : Move) :
  IsValidMove b m = true ->
  Piece_Type (cellAt (Cells b) (Row (From m)) (Col (From m))) = King ->
  Z.abs (Col (To m) - Col (From m)) = 2 ->
  Row (To m) = Row (From m)
  /\ canCastle b m (cellAt (Cells b) (Row (From m)) (Col (From m))) = true.
Proof.
  intros Hv Hking Hcols.
  apply IsValidMove_inv in Hv.
  destruct Hv as (_ & _ & _ & _ & _ & Hrule & _).
  unfold pieceRule in Hrule. rewrite Hking in Hrule.
  unfold isValidKingMove in Hrule. rewrite !abs_spec, Hcols in Hrule.
  replace (2 <=? 1) with false in Hrule by reflexivity.
  rewrite andb_false_r in Hrule.
  destruct (Z.abs (Row (To m) - Row (From m)) =? 0) eqn:Hrow;
    [| discriminate].
  apply Z.eqb_eq in Hrow. split; [lia | exact Hrule].
Qed.

Lemma MakeMove_kingMoved (b : Board) (m : Move) (c : Color) :
  kingMoved (MakeMove b m) c
  = PieceType_eqb (Piece_Type (cellAt (Cells b) (Row (From m)) (Col (From m)))) King
    && Color_eqb (Piece_Color (cellAt (Cells b) (Row (From m)) (Col (From m)))) c
    || kingMoved b c.
Proof.
  destruct (MakeMove_sameRules b m) as (_ & _ & _ & Hw & Hb & _).
  unfold kingMoved.
  destruct c; [rewrite Hw | rewrite Hb];
    cbn [applyMove WhiteKingMoved BlackKingMoved];
    destruct (PieceType_eqb _ King);
    destruct (Piece_Color _); reflexivity.
Qed.

(** X9.  A legal two-column move of a king that stands on column e is a
    castling move: the king stays on its row, the rook of its colour
    comes from the corner to the square the king passed over, the corner
    and the king's square are left empty, and the king counts as moved. *)
Theorem MakeMove_castles (b : Board) (m : Move) :
  IsValidMove b m = true ->
  Piece_Type (cellAt (Cells b) (Row (From m)) (Col (From m))) = King ->
  Col (From m) = 4 ->
  Z.abs (Col (To m) - 4) = 2 ->
  let king := cellAt (Cells b) (Row (From m)) (Col (From m)) in
  let rook := mkPiece Rook (Piece_Color king) in
  let after := cellAt (Cells (MakeMove b m)) (Row (From m)) in
  Row (To m) = Row (From m)
  /\ kingMoved (MakeMove b m) (Piece_Color king) = true
  /\ after 4 = emptyCell
  /\ (if Col (To m) >? 4
      then after 5 = rook /\ after 6 = king /\ after 7 = emptyCell
      else after 3 = rook /\ after 2 = king /\ after 0 = emptyCell).
Proof.
  intros Hv Hking Hfrom Hcols king rook after.
  assert (Hcols' : Z.abs (Col (To m) - Col (From m)) = 2) by (rewrite Hfrom; exact Hcols).
  destruct (valid_king_double_step b m Hv Hking Hcols') as [Hrow Hcastle].
  apply canCastle_rook in Hcastle.
  apply IsValidMove_inv in Hv. destruct Hv as (Hf & _).
  apply onBoard_spec in Hf. destruct Hf as [Hr _].
  split; [exact Hrow |]. split.
  { rewrite MakeMove_kingMoved. unfold king. rewrite Hking.
    destruct (Piece_Color _); reflexivity. }
  subst after rook king. cbv beta. rewrite MakeMove_Cells. unfold movedCells.
  rewrite Hking, Hrow, Hfrom in *.
  cbn [PieceType_eqb andb]. rewrite abs_spec, Hcols.
  change (2 =? 2) with true. cbv iota.
  unfold castleRookCol in Hcastle.
  destruct (Col (To m) >? 4) eqn:Hside.
  - assert (Hto : Col (To m) = 6) by lia. rewrite Hto.
    split; [apply cellAt_setCell_same; lia |].
    split; [| split].
    + repeat rewrite cellAt_setCell_other by lia.
      rewrite cellAt_setCell_same by lia. exact Hcastle.
    + rewrite cellAt_setCell_other by lia. apply cellAt_setCell_same; lia.
    + repeat rewrite cellAt_setCell_other by lia.
      apply cellAt_setCell_same; lia.
  - assert (Hto : Col (To m) = 2) by lia. rewrite Hto.
    split; [apply cellAt_setCell_same; lia |].
    split; [| split].
    + repeat rewrite cellAt_setCell_other by lia.
      rewrite cellAt_setCell_same by lia. exact Hcastle.
    + rewrite cellAt_setCell_other by lia. apply cellAt_setCell_same; lia.
    + repeat rewrite cellAt_setCell_other by lia.
      apply cellAt_setCell_same; lia.
Qed.

Lemma MakeMove_castles_witness :
  cellAt (Cells (MakeMove castleBoard (move 7 4 7 6))) 7 5 = mkPiece Rook White
  /\ cellAt (Cells (MakeMove castleBoard (move 7 4 7 6))) 7 6 = mkPiece King White
  /\ cellAt (Cells (MakeMove castleBoard (move 7 4 7 6))) 7 7 = emptyCell.
Proof.
  apply (MakeMove_castles castleBoard (move 7 4 7 6)); vm_compute; reflexivity.
Defined.

Lemma kingMoved_stays (ms : list Move) (b : Board) (c : Color) :
  kingMoved b c = true -> kingMoved (fold_left MakeMove ms b) c = true.
Proof.
  revert b. induction ms as [| m ms IH]; intros b H; [exact H |].
  cbn [fold_left]. apply IH. rewrite MakeMove_kingMoved, H. apply orb_true_r.
Qed.

(** X10.  Castling rights are lost for good: once a king has been moved
    by [MakeMove], then after any further moves no two-column move of a
    king of that colour is legal. *)
Theorem no_castling_after_king_move
        (b : Board) (m : Move) (ms : list Move) (castle : Move) :
  let king := cellAt (Cells b) (Row (From m)) (Col (From m)) in
  let later := fold_left MakeMove ms (MakeMove b m) in
  let king' := cellAt (Cells later) (Row (From castle)) (Col (From castle)) in
  Piece_Type king = King ->
  Piece_Type king' = King ->
  Piece_Color king' = Piece_Color king ->
  Z.abs (Col (To castle) - Col (From castle)) = 2 ->
  IsValidMove later castle = false.
Proof.
  intros king later king' Hking Hking' Hcol Hcols.
  destruct (IsValidMove later castle) eqn:Hv; [| reflexivity].
  destruct (valid_king_double_step later castle Hv Hking' Hcols) as [_ Hcastle].
  apply canCastle_requirements in Hcastle. destruct Hcastle as [Hflag _].
  fold king' in Hflag. rewrite Hcol in Hflag.
  assert (Hmoved : kingMoved later (Piece_Color king) = true).
  { apply kingMoved_stays. rewrite MakeMove_kingMoved. fold king.
    rewrite Hking. destruct (Piece_Color king); reflexivity. }
  congruence.
Qed.

Lemma no_castling_after_king_move_witness :
  IsValidMove
    (fold_left MakeMove [move 0 4 0 3; move 6 4 7 4; move 0 3 0 4]
               (MakeMove castleBoard (move 7 4 6 4)))
    (move 7 4 7 6) = false.
Proof.
  apply (no_castling_after_king_move
           castleBoard (move 7 4 6 4)
           [move 0 4 0 3; move 6 4 7 4; move 0 3 0 4] (move 7 4 7 6));
    vm_compute; reflexivity.
Defined.

(** ** Finding the king *)

(** X11.  [findKing] returns a square of the board that holds the king of
    the colour asked for, and (-1, -1) exactly when no square of the board
    holds one. *)
Theorem findKing_spec (b : Board) (c : Color) :
  (onBoard (findKing b c) = true
   /\ cellAt (Cells b) (Row (findKing b c)) (Col (findKing b c)) = mkPiece King c)
  \/ (findKing b c = mkPosition (-1) (-1)
      /\ forall p, onBoard p = true ->
                   cellAt (Cells b) (Row p) (Col p) <> mkPiece King c).
Proof.
  unfold findKing.
  destruct (List.find _ allSquares) as [p |] eqn:Hfind.
  - left. apply List.find_some in Hfind. destruct Hfind as [Hin Hp].
    apply allSquares_spec in Hin. split; [exact Hin |].
    apply andb_true_iff in Hp. destruct Hp as [Ht Hc].
    apply PieceType_eqb_eq in Ht. apply Color_eqb_eq in Hc.
    destruct (cellAt (Cells b) (Row p) (Col p)) as [ty co].
    cbn [Piece_Type Piece_Color] in Ht, Hc. congruence.
  - right. split; [reflexivity |]. intros p Hp Hcell.
    apply allSquares_spec in Hp.
    pose proof (List.find_none _ _ Hfind p Hp) as Hnone.
    cbv beta zeta in Hnone. rewrite Hcell in Hnone.
    cbn [Piece_Type Piece_Color PieceType_eqb andb] in Hnone.
    destruct c; discriminate.
Qed.

(** ** Check after a move *)

Lemma sameButOwnPieces_isEmpty (c : Color) (g1 g2 : Grid) (row col : Z) :
  sameButOwnPieces c g1 g2 ->
  isEmpty (cellAt g1 row col) = isEmpty (cellAt g2 row col).
Proof.
  intros H. destruct (H row col) as [-> | (H1 & H2 & _)]; congruence.
Qed.

Lemma pathLoop_occupancy (g1 g2 : Grid) (fuel : nat)
      (rowStep colStep toRow toCol row col : Z) :
  (forall r c, isEmpty (cellAt g1 r c) = isEmpty (cellAt g2 r c)) ->
  pathLoop fuel g1 rowStep colStep toRow toCol row col
  = pathLoop fuel g2 rowStep colStep toRow toCol row col.
Proof.
  intros H. revert row col.
  induction fuel as [| fuel IH]; intros row col; [reflexivity |].
  cbn [pathLoop]. rewrite H, IH. reflexivity.
Qed.

Lemma isPathClear_occupancy (b1 b2 : Board) (m : Move) :
  (forall r c, isEmpty (cellAt (Cells b1) r c) = isEmpty (cellAt (Cells b2) r c)) ->
  isPathClear b1 m = isPathClear b2 m.
Proof.
  intros H. unfold isPathClear.
  rewrite (pathLoop_occupancy (Cells b1) (Cells b2)) by exact H. reflexivity.
Qed.

Lemma find_ext' {A : Type} (f g : A -> bool) (l : list A) :
  (forall x, f x = g x) -> List.find f l = List.find g l.
Proof.
  intros H. induction l as [| x l IH]; [reflexivity |].
  cbn [List.find]. rewrite H, IH. reflexivity.
Qed.

Lemma isInCheck_own_pieces (b1 b2 : Board) (c : Color) :
  sameButOwnPieces c (Cells b1) (Cells b2) ->
  isInCheck b1 c = isInCheck b2 c.
Proof.
  intros H.
  assert (Hocc : forall r col,
             isEmpty (cellAt (Cells b1) r col) = isEmpty (cellAt (Cells b2) r col))
    by (intros r col; apply (sameButOwnPieces_isEmpty c); exact H).
  assert (Hking : findKing b1 c = findKing b2 c).
  { unfold findKing. rewrite (find_ext' _
      (fun p =>
         let piece := cellAt (Cells b2) (Row p) (Col p) in
         PieceType_eqb (Piece_Type piece) King
         && Color_eqb (Piece_Color piece) c)); [reflexivity |].
    intros p. cbv zeta.
    destruct (H (Row p) (Col p)) as [-> | (_ & _ & _ & _ & H1 & H2)];
      [reflexivity |].
    destruct (PieceType_eqb (Piece_Type (cellAt (Cells b1) (Row p) (Col p))) King)
      eqn:E1; [apply PieceType_eqb_eq in E1; congruence |].
    destruct (PieceType_eqb (Piece_Type (cellAt (Cells b2) (Row p) (Col p))) King)
      eqn:E2; [apply PieceType_eqb_eq in E2; congruence |].
    reflexivity. }
  unfold isInCheck. rewrite Hking.
  destruct (Row (findKing b2 c) =? -1); [reflexivity |].
  unfold isSquareUnderAttack. apply existsb_ext'. intros from.
  unfold attacksFrom. cbv zeta.
  destruct (H (Row from) (Col from)) as [-> | (E1 & E2 & C1 & C2 & _)].
  - unfold isValidQueenMove, isValidBishopMove, isValidRookMove.
    rewrite !(isPathClear_occupancy b1 b2) by exact Hocc. reflexivity.
  - rewrite E1, E2, C1, C2.
    assert (Hc : Color_eqb c (opponent c) = false) by (destruct c; reflexivity).
    rewrite Hc. cbn [orb negb]. reflexivity.
Qed.

(** X12.  A legal move that is neither a castling move nor a pawn's move
    onto the en-passant target leaves the mover's own king out of check
    on the board [MakeMove] produces, promotion included. *)
Theorem legal_move_keeps_own_king_safe (b : Board) (m : Move) :
  IsValidMove b m = true ->
  (Piece_Type (cellAt (Cells b) (Row (From m)) (Col (From m))) = King ->
   Z.abs (Col (To m) - Col (From m)) <> 2) ->
  (Piece_Type (cellAt (Cells b) (Row (From m)) (Col (From m))) = Pawn ->
   EnPassantTarget b <> Some (To m)) ->
  isInCheck (MakeMove b m) (CurrentTurn b) = false.
Proof.
  intros Hv Hcastle Hep.
  pose proof (valid_move_squares_differ b m Hv) as Hne.
  apply IsValidMove_inv in Hv.
  destruct Hv as (Hf & Ht & Hocc & Hturn & _ & _ & Hsafe).
  apply onBoard_spec in Ht.
  rewrite Hturn in Hsafe. rewrite <- Hsafe.
  unfold wouldBeInCheck. apply isInCheck_own_pieces.
  rewrite MakeMove_Cells.
  cbn [withCells Clone Cells].
  unfold movedCells.
  set (piece := cellAt (Cells b) (Row (From m)) (Col (From m))) in *.
  assert (Hnoep :
            PieceType_eqb (Piece_Type piece) Pawn
            && match EnPassantTarget b with
               | Some ep => (Row (To m) =? Row ep) && (Col (To m) =? Col ep)
               | None => false
               end = false).
  { destruct (PieceType_eqb (Piece_Type piece) Pawn) eqn:Hp; [| reflexivity].
    apply PieceType_eqb_eq in Hp. specialize (Hep Hp).
    destruct (EnPassantTarget b) as [ep |]; [| reflexivity].
    cbn [andb].
    destruct ((Row (To m) =? Row ep) && (Col (To m) =? Col ep)) eqn:Heq;
      [| reflexivity].
    apply andb_true_iff in Heq. destruct Heq as [Hr Hc].
    apply Z.eqb_eq in Hr, Hc. exfalso. apply Hep.
    destruct (To m), ep. simpl in *. congruence. }
  assert (Hnocastle :
            PieceType_eqb (Piece_Type piece) King
            && (abs (Col (To m) - Col (From m)) =? 2) = false).
  { destruct (PieceType_eqb (Piece_Type piece) King) eqn:Hk; [| reflexivity].
    apply PieceType_eqb_eq in Hk. specialize (Hcastle Hk).
    cbn [andb]. rewrite abs_spec. apply Z.eqb_neq. exact Hcastle. }
  rewrite Hnoep, Hnocastle.
  destruct (PieceType_eqb (Piece_Type piece) Pawn
            && (Color_eqb (Piece_Color piece) White && (Row (To m) =? 0)
                || Color_eqb (Piece_Color piece) Black && (Row (To m) =? 7)))
    eqn:Hpromo;
    [| intros row col; left; reflexivity].
  apply andb_true_iff in Hpromo. destruct Hpromo as [Hpawn _].
  apply PieceType_eqb_eq in Hpawn.
  intros row col.
  destruct (Z.eq_dec (Row (To m)) row) as [<- | Hr];
    [destruct (Z.eq_dec (Col (To m)) col) as [<- | Hc] |].
  - right.
    rewrite cellAt_setCell_same by lia.
    rewrite cellAt_setCell_other by lia.
    rewrite cellAt_setCell_same by lia.
    cbn [Piece_Type Piece_Color]. rewrite Hpawn.
    repeat split; try assumption; try discriminate.
  - left. apply cellAt_setCell_other. right. exact Hc.
  - left. apply cellAt_setCell_other. left. exact Hr.
Qed.

Lemma legal_move_keeps_own_king_safe_witness :
  isInCheck (MakeMove NewBoard (move 6 4 4 4)) (CurrentTurn NewBoard) = false.
Proof.
  apply (legal_move_keeps_own_king_safe NewBoard (move 6 4 4 4));
    vm_compute; first [reflexivity | discriminate].
Defined.

(** ** The two revisions of board.go *)

Lemma canCastle_simplified (b : Board) (m : Move) (piece : Piece) :
  canCastle b m piece = true -> Simplified.canCastle b m piece = true.
Proof.
  unfold canCastle, Simplified.canCastle. intros H.
  destruct (Color_eqb (Piece_Color piece) White && WhiteKingMoved b);
    [discriminate |].
  destruct (Color_eqb (Piece_Color piece) Black && BlackKingMoved b);
    [discriminate |].
  destruct (castleRookMoved b (Piece_Color piece) (Col (To m) >? Col (From m)));
    [discriminate |].
  destruct (negb _ || negb _) in H |- *; [discriminate |].
  destruct (forallb _ (colsFromTo _ _)) in H |- *; [reflexivity | discriminate].
Qed.

Lemma IsValidMove_simplified (b : Board) (m : Move) :
  IsValidMove b m = true -> Simplified.IsValidMove b m = true.
Proof.
  unfold IsValidMove, Simplified.IsValidMove. intros H.
  destruct (negb (onBoard (From m))); [discriminate |].
  destruct (negb (onBoard (To m))); [discriminate |].
  cbv zeta in H |- *.
  destruct (isEmpty (cellAt (Cells b) (Row (From m)) (Col (From m))));
    [discriminate |].
  destruct (negb (Color_eqb _ (CurrentTurn b))); [discriminate |].
  destruct (negb _ && Color_eqb _ _) in H |- *; [discriminate |].
  destruct (pieceRule b m _) eqn:Hrule; [| discriminate].
  clear H. unfold pieceRule in Hrule.
  destruct (Piece_Type (cellAt (Cells b) (Row (From m)) (Col (From m))));
    try exact Hrule.
  unfold isValidKingMove in Hrule. unfold Simplified.isValidKingMove.
  destruct ((abs (Row (To m) - Row (From m)) <=? 1)
            && (abs (Col (To m) - Col (From m)) <=? 1)); [reflexivity |].
  destruct ((abs (Row (To m) - Row (From m)) =? 0)
            && (abs (Col (To m) - Col (From m)) =? 2)); [| discriminate].
  apply canCastle_simplified. exact Hrule.
Qed.

(** X13.  The later revision of board.go only removes moves: every move
    it lists as legal is listed by the earlier revision too, which makes
    no check test. *)
Theorem later_revision_only_removes_moves (b : Board) (m : Move) :
  In m (GetLegalMoves b) -> In m (Simplified.GetLegalMoves b).
Proof.
  unfold GetLegalMoves, Simplified.GetLegalMoves.
  rewrite !in_flat_map. intros (from & Hfrom & Hin).
  exists from. split; [exact Hfrom |].
  cbv zeta in Hin |- *.
  destruct (isEmpty _ || negb _); [exact Hin |].
  apply List.filter_In in Hin. apply List.filter_In.
  destruct Hin as [Hm Hv]. split; [exact Hm |].
  apply IsValidMove_simplified. exact Hv.
Qed.

Lemma later_revision_only_removes_moves_witness :
  In (move 6 4 4 4) (Simplified.GetLegalMoves NewBoard).
Proof.
  apply (later_revision_only_removes_moves NewBoard (move 6 4 4 4)).
  apply GetLegalMoves_complete. vm_compute. reflexivity.
Defined.

(** ** The input vector of the network *)

Lemma nth_flat_map_uniform {A B : Type} (f : A -> list B) (l : list A)
      (k i j : nat) (d : B) (a0 : A) :
  (forall x, length (f x) = k) -> (i < length l)%nat -> (j < k)%nat ->
  nth (i * k + j) (flat_map f l) d = nth j (f (nth i l a0)) d.
Proof.
  intros Hk. revert i. induction l as [| x l IH]; intros i Hi Hj.
  - cbn [length] in Hi. lia.
  - cbn [flat_map]. destruct i as [| i].
    + cbn [nth Nat.mul Nat.add]. apply app_nth1. rewrite Hk. exact Hj.
    + rewrite app_nth2 by (rewrite Hk; lia). rewrite Hk.
      replace (S i * k + j - k)%nat with (i * k + j)%nat by lia.
      cbn [nth]. apply IH; [cbn [length] in Hi; lia | exact Hj].
Qed.

Lemma length_flat_map_uniform {A B : Type} (f : A -> list B) (l : list A)
      (k : nat) :
  (forall x, length (f x) = k) -> length (flat_map f l) = (length l * k)%nat.
Proof.
  intros Hk. induction l as [| x l IH]; [reflexivity |].
  cbn [flat_map length]. rewrite length_app, Hk, IH. lia.
Qed.

Lemma nth_map_within {A B : Type} (f : A -> B) (l : list A) (i : nat)
      (d : B) (a0 : A) :
  (i < length l)%nat -> nth i (map f l) d = f (nth i l a0).
Proof.
  revert i. induction l as [| x l IH]; intros i Hi; cbn [length] in Hi; [lia |].
  destruct i as [| i]; [reflexivity |]. cbn [map nth]. apply IH. lia.
Qed.

Lemma nth_indices8 (i : nat) : (i < 8)%nat -> nth i indices8 0 = Z.of_nat i.
Proof.
  intros H. do 8 (destruct i as [| i]; [reflexivity |]). lia.
Qed.

(** The test of [boardToVector] for one plane and one square. *)
Lemma boardToVector_nth (b : Board) (plane row col : nat) :
  (plane < 12)%nat -> (row < 8)%nat -> (col < 8)%nat ->
  nth (plane * 64 + row * 8 + col) (boardToVector b) 0%float
  = let piece := cellAt (Cells b) (Z.of_nat row) (Z.of_nat col) in
    if PieceType_eqb (Piece_Type piece) (nth (plane mod 6) pieceTypes Empty)
       && Color_eqb (Piece_Color piece)
                    (if (6 <=? plane)%nat then Black else White)
    then 1%float else 0%float.
Proof.
  intros Hp Hr Hc. unfold boardToVector.
  rewrite <- Nat.add_assoc.
  rewrite (nth_flat_map_uniform _ _ 64 plane (row * 8 + col) _ 0%nat).
  - rewrite seq_nth by exact Hp. cbn [Nat.add].
    rewrite (nth_flat_map_uniform _ _ 8 row col _ 0).
    + rewrite nth_indices8 by exact Hr.
      rewrite (nth_map_within _ _ _ _ 0) by exact Hc.
      rewrite nth_indices8 by exact Hc. reflexivity.
    + intros x. rewrite length_map. reflexivity.
    + exact Hr.
    + exact Hc.
  - intros x. rewrite (length_flat_map_uniform _ _ 8);
      [reflexivity | intros y; rewrite length_map; reflexivity].
  - rewrite length_seq. exact Hp.
  - lia.
Qed.

Lemma boardToVector_length (b : Board) : length (boardToVector b) = 768%nat.
Proof.
  unfold boardToVector. rewrite (length_flat_map_uniform _ _ 64).
  - reflexivity.
  - intros x. rewrite (length_flat_map_uniform _ _ 8);
      [reflexivity | intros y; rewrite length_map; reflexivity].
Qed.

(** X14.  [boardToVector] returns 768 numbers, the input size [Forward]
    and [Train] read; entry [plane*64 + row*8 + col] is 1 when the square
    holds the piece of the plane (planes 0 to 5: White's pawn, knight,
    bishop, rook, queen, king; planes 6 to 11: Black's) and 0 otherwise. *)
Theorem boardToVector_layout (b : Board) :
  length (boardToVector b) = 768%nat
  /\ forall plane row col : nat,
      (plane < 12)%nat -> (row < 8)%nat -> (col < 8)%nat ->
      nth (plane * 64 + row * 8 + col) (boardToVector b) 0%float
      = if PieceType_eqb
             (Piece_Type (cellAt (Cells b) (Z.of_nat row) (Z.of_nat col)))
             (nth (plane mod 6) pieceTypes Empty)
           && Color_eqb
                (Piece_Color (cellAt (Cells b) (Z.of_nat row) (Z.of_nat col)))
                (if (6 <=? plane)%nat then Black else White)
        then 1%float else 0%float.
Proof.
  split; [apply boardToVector_length |].
  intros plane row col Hp Hr Hc. apply boardToVector_nth; assumption.
Qed.

Lemma float_one_not_zero : 1%float <> 0%float.
Proof.
  intros H. apply (f_equal (fun x => PrimFloat.eqb x 1)) in H.
  vm_compute in H. discriminate.
Qed.

Lemma piece_plane (p : Piece) :
  isEmpty p = false ->
  exists plane : nat,
    (plane < 12)%nat
    /\ nth (plane mod 6) pieceTypes Empty = Piece_Type p
    /\ (if (6 <=? plane)%nat then Black else White) = Piece_Color p.
Proof.
  destruct p as [ty co]. unfold isEmpty. cbn [Piece_Type Piece_Color].
  intros H.
  destruct ty, co; try discriminate.
  - exists 0%nat. repeat split. lia.
  - exists 6%nat. repeat split. lia.
  - exists 1%nat. repeat split. lia.
  - exists 7%nat. repeat split. lia.
  - exists 2%nat. repeat split. lia.
  - exists 8%nat. repeat split. lia.
  - exists 3%nat. repeat split. lia.
  - exists 9%nat. repeat split. lia.
  - exists 4%nat. repeat split. lia.
  - exists 10%nat. repeat split. lia.
  - exists 5%nat. repeat split. lia.
  - exists 11%nat. repeat split. lia.
Qed.

Lemma boardToVector_reads_piece (b1 b2 : Board) (row col : nat) :
  boardToVector b1 = boardToVector b2 ->
  (row < 8)%nat -> (col < 8)%nat ->
  isEmpty (cellAt (Cells b1) (Z.of_nat row) (Z.of_nat col)) = false ->
  cellAt (Cells b1) (Z.of_nat row) (Z.of_nat col)
  = cellAt (Cells b2) (Z.of_nat row) (Z.of_nat col).
Proof.
  intros Hvec Hr Hc Hocc.
  destruct (piece_plane _ Hocc) as (plane & Hp & Hty & Hco).
  pose proof (boardToVector_nth b1 plane row col Hp Hr Hc) as H1.
  pose proof (boardToVector_nth b2 plane row col Hp Hr Hc) as H2.
  rewrite Hvec in H1. rewrite H2 in H1. clear H2. cbv zeta in H1.
  rewrite Hty, Hco in H1.
  set (p1 := cellAt (Cells b1) (Z.of_nat row) (Z.of_nat col)) in *.
  set (p2 := cellAt (Cells b2) (Z.of_nat row) (Z.of_nat col)) in *.
  replace (PieceType_eqb (Piece_Type p1) (Piece_Type p1)) with true in H1
    by (symmetry; apply PieceType_eqb_eq; reflexivity).
  replace (Color_eqb (Piece_Color p1) (Piece_Color p1)) with true in H1
    by (symmetry; apply Color_eqb_eq; reflexivity).
  cbn [andb] in H1.
  destruct (PieceType_eqb (Piece_Type p2) (Piece_Type p1)) eqn:Et;
    [| cbn [andb] in H1; symmetry in H1; destruct (float_one_not_zero H1)].
  destruct (Color_eqb (Piece_Color p2) (Piece_Color p1)) eqn:Ec;
    [| cbn [andb] in H1; symmetry in H1; destruct (float_one_not_zero H1)].
  apply PieceType_eqb_eq in Et. apply Color_eqb_eq in Ec.
  clearbody p1 p2. destruct p1 as [t1 c1], p2 as [t2 c2].
  cbn [Piece_Type Piece_Color] in Et, Ec. congruence.
Qed.

(** X15.  The input vector determines the position of the pieces: two
    boards with the same vector have, on every square, either the same
    piece or no piece at all. *)
Theorem boardToVector_faithful (b1 b2 : Board) (row col : nat) :
  boardToVector b1 = boardToVector b2 ->
  (row < 8)%nat -> (col < 8)%nat ->
  let p1 := cellAt (Cells b1) (Z.of_nat row) (Z.of_nat col) in
  let p2 := cellAt (Cells b2) (Z.of_nat row) (Z.of_nat col) in
  p1 = p2 \/ (isEmpty p1 = true /\ isEmpty p2 = true).
Proof.
  intros Hvec Hr Hc p1 p2.
  destruct (isEmpty p1) eqn:E1.
  - destruct (isEmpty p2) eqn:E2.
    + right. split; reflexivity.
    + left. symmetry.
      apply (boardToVector_reads_piece b2 b1 row col); auto.
  - left. apply (boardToVector_reads_piece b1 b2 row col); auto.
Qed.

Lemma boardToVector_faithful_witness :
  cellAt (Cells (Clone NewBoard)) (Z.of_nat 7) (Z.of_nat 4)
  = cellAt (Cells NewBoard) (Z.of_nat 7) (Z.of_nat 4)
  \/ (isEmpty (cellAt (Cells (Clone NewBoard)) (Z.of_nat 7) (Z.of_nat 4)) = true
      /\ isEmpty (cellAt (Cells NewBoard) (Z.of_nat 7) (Z.of_nat 4)) = true).
Proof.
  apply (boardToVector_faithful (Clone NewBoard) NewBoard 7 4);
    [reflexivity | lia | lia].
Defined.

(** ** The two revisions of the training step of self-play *)

Section SharedTraining.

Variable mathTanh : float -> float.

Lemma Learn_network_steps (a : Agent) (net : Network) (r : float) :
  snd (Learn mathTanh a net r)
  = fold_left
      (fun net example => Train mathTanh net (fst example) (snd example))
      (map (fun k =>
              (nth (length (StateHistory a) - 1 - k) (StateHistory a) [],
               discounted r (Gamma a) k))
           (seq 0 (length (StateHistory a))))
      net.
Proof.
  unfold Learn. destruct (StateHistory a) as [| s rest] eqn:Hh.
  - reflexivity.
  - rewrite <- Hh. replace (length (StateHistory a) =? 0)%nat with false
      by (rewrite Hh; reflexivity).
    cbn [snd]. apply learnLoop_steps.
Qed.

Lemma Learn_agent (a : Agent) (net : Network) (r : float) :
  StateHistory a <> [] -> fst (Learn mathTanh a net r) = decayEpsilon a.
Proof.
  intros H. unfold Learn. destruct (StateHistory a); [congruence |]. reflexivity.
Qed.

(** X16.  The two revisions of [PlayGame] train the shared network by the
    same steps in the same order: the single pass of [trainSharedNetwork]
    over White's and then Black's experiences leaves the network that
    [Learn] for White followed by [Learn] for Black leaves.  They also
    leave the same agent wherever that agent's history is not empty. *)
Theorem trainSharedNetwork_agrees_with_Learn
        (m : SelfPlayManager) (whiteReward blackReward : float) :
  let shared := trainSharedNetwork mathTanh m whiteReward blackReward in
  let separate := learnBoth mathTanh m whiteReward blackReward in
  sharedNetwork shared = sharedNetwork separate
  /\ gamesCount shared = gamesCount separate
  /\ (StateHistory (whiteAgent m) <> [] ->
      whiteAgent shared = whiteAgent separate)
  /\ (StateHistory (blackAgent m) <> [] ->
      blackAgent shared = blackAgent separate).
Proof.
  intros shared separate. subst shared separate.
  unfold trainSharedNetwork, learnBoth.
  pose proof (Learn_network_steps (whiteAgent m) (sharedNetwork m) whiteReward)
    as E1.
  pose proof (Learn_agent (whiteAgent m) (sharedNetwork m) whiteReward) as A1.
  destruct (Learn mathTanh (whiteAgent m) (sharedNetwork m) whiteReward)
    as [w net1].
  pose proof (Learn_network_steps (blackAgent m) net1 blackReward) as E2.
  pose proof (Learn_agent (blackAgent m) net1 blackReward) as A2.
  destruct (Learn mathTanh (blackAgent m) net1 blackReward) as [bl net2].
  cbn [fst snd] in E1, E2, A1, A2.
  cbn [sharedNetwork whiteAgent blackAgent gamesCount].
  split; [| split; [reflexivity | split]].
  - rewrite !collectExperiences_steps. rewrite app_nil_l, fold_left_app.
    rewrite E2, E1. reflexivity.
  - intros H. symmetry. apply A1. exact H.
  - intros H. symmetry. apply A2. exact H.
Qed.

End SharedTraining.

(** ** The dimensions of the network *)

Lemma hasShape_intro (rows cols : nat) (m : list (list float)) :
  length m = rows ->
  (forall i, (i < rows)%nat -> length (nth i m []) = cols) ->
  hasShape rows cols m = true.
Proof.
  intros Hl Hr. unfold hasShape. apply andb_true_iff. split.
  - apply Nat.eqb_eq. exact Hl.
  - apply forallb_forall. intros r Hin.
    destruct (In_nth m r [] Hin) as (i & Hi & <-).
    apply Nat.eqb_eq. apply Hr. lia.
Qed.

Lemma updateWeights_shape (n : Network) (grad : nat -> nat -> float)
      (rows cols : nat) (vw w : list (list float)) :
  hasShape rows cols vw = true -> hasShape rows cols w = true ->
  hasShape rows cols (fst (updateWeights n grad rows cols vw w)) = true
  /\ hasShape rows cols (snd (updateWeights n grad rows cols vw w)) = true.
Proof.
  intros Hvw Hw.
  apply hasShape_true in Hvw, Hw.
  destruct Hvw as [Hvl Hvr], Hw as [Hwl Hwr].
  destruct (updateWeights_spec n grad rows cols vw w)
    as (_ & _ & Hlv & Hlw & Hrv & Hrw);
    [lia | lia | intros i Hi; rewrite Hvr by lia; lia
     | intros i Hi; rewrite Hwr by lia; lia |].
  split; apply hasShape_intro.
  - rewrite Hlv. exact Hvl.
  - intros i Hi. rewrite Hrv. apply Hvr. exact Hi.
  - rewrite Hlw. exact Hwl.
  - intros i Hi. rewrite Hrw. apply Hwr. exact Hi.
Qed.

Lemma updateBias_length (n : Network) (grad : nat -> float) (count : nat)
      (vb b : list float) :
  length vb = count -> length b = count ->
  (length (fst (updateBias n grad count vb b)) =? count)%nat = true
  /\ (length (snd (updateBias n grad count vb b)) =? count)%nat = true.
Proof.
  intros Hvb Hb.
  destruct (updateBias_spec n grad count vb b) as (_ & _ & Hlv & Hlw);
    [lia | lia |].
  cbv zeta in Hlv, Hlw. rewrite Hlv, Hlw, Hvb, Hb, Nat.eqb_refl.
  split; reflexivity.
Qed.

Lemma Train_wellShaped (mathTanh : float -> float) (n : Network)
      (input : list float) (target : float) :
  wellShaped n = true -> wellShaped (Train mathTanh n input target) = true.
Proof.
  intros Hshape.
  pose proof (Train_unfold mathTanh n input target) as Hu.
  cbv zeta in Hu. rewrite Hu. clear Hu.
  unfold wellShaped in Hshape. rewrite !andb_true_iff in Hshape.
  destruct Hshape as (((((((((((Hw1 & Hb1) & Hw2) & Hb2) & Hw3) & Hb3)
                           & Hvw1) & Hvb1) & Hvw2) & Hvb2) & Hvw3) & Hvb3).
  apply Nat.eqb_eq in Hb1, Hb2, Hb3, Hvb1, Hvb2, Hvb3.
  match goal with
  | |- context [mkNetwork ?w1 ?b1 ?w2 ?b2 ?w3 ?b3 ?vw1 ?vb1 ?vw2 ?vb2 ?vw3 ?vb3
                          ?lr ?mo] =>
      destruct (Network_fields w1 b1 w2 b2 w3 b3 vw1 vb1 vw2 vb2 vw3 vb3 lr mo)
        as (E1 & E2 & E3 & E4 & E5 & E6 & E7 & E8 & E9 & E10 & E11 & E12 & _);
      pose proof (updateWeights_shape n) as S
  end.
  unfold wellShaped.
  rewrite E1, E2, E3, E4, E5, E6, E7, E8, E9, E10, E11, E12.
  clear E1 E2 E3 E4 E5 E6 E7 E8 E9 E10 E11 E12.
  rewrite updateOutputWeights_as_updateWeights.
  repeat match goal with
         | |- context [updateWeights n ?g ?r ?c ?vw ?w] =>
             let Hf := fresh "Hf" in
             let Hs := fresh "Hs" in
             destruct (S g r c vw w) as [Hf Hs]; [assumption | assumption |];
             rewrite ?Hf, ?Hs;
             generalize dependent (updateWeights n g r c vw w); intros
         end.
  repeat match goal with
         | |- context [updateBias n ?g ?c ?vb ?b] =>
             let Hf := fresh "Hf" in
             let Hs := fresh "Hs" in
             destruct (updateBias_length n g c vb b) as [Hf Hs];
             [assumption | assumption |];
             rewrite ?Hf, ?Hs;
             generalize dependent (updateBias n g c vb b); intros
         end.
  rewrite !length_list_insert, Hb3, Hvb3. reflexivity.
Qed.

(** X17.  [Train] changes no dimension and no hyperparameter: a network of
    the dimensions [NewNetwork] allocates has them after the call, with
    the learning rate and the momentum it had. *)
Theorem Train_keeps_shape (mathTanh : float -> float) (n : Network)
        (input : list float) (target : float) :
  wellShaped n = true ->
  wellShaped (Train mathTanh n input target) = true
  /\ LearningRate (Train mathTanh n input target) = LearningRate n
  /\ Momentum (Train mathTanh n input target) = Momentum n.
Proof.
  intros Hshape. split; [apply Train_wellShaped; exact Hshape |].
  rewrite Train_unfold. split; reflexivity.
Qed.

Lemma Train_keeps_shape_witness :
  wellShaped (Train sampleTanh zeroNetwork zeroInput 1) = true.
Proof.
  assert (Hshape : wellShaped zeroNetwork = true) by (vm_compute; reflexivity).
  exact (proj1 (Train_keeps_shape sampleTanh zeroNetwork zeroInput 1%float Hshape)).
Defined.

Lemma fold_Train_wellShaped (mathTanh : float -> float)
      (examples : list (list float * float)) (net : Network) :
  wellShaped net = true ->
  wellShaped
    (fold_left (fun net example => Train mathTanh net (fst example) (snd example))
               examples net) = true.
Proof.
  revert net. induction examples as [| e rest IH]; intros net H; [exact H |].
  cbn [fold_left]. apply IH. apply Train_wellShaped. exact H.
Qed.

(** X18.  Learning keeps the network usable: after [Learn], and after
    either revision of the training step of self-play, a network of the
    allocated dimensions still has them. *)
Theorem learning_keeps_shape (mathTanh : float -> float)
        (m : SelfPlayManager) (whiteReward blackReward : float) :
  wellShaped (sharedNetwork m) = true ->
  wellShaped (snd (Learn mathTanh (whiteAgent m) (sharedNetwork m) whiteReward))
  = true
  /\ wellShaped
       (sharedNetwork (trainSharedNetwork mathTanh m whiteReward blackReward))
     = true
  /\ wellShaped (sharedNetwork (learnBoth mathTanh m whiteReward blackReward))
     = true.
Proof.
  intros H.
  assert (HL : forall a net r,
             wellShaped net = true ->
             wellShaped (snd (Learn mathTanh a net r)) = true).
  { intros a net r Hn. rewrite Learn_network_steps.
    apply fold_Train_wellShaped. exact Hn. }
  split; [apply HL; exact H |]. split.
  - unfold trainSharedNetwork. cbn [sharedNetwork].
    apply fold_Train_wellShaped. exact H.
  - unfold learnBoth.
    pose proof (HL (whiteAgent m) (sharedNetwork m) whiteReward H) as H1.
    destruct (Learn mathTanh (whiteAgent m) (sharedNetwork m) whiteReward)
      as [w net1].
    cbn [snd] in H1.
    pose proof (HL (blackAgent m) net1 blackReward H1) as H2.
    destruct (Learn mathTanh (blackAgent m) net1 blackReward) as [bl net2].
    cbn [snd] in H2. cbn [sharedNetwork]. exact H2.
Qed.

Lemma learning_keeps_shape_witness :
  wellShaped
    (snd (Learn sampleTanh (RecordState (NewAgent White) NewBoard)
                zeroNetwork 1)) = true.
Proof.
  assert (Hshape : wellShaped zeroNetwork = true) by (vm_compute; reflexivity).
  exact (proj1 (learning_keeps_shape
                  sampleTanh
                  (mkSelfPlayManager (RecordState (NewAgent White) NewBoard)
                                     (NewAgent Black) zeroNetwork 0)
                  1%float 0%float Hshape)).
Defined.

(** ** The game loop of [PlayGame] *)

Lemma allLegal_app (b : Board) (l1 l2 : list Move) :
  allLegal b (l1 ++ l2) = allLegal b l1 && allLegal (playedFrom b l1) l2.
Proof.
  revert b. induction l1 as [| m l1 IH]; intros b; [reflexivity |].
  cbn [app allLegal playedFrom fold_left]. rewrite IH.
  unfold playedFrom. rewrite andb_assoc. reflexivity.
Qed.

Lemma playedFrom_app (b : Board) (l1 l2 : list Move) :
  playedFrom b (l1 ++ l2) = playedFrom (playedFrom b l1) l2.
Proof. unfold playedFrom. apply fold_left_app. Qed.

Lemma live_board_after_move (b : Board) (m : Move) :
  GameOver (MakeMove b m) = false -> GetLegalMoves (MakeMove b m) <> [].
Proof.
  intros Hlive Hnone.
  destruct (MakeMove_outcome b m) as [Hover _].
  rewrite (proj2 Hover) in Hlive; [discriminate |].
  right. left. exact Hnone.
Qed.

Lemma positionsBefore_snoc (start : Board) (moves : list Move) (m : Move) :
  positionsBefore start (moves ++ [m])
  = positionsBefore start moves ++ [playedFrom start moves].
Proof.
  unfold positionsBefore. rewrite length_app. cbn [length].
  rewrite Nat.add_1_r, seq_S, map_app. cbn [Nat.add map]. f_equal.
  - apply map_ext_in. intros i Hi. apply in_seq in Hi.
    rewrite firstn_app. replace (i - length moves)%nat with 0%nat by lia.
    cbn [firstn]. rewrite app_nil_r. reflexivity.
  - rewrite firstn_app, firstn_all, Nat.sub_diag. cbn [firstn].
    rewrite app_nil_r. reflexivity.
Qed.

Lemma statesOf_snoc (c : Color) (boards : list Board) (b : Board) :
  statesOf c (boards ++ [b])
  = statesOf c boards
    ++ (if Color_eqb (CurrentTurn b) c then [boardToVector b] else []).
Proof.
  unfold statesOf. rewrite List.filter_app, map_app. cbn [List.filter].
  destruct (Color_eqb (CurrentTurn b) c); reflexivity.
Qed.

Lemma nth_last_snoc {A : Type} (l : list A) (x d : A) :
  nth (length (l ++ [x]) - 1) (l ++ [x]) d = x.
Proof.
  rewrite length_app. cbn [length].
  replace (length l + 1 - 1)%nat with (length l) by lia.
  rewrite app_nth2 by lia. rewrite Nat.sub_diag. reflexivity.
Qed.

Section GameLoop.

Variable mathTanh : float -> float.
Variable draws : Z -> float * nat.
Variable net : Network.

Lemma gameLoop_runs (start : Board) (white0 black0 : Agent) (fuel : nat) :
  forall st,
    loopInvariant start st ->
    recordInvariant mathTanh net start white0 black0 st ->
    (Z.to_nat (200 - selfplay.moveNumber st) < fuel)%nat ->
    exists final,
      selfplay.gameLoop mathTanh draws fuel net st = Some final
      /\ loopInvariant start final
      /\ recordInvariant mathTanh net start white0 black0 final
      /\ (GameOver (selfplay.loop_board final) = true
          \/ selfplay.moveNumber final = 200).
Proof.
  induction fuel as [| fuel IH]; intros st Hinv Hrec Hfuel; [lia |].
  cbn [selfplay.gameLoop].
  destruct (GameOver (selfplay.loop_board st)) eqn:Hover.
  { exists st. cbn [negb andb]. split; [reflexivity |].
    split; [exact Hinv |]. split; [exact Hrec | left; exact Hover]. }
  destruct (selfplay.moveNumber st <? 200) eqn:Hnum.
  2:{ exists st. cbn [negb andb]. split; [reflexivity |]. split; [exact Hinv |].
      split; [exact Hrec |].
      right. apply Z.ltb_ge in Hnum.
      destruct Hinv as (_ & _ & _ & _ & Hle). lia. }
  cbn [negb andb]. apply Z.ltb_lt in Hnum.
  destruct Hinv as (Hlive & Hlegal & Hboard & Hcount & Hle).
  destruct Hrec as (Hwhite & Hblack & Hinfo).
  specialize (Hlive Hover).
  set (agent := RecordState
                  (if Color_eqb (CurrentTurn (selfplay.loop_board st)) White
                   then selfplay.loop_white st else selfplay.loop_black st)
                  (selfplay.loop_board st)).
  set (mv := ChooseMove mathTanh net agent (selfplay.loop_board st)
                        (fst (draws (selfplay.moveNumber st)))
                        (snd (draws (selfplay.moveNumber st)))).
  assert (Hvalid : IsValidMove (selfplay.loop_board st) mv = true).
  { apply GetLegalMoves_valid. apply ChooseMove_nonempty. exact Hlive. }
  assert (Hrow : (Row (From mv) =? -1) = false).
  { apply IsValidMove_inv in Hvalid. destruct Hvalid as (Hf & _).
    apply onBoard_spec in Hf. apply Z.eqb_neq. lia. }
  rewrite Hrow.
  assert (Hlast : nth (length (StateHistory agent) - 1) (StateHistory agent) []
                  = boardToVector (selfplay.loop_board st)).
  { unfold agent, RecordState. cbn [withStateHistory StateHistory].
    apply nth_last_snoc. }
  rewrite Hlast.
  apply IH; [| | cbn [selfplay.moveNumber]; lia].
  - unfold loopInvariant.
    cbn [selfplay.loop_board selfplay.loop_moves selfplay.moveNumber].
    rewrite map_app. cbn [map selfplay.info_move].
    rewrite allLegal_app, playedFrom_app, length_app, <- Hboard, Hlegal.
    cbn [allLegal playedFrom fold_left length andb].
    rewrite Hvalid.
    split; [apply live_board_after_move |].
    split; [reflexivity |]. split; [reflexivity |]. lia.
  - unfold recordInvariant.
    cbn [selfplay.loop_white selfplay.loop_black selfplay.loop_moves].
    rewrite map_app. cbn [map selfplay.info_move].
    rewrite positionsBefore_snoc, !statesOf_snoc, <- Hboard.
    unfold agent, RecordState.
    destruct (CurrentTurn (selfplay.loop_board st));
      cbn [Color_eqb withStateHistory StateHistory];
      rewrite ?app_nil_r, ?Hwhite, ?Hblack, <- ?app_assoc;
      (split; [reflexivity |]; split; [reflexivity |]);
      (apply List.Forall2_app; [exact Hinfo |]);
      (constructor; [| constructor]);
      cbn [selfplay.info_evaluation selfplay.info_boardHash];
      (split; reflexivity).
Qed.

Lemma gameLoop_from_start (white black : Agent) :
  exists final,
    selfplay.gameLoop mathTanh draws 201 net
                      (selfplay.mkGameLoop NewBoard white black [] 0)
    = Some final
    /\ loopInvariant NewBoard final
    /\ recordInvariant mathTanh net NewBoard white black final
    /\ (GameOver (selfplay.loop_board final) = true
        \/ selfplay.moveNumber final = 200).
Proof.
  apply gameLoop_runs.
  - unfold loopInvariant.
    cbn [selfplay.loop_board selfplay.loop_moves selfplay.moveNumber map
         allLegal playedFrom fold_left length].
    split; [| repeat split; lia].
    intros _ Hnone.
    apply (f_equal (@length Move)) in Hnone. vm_compute in Hnone. discriminate.
  - unfold recordInvariant.
    cbn [selfplay.loop_white selfplay.loop_black selfplay.loop_moves map
         positionsBefore length seq statesOf List.filter].
    rewrite !app_nil_r. repeat split. constructor.
  - cbn [selfplay.moveNumber]. lia.
Qed.

(** X19.  The game loop of [PlayGame], from the initial position, ends
    within its 200 iterations, whatever the network and the random draws.
    Every move it plays is legal on the board it is played on, the board
    it ends on is the one these moves lead to, [moveNumber] counts them,
    and it ends only because the game is over or 200 moves were played:
    the [break] for a missing move is never taken. *)
Theorem PlayGame_loop_plays_legal_moves (white black : Agent) :
  exists final,
    selfplay.gameLoop mathTanh draws 201 net
                      (selfplay.mkGameLoop NewBoard white black [] 0)
    = Some final
    /\ allLegal NewBoard (map selfplay.info_move (selfplay.loop_moves final))
       = true
    /\ selfplay.loop_board final
       = playedFrom NewBoard (map selfplay.info_move (selfplay.loop_moves final))
    /\ selfplay.moveNumber final
       = Z.of_nat (length (selfplay.loop_moves final))
    /\ (GameOver (selfplay.loop_board final) = true
        \/ selfplay.moveNumber final = 200).
Proof.
  destruct (gameLoop_from_start white black)
    as (final & Hrun & (_ & Hlegal & Hboard & Hcount & _) & _ & Hend).
  exists final. rewrite length_map in Hcount. repeat split; assumption.
Qed.

(** X20.  What the game loop records.  The history of each agent grows by
    the input vectors of the positions in which its colour was to move, in
    the order of play, and every element of [moves] holds, beside the
    move, the network's evaluation and the hash of the position the move
    was played in. *)
Theorem PlayGame_loop_records_positions (white black : Agent) :
  exists final,
    selfplay.gameLoop mathTanh draws 201 net
                      (selfplay.mkGameLoop NewBoard white black [] 0)
    = Some final
    /\ let positions :=
         positionsBefore NewBoard
           (map selfplay.info_move (selfplay.loop_moves final)) in
       StateHistory (selfplay.loop_white final)
       = StateHistory white ++ statesOf White positions
       /\ StateHistory (selfplay.loop_black final)
          = StateHistory black ++ statesOf Black positions
       /\ Forall2 (fun b info =>
                     selfplay.info_evaluation info
                     = evaluatePosition mathTanh net b
                     /\ selfplay.info_boardHash info
                        = database.GenerateBoardHash b)
                  positions (selfplay.loop_moves final).
Proof.
  destruct (gameLoop_from_start white black)
    as (final & Hrun & _ & Hrec & _).
  exists final. split; [exact Hrun | exact Hrec].
Qed.

End GameLoop.

Lemma playedFrom_turn (moves : list Move) (b : Board) :
  CurrentTurn (playedFrom b moves)
  = if Nat.even (length moves) then CurrentTurn b else opponent (CurrentTurn b).
Proof.
  induction moves as [| m rest IH] using rev_ind; [reflexivity |].
  rewrite playedFrom_app, length_app. cbn [playedFrom fold_left length].
  rewrite MakeMove_CurrentTurn, IH.
  replace (length rest + 1)%nat with (S (length rest)) by lia.
  rewrite Nat.even_succ, <- Nat.negb_even.
  destruct (Nat.even (length rest)), (CurrentTurn b); reflexivity.
Qed.

Section MoveLabels.

Import String.
#[local] Open Scope string_scope.

(** X21.  The result [PlayGame] stores with a move names the outcome for
    the side that made it: in a game from the initial position with
    alternating moves the move with index [i] was made by White exactly
    when [i] is even, and it is stored as "win" when its side is the winner,
    as "loss" when the other side is, and as "draw" otherwise. *)
Theorem PlayGame_labels_moves_by_mover
        (moves : list Move) (i : nat) (tag : WinnerTag) :
  let mover := CurrentTurn (playedFrom NewBoard (firstn i moves)) in
  (i < List.length moves)%nat ->
  mover = (if Nat.even i then White else Black)
  /\ selfplay.moveResult i (selfplay.winnerName tag)
     = match tag with
       | TagWhite => if Color_eqb mover White then "win" else "loss"
       | TagBlack => if Color_eqb mover Black then "win" else "loss"
       | TagDraw => "draw"
       end.
Proof.
  intros mover Hi. subst mover.
  rewrite playedFrom_turn, length_firstn, Nat.min_l by lia.
  change (CurrentTurn NewBoard) with White. cbn [opponent].
  split; [reflexivity |].
  unfold selfplay.moveResult.
  replace (i mod 2 =? 0)%nat with (Nat.even i).
  - destruct (Nat.even i), tag; reflexivity.
  - rewrite <- Nat.negb_odd. unfold Nat.odd. fold (Nat.odd i).
    rewrite (Nat.div_mod_eq i 2) at 1.
    rewrite Nat.odd_add, Nat.odd_mul. cbn [Nat.odd Nat.even andb xorb].
    pose proof (Nat.mod_upper_bound i 2 ltac:(lia)) as Hb.
    destruct (i mod 2)%nat as [| [| k]]; [reflexivity | reflexivity | lia].
Qed.

Lemma PlayGame_labels_moves_by_mover_witness :
  selfplay.moveResult 1 (selfplay.winnerName TagBlack) = "win".
Proof.
  apply (PlayGame_labels_moves_by_mover
           [move 6 4 4 4; move 1 4 3 4] 1 TagBlack).
  cbn [List.length]. lia.
Defined.

End MoveLabels.

(** ** The store *)

Lemma finishFirst_finds (records : list database.GameRecord) (gameID : Z)
      (winner : String.string) (movesCount : Z) :
  Exists (fun g => database.Game_ID g = gameID) records ->
  exists records',
    database.finishFirst records gameID winner movesCount = Some records'
    /\ length records' = length records.
Proof.
  induction records as [| g rest IH]; intros H; [inversion H |].
  cbn [database.finishFirst].
  destruct (Z.eqb_spec (database.Game_ID g) gameID) as [Heq | Hne].
  - eexists. split; reflexivity.
  - inversion H as [? ? Hg | ? ? Hrest]; subst; [contradiction |].
    destruct (IH Hrest) as (records' & -> & Hlen).
    eexists. split; [reflexivity |]. cbn [length]. rewrite Hlen. reflexivity.
Qed.

Lemma finishFirst_fresh (records : list database.GameRecord)
      (game : database.GameRecord) (winner : String.string) (movesCount : Z) :
  Forall (fun g => database.Game_ID g <> database.Game_ID game) records ->
  database.finishFirst (records ++ [game]) (database.Game_ID game)
                       winner movesCount
  = Some (records
          ++ [database.mkGameRecord (database.Game_ID game) winner movesCount
                                    (database.WhiteEpsilon game)
                                    (database.BlackEpsilon game)]).
Proof.
  induction records as [| g rest IH]; intros H.
  - cbn [app database.finishFirst]. rewrite Z.eqb_refl. reflexivity.
  - inversion H as [| ? ? Hg Hrest]; subst.
    cbn [app database.finishFirst].
    destruct (Z.eqb_spec (database.Game_ID g) (database.Game_ID game));
      [contradiction |].
    rewrite (IH Hrest). reflexivity.
Qed.

Lemma finishFirst_encodes (records : list database.GameRecord) (gameID : Z)
      (winner : String.string) (movesCount : Z)
      (records' : list database.GameRecord) (f : float -> float -> bool) :
  database.finishFirst records gameID winner movesCount = Some records' ->
  forallb (fun g => f (database.WhiteEpsilon g) (database.BlackEpsilon g)) records'
  = forallb (fun g => f (database.WhiteEpsilon g) (database.BlackEpsilon g)) records.
Proof.
  revert records'. induction records as [| g rest IH]; intros records' H.
  - discriminate.
  - cbn [database.finishFirst] in H.
    destruct (database.Game_ID g =? gameID).
    + injection H as <-. reflexivity.
    + destruct (database.finishFirst rest gameID winner movesCount)
        as [rest' |]; [| discriminate].
      cbn [option_map] in H. injection H as <-.
      cbn [forallb]. rewrite (IH rest' eq_refl). reflexivity.
Qed.

Section PlayGame.

Variable mathTanh : float -> float.
Variable draws : Z -> float * nat.
Variable writes : nat -> bool.

Lemma recordMovesFrom_frame (gameID : Z) (winner : String.string)
      (moves : list selfplay.MoveInfo) :
  forall (i : nat) (db : database.Database),
    let recorded := selfplay.recordMovesFrom writes i db gameID winner moves in
    database.games (fst recorded) = database.games db
    /\ exists added,
        database.moves (fst recorded) = database.moves db ++ added
        /\ (snd recorded = true -> length added = length moves)
        /\ (snd recorded = false ->
            exists k, (i < k <= i + length moves)%nat
                      /\ database.saveData (fst recorded) (writes k) = false).
Proof.
  induction moves as [| info rest IH]; intros i db; cbv zeta.
  - cbn [selfplay.recordMovesFrom fst snd]. split; [reflexivity |].
    exists []. rewrite app_nil_r. split; [reflexivity |].
    split; [reflexivity | discriminate].
  - cbn [selfplay.recordMovesFrom].
    match goal with
    | |- context [database.saveData ?d (writes (S i))] =>
        set (db' := d);
        destruct (database.saveData db' (writes (S i))) eqn:Hsave
    end.
    + destruct (IH (S i) db') as (Hg & added & Hm & Hlen & Hfail).
      cbv zeta in Hg, Hm, Hlen, Hfail.
      split; [rewrite Hg; reflexivity |].
      eexists (_ :: added). split.
      * rewrite Hm. unfold db'. cbn [database.RecordMove database.moves].
        rewrite <- app_assoc. reflexivity.
      * split.
        -- intros Hok. cbn [length]. rewrite (Hlen Hok). reflexivity.
        -- intros Hno. destruct (Hfail Hno) as (k & Hk & Hsk).
           exists k. split; [cbn [length]; lia | exact Hsk].
    + cbn [fst snd]. split; [reflexivity |].
      eexists [_]. split; [reflexivity |].
      split; [discriminate |].
      intros _. exists (S i). split; [cbn [length]; lia | exact Hsave].
Qed.

Lemma recordMovesFrom_succeeds (gameID : Z) (winner : String.string)
      (moves : list selfplay.MoveInfo) :
  (forall k, writes k = true) ->
  Forall (fun info => is_finite (selfplay.info_evaluation info) = true) moves ->
  forall (i : nat) (db : database.Database),
    database.marshalGames db = true -> database.marshalMoves db = true ->
    let recorded := selfplay.recordMovesFrom writes i db gameID winner moves in
    snd recorded = true /\ database.marshalMoves (fst recorded) = true.
Proof.
  intros Hwrites Hfinite.
  induction Hfinite as [| info rest Hinfo Hrest IH]; intros i db Hgames Hmoves;
    cbv zeta.
  - cbn [selfplay.recordMovesFrom fst snd]. split; [reflexivity | exact Hmoves].
  - cbn [selfplay.recordMovesFrom].
    match goal with
    | |- context [database.saveData ?d (writes (S i))] => set (db' := d)
    end.
    assert (Hmoves' : database.marshalMoves db' = true).
    { unfold db', database.marshalMoves.
      cbn [database.RecordMove database.moves].
      rewrite forallb_app. cbn [forallb database.Evaluation].
      unfold database.marshalMoves in Hmoves. rewrite Hmoves, Hinfo.
      reflexivity. }
    assert (Hsave : database.saveData db' (writes (S i)) = true).
    { assert (Hgames' : database.marshalGames db' = true) by exact Hgames.
      unfold database.saveData. rewrite Hgames', Hmoves', Hwrites.
      reflexivity. }
    rewrite Hsave. apply IH; [exact Hgames | exact Hmoves'].
Qed.

(** X22.  [PlayGame] fails only when a call of [saveData] fails.  The game
    loop always ends and [FinishGame] always finds the game [StartGame]
    has just created; when every file write succeeds and the store and
    the evaluations of the game can be encoded (no NaN, no infinity),
    [PlayGame] returns nil.  When it returns nil the store has gained one
    game and one move record for every move played, the game counter has
    grown by one, the network has been trained on the game and both
    histories are cleared; when no game of the store has the ID
    [StartGame] hands out, the game that is finished is the new one, with
    the winner and the number of moves of this game.  When it returns an
    error, the store it leaves is one that [saveData] failed on, the
    network is not trained, the counter has still grown, and the
    histories are not cleared. *)
Theorem PlayGame_fails_only_by_saveData
        (m : SelfPlayManager) (db : database.Database) :
  exists final,
    selfplay.gameLoop mathTanh draws 201 (sharedNetwork m)
      (selfplay.mkGameLoop NewBoard (whiteAgent m) (blackAgent m) [] 0)
    = Some final
    /\ let result := selfplay.PlayGame mathTanh draws writes m db in
       let n := length (selfplay.loop_moves final) in
       let outcome := selfPlayOutcome (selfplay.loop_board final) in
       result <> selfplay.LoopUnfinished
       /\ ((forall k, writes k = true) -> encodable m db final ->
           exists m' db', result = selfplay.Played m' db')
       /\ (forall m' db',
              result = selfplay.Played m' db' ->
              StateHistory (whiteAgent m') = []
              /\ StateHistory (blackAgent m') = []
              /\ gamesCount m' = wrapInt (gamesCount m + 1)
              /\ sharedNetwork m'
                 = sharedNetwork
                     (trainSharedNetwork
                        mathTanh
                        (mkSelfPlayManager (selfplay.loop_white final)
                                           (selfplay.loop_black final)
                                           (sharedNetwork m)
                                           (wrapInt (gamesCount m + 1)))
                        (snd (fst outcome)) (snd outcome))
              /\ length (database.games db') = S (length (database.games db))
              /\ length (database.moves db')
                 = (length (database.moves db) + n)%nat
              /\ (Forall (fun g => database.Game_ID g <> database.nextGameID db)
                         (database.games db) ->
                  database.games db'
                  = database.games db
                    ++ [database.mkGameRecord
                          (database.nextGameID db)
                          (selfplay.winnerName (fst (fst outcome)))
                          (Z.of_nat n)
                          (Epsilon (whiteAgent m)) (Epsilon (blackAgent m))]))
       /\ (forall e m' db',
              result = selfplay.Failed e m' db' ->
              (exists k, (k <= S n)%nat
                         /\ database.saveData db' (writes k) = false)
              /\ sharedNetwork m' = sharedNetwork m
              /\ gamesCount m' = wrapInt (gamesCount m + 1)
              /\ StateHistory (whiteAgent m')
                 = StateHistory
                     (match e with
                      | selfplay.StartGameFailed => whiteAgent m
                      | _ => selfplay.loop_white final
                      end)
              /\ StateHistory (blackAgent m')
                 = StateHistory
                     (match e with
                      | selfplay.StartGameFailed => blackAgent m
                      | _ => selfplay.loop_black final
                      end)).
Proof.
  destruct (gameLoop_from_start mathTanh draws (sharedNetwork m)
              (whiteAgent m) (blackAgent m))
    as (final & Hrun & (_ & _ & _ & Hcount & _) & _).
  rewrite length_map in Hcount.
  exists final. split; [exact Hrun |]. cbv zeta.
  unfold selfplay.PlayGame. rewrite Hrun. cbv beta iota zeta.
  unfold database.StartGame. cbn [fst snd].
  set (winner := selfplay.winnerName
                   (fst (fst (selfPlayOutcome (selfplay.loop_board final))))).
  set (game := database.mkGameRecord (database.nextGameID db) String.EmptyString 0
                                     (Epsilon (whiteAgent m))
                                     (Epsilon (blackAgent m))).
  set (db1 := database.mkDatabase (database.games db ++ [game]) (database.moves db)
                                  (wrapInt (database.nextGameID db + 1))
                                  (database.nextMoveID db)).
  set (n := length (selfplay.loop_moves final)).
  assert (Hencode1 :
            encodable m db final ->
            database.marshalGames db1 = true /\ database.marshalMoves db1 = true).
  { intros (Hg & Hm & Hw & Hb & _). split; [| exact Hm].
    unfold database.marshalGames, db1. cbn [database.games].
    rewrite forallb_app.
    unfold database.marshalGames in Hg. rewrite Hg.
    cbn [forallb game database.WhiteEpsilon database.BlackEpsilon].
    rewrite Hw, Hb. reflexivity. }
  destruct (database.saveData db1 (writes 0)) eqn:Hsave0; cbn [negb].
  2:{ split; [discriminate |]. split.
      - intros Hwrites Henc. destruct (Hencode1 Henc) as [Hg Hm].
        unfold database.saveData in Hsave0.
        rewrite Hg, Hm, Hwrites in Hsave0. discriminate.
      - split; [intros m' db' H; discriminate |].
        intros e m' db' H. injection H as <- <- <-.
        split; [exists 0%nat; split; [lia | exact Hsave0] |].
        repeat split. }
  pose proof (recordMovesFrom_frame (database.nextGameID db) winner
                                    (selfplay.loop_moves final) 0 db1)
    as (Hgames & added & Hmoves & Hadded & Hfailed).
  cbv zeta in Hgames, Hmoves, Hadded, Hfailed.
  pose proof (fun Hwrites Henc =>
                recordMovesFrom_succeeds
                  (database.nextGameID db) winner (selfplay.loop_moves final)
                  Hwrites
                  (proj2 (proj2 (proj2 (proj2 Henc)))) 0 db1
                  (proj1 (Hencode1 Henc)) (proj2 (Hencode1 Henc)))
    as Hsucceeds.
  cbv zeta in Hsucceeds.
  unfold selfplay.recordMoves.
  destruct (selfplay.recordMovesFrom writes 0 db1 (database.nextGameID db)
                                     winner (selfplay.loop_moves final))
    as [db2 ok].
  cbn [fst snd] in *.
  destruct ok; cbn [negb].
  2:{ split; [discriminate |]. split.
      - intros Hwrites Henc.
        destruct (Hsucceeds Hwrites Henc) as [Hok _]. discriminate.
      - split; [intros m' db' H; discriminate |].
        intros e m' db' H. injection H as <- <- <-.
        destruct (Hfailed eq_refl) as (k & Hk & Hsk).
        split; [exists k; split; [fold n in Hk; lia | exact Hsk] |].
        repeat split. }
  unfold database.FinishGame. rewrite Hgames. cbn [db1 database.games].
  destruct (finishFirst_finds (database.games db ++ [game])
              (database.nextGameID db) winner (selfplay.moveNumber final))
    as (records' & Hfinish & Hlen).
  { apply Exists_app. right. constructor. reflexivity. }
  rewrite Hfinish.
  set (db3 := database.mkDatabase records' (database.moves db2)
                                  (database.nextGameID db2)
                                  (database.nextMoveID db2)).
  destruct (database.saveData db3 (writes (S n))) eqn:Hsave3; cbn [negb].
  2:{ split; [discriminate |]. split.
      - intros Hwrites Henc.
        destruct (Hsucceeds Hwrites Henc) as [_ Hm2].
        destruct (Hencode1 Henc) as [Hg1 _].
        unfold database.saveData in Hsave3.
        assert (Hg3 : database.marshalGames db3 = true).
        { unfold database.marshalGames, db3. cbn [database.games].
          rewrite (finishFirst_encodes
                     _ _ _ _ _
                     (fun w b => is_finite w && is_finite b) Hfinish).
          exact Hg1. }
        assert (Hm3 : database.marshalMoves db3 = true) by exact Hm2.
        rewrite Hg3, Hm3, Hwrites in Hsave3. discriminate.
      - split; [intros m' db' H; discriminate |].
        intros e m' db' H. injection H as <- <- <-.
        split; [exists (S n); split; [lia | exact Hsave3] |].
        repeat split. }
  split; [discriminate |]. split.
  - intros _ _. eexists. eexists. reflexivity.
  - split; [| intros e m' db' H; discriminate].
    intros m' db' H. injection H as <- <-.
    cbn [whiteAgent blackAgent gamesCount sharedNetwork withStateHistory
         StateHistory trainSharedNetwork db3 database.games database.moves].
    split; [reflexivity |]. split; [reflexivity |]. split; [reflexivity |].
    split; [reflexivity |].
    split; [rewrite Hlen, length_app; cbn [length]; lia |].
    split; [rewrite Hmoves, length_app, (Hadded eq_refl); reflexivity |].
    intros Hfresh.
    pose proof (finishFirst_fresh (database.games db) game winner
                                  (selfplay.moveNumber final) Hfresh) as Hnew.
    cbn [game database.Game_ID database.WhiteEpsilon database.BlackEpsilon]
      in Hnew.
    rewrite Hnew in Hfinish. injection Hfinish as <-.
    rewrite Hcount. reflexivity.
Qed.

End PlayGame.

Lemma wrapInt_small (z : Z) : - 2 ^ 63 <= z < 2 ^ 63 -> wrapInt z = z.
Proof. intros H. unfold wrapInt. rewrite Z.mod_small by lia. lia. Qed.

Lemma nextID_above_loaded {A : Type} (id : A -> Z) (loaded : list A) :
  Forall (fun x => id x < 2 ^ 63 - 1) loaded ->
  forall next,
    1 <= next ->
    let next' :=
      fold_left (fun next x => if id x >=? next then wrapInt (id x + 1) else next)
                loaded next in
    next <= next' /\ Forall (fun x => id x < next') loaded.
Proof.
  induction 1 as [| x rest Hx Hrest IH]; intros next Hnext; cbv zeta.
  - split; [cbn [fold_left]; lia | constructor].
  - cbn [fold_left].
    destruct (Z.geb_spec (id x) next) as [Hge | Hlt].
    + rewrite wrapInt_small by lia.
      destruct (IH (id x + 1)) as [Hle Hall]; [lia |]. cbv zeta in Hle, Hall.
      split; [lia |]. constructor; [lia | exact Hall].
    + destruct (IH next Hnext) as [Hle Hall]. cbv zeta in Hle, Hall.
      split; [exact Hle |]. constructor; [lia | exact Hall].
Qed.

Lemma finishFirst_ids (records : list database.GameRecord) (gameID : Z)
      (winner : String.string) (movesCount : Z)
      (records' : list database.GameRecord) :
  database.finishFirst records gameID winner movesCount = Some records' ->
  map database.Game_ID records' = map database.Game_ID records.
Proof.
  revert records'. induction records as [| g rest IH]; intros records' H.
  - discriminate.
  - cbn [database.finishFirst] in H.
    destruct (database.Game_ID g =? gameID).
    + injection H as <-. reflexivity.
    + destruct (database.finishFirst rest gameID winner movesCount)
        as [rest' |]; [| discriminate].
      cbn [option_map] in H. injection H as <-.
      cbn [map]. rewrite (IH rest' eq_refl). reflexivity.
Qed.

(** X23.  Game IDs stay fresh.  After [NewDatabase] every loaded game has
    an ID below [nextGameID] (for IDs that leave room for one more in an
    [int64]); [StartGame] keeps this and hands out an ID that no game of
    the store has; [RecordMove], [UpdateMoveResults] and a successful
    [FinishGame] keep it too. *)
Theorem database_game_ids_stay_fresh :
  (forall gamesFile movesFile,
      (forall loaded, gamesFile = Some loaded ->
                      Forall (fun g => database.Game_ID g < 2 ^ 63 - 1) loaded) ->
      gameIDsBelowNext (database.NewDatabase gamesFile movesFile))
  /\ (forall d whiteEpsilon blackEpsilon,
         gameIDsBelowNext d -> database.nextGameID d < 2 ^ 63 - 1 ->
         gameIDsBelowNext (snd (database.StartGame d whiteEpsilon blackEpsilon))
         /\ Forall (fun g => database.Game_ID g
                             <> fst (database.StartGame d whiteEpsilon blackEpsilon))
                   (database.games d))
  /\ (forall d record,
         gameIDsBelowNext d -> gameIDsBelowNext (database.RecordMove d record))
  /\ (forall d gameID result,
         gameIDsBelowNext d ->
         gameIDsBelowNext (database.UpdateMoveResults d gameID result))
  /\ (forall d gameID winner movesCount d',
         gameIDsBelowNext d ->
         database.FinishGame d gameID winner movesCount = Some d' ->
         gameIDsBelowNext d').
Proof.
  split; [| split; [| split; [| split]]].
  - intros gamesFile movesFile Hrange.
    unfold database.NewDatabase, database.loadData, gameIDsBelowNext.
    destruct gamesFile as [loaded |].
    + destruct (nextID_above_loaded database.Game_ID loaded
                  (Hrange loaded eq_refl) 1 ltac:(lia)) as [Hle Hall].
      cbv zeta in Hle, Hall.
      destruct movesFile;
        cbn [database.emptyDatabase database.nextGameID database.games];
        (split; [exact Hle | exact Hall]).
    + destruct movesFile;
        cbn [database.emptyDatabase database.nextGameID database.games];
        (split; [lia | constructor]).
  - intros d whiteEpsilon blackEpsilon [Hnext Hall] Hroom.
    unfold database.StartGame, gameIDsBelowNext.
    cbn [fst snd database.nextGameID database.games].
    rewrite wrapInt_small by lia.
    split; [split; [lia |] |].
    + apply Forall_app. split.
      * eapply List.Forall_impl; [| exact Hall]. cbv beta. intros g Hg. lia.
      * constructor; [cbn [database.Game_ID]; lia | constructor].
    + eapply List.Forall_impl; [| exact Hall]. cbv beta. intros g Hg. lia.
  - intros d record H. exact H.
  - intros d gameID result H. exact H.
  - intros d gameID winner movesCount d' [Hnext Hall] Hfinish.
    unfold database.FinishGame in Hfinish.
    destruct (database.finishFirst (database.games d) gameID winner movesCount)
      as [records' |] eqn:Hfirst; [| discriminate].
    injection Hfinish as <-.
    unfold gameIDsBelowNext. cbn [database.nextGameID database.games].
    split; [exact Hnext |].
    apply finishFirst_ids in Hfirst.
    rewrite List.Forall_forall in Hall |- *. intros g Hg.
    assert (Hid : In (database.Game_ID g) (map database.Game_ID records'))
      by (apply in_map; exact Hg).
    rewrite Hfirst in Hid. apply in_map_iff in Hid.
    destruct Hid as (g0 & Heq & Hg0). rewrite <- Heq. apply Hall. exact Hg0.
Qed.

Lemma insert_swap_Permutation {A : Type} (l : list A) (j : nat) (d : A) :
  (S j < length l)%nat ->
  Permutation (<[S j := nth j l d]> (<[j := nth (S j) l d]> l)) l.
Proof.
  revert l. induction j as [| j IH]; intros l H.
  - destruct l as [| x [| y t]]; cbn [length] in H; try lia.
    cbn [list_insert insert nth]. apply perm_swap.
  - destruct l as [| x l']; cbn [length] in H; [lia |].
    cbn [list_insert insert nth]. apply perm_skip. apply IH. lia.
Qed.

Lemma swapIfLess_Permutation (records : list database.MoveRecord) (j : nat) :
  (S j < length records)%nat ->
  Permutation (database.swapIfLess records j) records.
Proof.
  intros H. unfold database.swapIfLess.
  destruct (_ <? _)%float; [| reflexivity].
  rewrite Nat.add_1_r. apply insert_swap_Permutation. exact H.
Qed.

Lemma bubblePass_Permutation (records : list database.MoveRecord) (i : nat) :
  Permutation (database.bubblePass records i) records.
Proof.
  unfold database.bubblePass.
  assert (H : forall js l,
             Permutation l records ->
             Forall (fun j => (S j < length records)%nat) js ->
             Permutation (fold_left database.swapIfLess js l) records).
  { induction js as [| j js IH]; intros l Hl Hjs; [exact Hl |].
    inversion Hjs as [| ? ? Hj Hrest]; subst.
    cbn [fold_left]. apply IH; [| exact Hrest].
    rewrite swapIfLess_Permutation; [exact Hl |].
    rewrite (Permutation_length Hl). exact Hj. }
  apply H; [reflexivity |].
  apply List.Forall_forall. intros j Hj. apply in_seq in Hj. lia.
Qed.

Lemma bubbleSort_Permutation (records : list database.MoveRecord) :
  Permutation (database.bubbleSort records) records.
Proof.
  unfold database.bubbleSort.
  generalize (seq 0 (length records - 1)) as passes.
  intros passes.
  assert (H : forall l, Permutation l records ->
                        Permutation (fold_left database.bubblePass passes l)
                                    records).
  { induction passes as [| i passes IH]; intros l Hl; [exact Hl |].
    cbn [fold_left]. apply IH. rewrite bubblePass_Permutation. exact Hl. }
  apply H. reflexivity.
Qed.

(** X24.  [GetSimilarMoves] refuses a limit outside 1..1000 and otherwise
    returns at most [limit] records, all of them moves of the store with
    the hash asked for; together with the records cut off they are the
    matching moves of the store, each as often as it is stored. *)
Theorem GetSimilarMoves_result
        (d : database.Database) (boardHash : String.string) (limit : Z) :
  let matching :=
    List.filter (fun move => String.eqb (database.BoardHash move) boardHash)
                (database.moves d) in
  match database.GetSimilarMoves d boardHash limit with
  | None => limit <= 0 \/ limit > 1000
  | Some records =>
      1 <= limit <= 1000
      /\ length records = Nat.min (Z.to_nat limit) (length matching)
      /\ (exists cut, Permutation (records ++ cut) matching)
      /\ Forall (fun r => In r (database.moves d)
                          /\ database.BoardHash r = boardHash) records
  end.
Proof.
  intros matching. unfold database.GetSimilarMoves. fold matching.
  destruct (Z.leb_spec limit 0) as [Hlow | Hlow]; [left; exact Hlow |].
  destruct (Z.gtb_spec limit 1000) as [Hhigh | Hhigh]; [right; lia |].
  cbn [orb].
  pose proof (bubbleSort_Permutation matching) as Hperm.
  pose proof (Permutation_length Hperm) as Hlen.
  set (sorted := database.bubbleSort matching) in *.
  assert (Hres :
            exists records,
              (if Z.of_nat (length sorted) >? limit
               then firstn (Z.to_nat limit) sorted else sorted) = records
              /\ length records = Nat.min (Z.to_nat limit) (length matching)
              /\ exists cut, records ++ cut = sorted).
  { destruct (Z.gtb_spec (Z.of_nat (length sorted)) limit) as [Hcut | Hall].
    - eexists. split; [reflexivity |]. split.
      + rewrite length_firstn, Hlen. reflexivity.
      + exists (skipn (Z.to_nat limit) sorted). apply firstn_skipn.
    - eexists. split; [reflexivity |]. split.
      + rewrite Hlen. lia.
      + exists []. apply app_nil_r. }
  destruct Hres as (records & -> & Hcount & cut & Hsplit).
  split; [lia |]. split; [exact Hcount |].
  split; [exists cut; rewrite Hsplit; exact Hperm |].
  apply List.Forall_forall. intros r Hr.
  assert (Hin : In r matching).
  { apply (Permutation_in r Hperm). rewrite <- Hsplit.
    apply in_or_app. left. exact Hr. }
  apply List.filter_In in Hin. destruct Hin as [Hin Hhash].
  split; [exact Hin |]. apply String.eqb_eq. exact Hhash.
Qed.

(** ** The hash of a position *)

Lemma chars_of_append (s1 s2 : String.string) :
  String.list_ascii_of_string (String.append s1 s2)
  = String.list_ascii_of_string s1 ++ String.list_ascii_of_string s2.
Proof.
  induction s1 as [| c s1 IH]; [reflexivity |].
  cbn [String.append String.list_ascii_of_string app]. rewrite IH. reflexivity.
Qed.

Lemma length_chars (s : String.string) :
  String.length s = length (String.list_ascii_of_string s).
Proof.
  induction s as [| c s IH]; [reflexivity |].
  cbn [String.length String.list_ascii_of_string length]. rewrite IH. reflexivity.
Qed.

Lemma chars_injective (s1 s2 : String.string) :
  String.list_ascii_of_string s1 = String.list_ascii_of_string s2 -> s1 = s2.
Proof.
  intros H. rewrite <- (String.string_of_list_ascii_of_string s1),
              <- (String.string_of_list_ascii_of_string s2), H.
  reflexivity.
Qed.

Lemma GenerateBoardHash_chars (b : Board) :
  String.list_ascii_of_string (database.GenerateBoardHash b)
  = map (fun p => database.squareChar (cellAt (Cells b) (Row p) (Col p)))
        allSquares.
Proof.
  unfold database.GenerateBoardHash, allSquares.
  assert (Hrow : forall row cols hash,
             String.list_ascii_of_string
               (fold_left
                  (fun hash col =>
                     let piece := cellAt (Cells b) row col in
                     if PieceType_eqb (Piece_Type piece) Empty
                     then String.append hash
                            (String.String (Ascii.ascii_of_N 46) String.EmptyString)
                     else String.append hash
                            (database.runeString (database.pieceToChar piece)))
                  cols hash)
             = String.list_ascii_of_string hash
               ++ map (fun p => database.squareChar
                                  (cellAt (Cells b) (Row p) (Col p)))
                      (map (fun col => mkPosition row col) cols)).
  { intros row cols. induction cols as [| col cols IH]; intros hash.
    - cbn [fold_left map]. rewrite app_nil_r. reflexivity.
    - cbn [fold_left map]. rewrite IH. cbv zeta. cbn [Row Col].
      unfold database.squareChar, database.runeString.
      destruct (PieceType_eqb _ Empty);
        rewrite chars_of_append, <- app_assoc; reflexivity. }
  assert (Hall : forall rows hash,
             String.list_ascii_of_string
               (fold_left
                  (fun hash row =>
                     fold_left
                       (fun hash col =>
                          let piece := cellAt (Cells b) row col in
                          if PieceType_eqb (Piece_Type piece) Empty
                          then String.append hash
                                 (String.String (Ascii.ascii_of_N 46)
                                                String.EmptyString)
                          else String.append hash
                                 (database.runeString (database.pieceToChar piece)))
                       indices8 hash)
                  rows hash)
             = String.list_ascii_of_string hash
               ++ map (fun p => database.squareChar
                                  (cellAt (Cells b) (Row p) (Col p)))
                      (flat_map (fun row => map (fun col => mkPosition row col)
                                                indices8) rows)).
  { induction rows as [| row rows IH]; intros hash.
    - cbn [fold_left flat_map map]. rewrite app_nil_r. reflexivity.
    - cbn [fold_left flat_map]. rewrite IH, Hrow, map_app, <- app_assoc.
      reflexivity. }
  exact (Hall indices8 String.EmptyString).
Qed.

Lemma squareChar_same (p1 p2 : Piece) :
  database.squareChar p1 = database.squareChar p2 <->
  p1 = p2 \/ (isEmpty p1 = true /\ isEmpty p2 = true).
Proof.
  destruct p1 as [t1 c1], p2 as [t2 c2]. split.
  - intros H.
    destruct t1, c1, t2, c2;
      first [left; reflexivity
            | right; split; reflexivity
            | vm_compute in H; discriminate].
  - intros [H | [H1 H2]]; [rewrite H; reflexivity |].
    unfold isEmpty in H1, H2. cbn [Piece_Type] in H1, H2.
    unfold database.squareChar. cbn [Piece_Type]. rewrite H1, H2. reflexivity.
Qed.

Lemma map_eq_pointwise {A B : Type} (f g : A -> B) (l : list A) :
  map f l = map g l <-> (forall x, In x l -> f x = g x).
Proof.
  split; [| apply map_ext_in].
  induction l as [| x l IH]; intros H y Hy; [destruct Hy |].
  cbn [map] in H. injection H as Hx Hl.
  destruct Hy as [<- | Hy]; [exact Hx | apply IH; assumption].
Qed.

Lemma flat_map_ext_in {A B : Type} (f g : A -> list B) (l : list A) :
  (forall x, In x l -> f x = g x) -> flat_map f l = flat_map g l.
Proof.
  induction l as [| x l IH]; intros H; [reflexivity |].
  cbn [flat_map]. rewrite (H x) by (left; reflexivity).
  rewrite IH; [reflexivity |]. intros y Hy. apply H. right. exact Hy.
Qed.

Lemma In_indices8 (z : Z) : In z indices8 <-> 0 <= z <= 7.
Proof.
  unfold indices8. cbn [In]. lia.
Qed.

Lemma samePieces_boardToVector (b1 b2 : Board) :
  samePieces b1 b2 <-> boardToVector b1 = boardToVector b2.
Proof.
  split.
  - intros H. unfold boardToVector.
    apply flat_map_ext_in. intros plane Hplane. cbv zeta.
    apply flat_map_ext_in. intros row Hrow.
    apply map_ext_in. intros col Hcol.
    assert (Hp : In (mkPosition row col) allSquares).
    { apply allSquares_spec. apply onBoard_spec. cbn [Row Col].
      apply In_indices8 in Hrow, Hcol. lia. }
    apply H in Hp. cbn [Row Col] in Hp. destruct Hp as [-> | [E1 E2]].
    + reflexivity.
    + unfold isEmpty in E1, E2.
      apply PieceType_eqb_eq in E1, E2. rewrite E1, E2.
      cbn [seq In] in Hplane.
      repeat (destruct Hplane as [<- | Hplane]; [reflexivity |]).
      destruct Hplane.
  - intros H p Hp.
    apply allSquares_spec in Hp. apply onBoard_spec in Hp.
    pose proof (boardToVector_reads_piece b1 b2 (Z.to_nat (Row p))
                                          (Z.to_nat (Col p)) H) as H12.
    pose proof (boardToVector_reads_piece b2 b1 (Z.to_nat (Row p))
                                          (Z.to_nat (Col p)) (eq_sym H)) as H21.
    rewrite !Z2Nat.id in H12, H21 by lia.
    destruct (isEmpty (cellAt (Cells b1) (Row p) (Col p))) eqn:E1.
    + destruct (isEmpty (cellAt (Cells b2) (Row p) (Col p))) eqn:E2.
      * right. split; reflexivity.
      * left. symmetry. apply H21; [lia | lia | reflexivity].
    + left. apply H12; [lia | lia | reflexivity].
Qed.

(** X25.  [GenerateBoardHash] returns 64 characters, and two positions
    have the same hash exactly when they give the same input vector to
    the network: both record which piece stands on which square, and
    nothing else of the board. *)
Theorem GenerateBoardHash_matches_boardToVector (b1 b2 : Board) :
  String.length (database.GenerateBoardHash b1) = 64%nat
  /\ (database.GenerateBoardHash b1 = database.GenerateBoardHash b2
      <-> boardToVector b1 = boardToVector b2).
Proof.
  split.
  - rewrite length_chars, GenerateBoardHash_chars, length_map. reflexivity.
  - rewrite <- samePieces_boardToVector. split.
    + intros H p Hp. apply squareChar_same.
      apply (f_equal String.list_ascii_of_string) in H.
      rewrite !GenerateBoardHash_chars in H.
      exact (proj1 (map_eq_pointwise _ _ _) H p Hp).
    + intros H. apply chars_injective. rewrite !GenerateBoardHash_chars.
      apply map_eq_pointwise. intros p Hp. apply squareChar_same.
      apply H. exact Hp.
Qed.

(** ** Scoring a finished game in the web front end *)

(** X26.  When [MakeMove] ends a game within the move limit because the
    side to move has no legal move, [handleGameEnd] scores a stalemate as
    a draw (0.5) and a checkmate as a win (1) for an agent of the mating
    side and a loss (0) for an agent of the mated side. *)
Theorem handleGameEnd_scores_mate_and_stalemate
        (b : Board) (m : Move) (agentColor : Color) :
  MovesCount (MakeMove b m) <= 200 ->
  GetLegalMoves (MakeMove b m) = [] ->
  handleGameEndReward (MakeMove b m) agentColor
  = if isInCheck (MakeMove b m) (CurrentTurn (MakeMove b m))
    then if Color_eqb agentColor (CurrentTurn (MakeMove b m))
         then 0%float else 1%float
    else 0.5%float.
Proof.
  intros Hcount Hnone.
  destruct (MakeMove_outcome b m) as (Hover & Hwinner & _).
  specialize (Hwinner Hcount Hnone).
  assert (Hgo : GameOver (MakeMove b m) = true)
    by (apply Hover; right; left; exact Hnone).
  unfold handleGameEndReward.
  rewrite Hgo, Hwinner, MakeMove_IsCheck.
  destruct (isInCheck (MakeMove b m) (CurrentTurn (MakeMove b m)));
    [| reflexivity].
  cbn [negb andb].
  destruct agentColor, (CurrentTurn (MakeMove b m)); reflexivity.
Qed.

Lemma handleGameEnd_scores_mate_and_stalemate_witness :
  handleGameEndReward (MakeMove mateBoard (move 7 0 0 0)) White = 1%float
  /\ handleGameEndReward (MakeMove stalemateBoard (move 7 6 2 6)) White
     = 0.5%float.
Proof.
  split.
  - rewrite (handleGameEnd_scores_mate_and_stalemate mateBoard (move 7 0 0 0) White).
    + vm_compute. reflexivity.
    + vm_compute. discriminate.
    + vm_compute. reflexivity.
  - vm_compute. reflexivity.
Defined.
